(** * Road-sign inference pipeline and prediction service

    A shallow embedding of [src/ml_pipelines/inference_pipeline.py] and
    [src/api/main.py], followed by the properties proved about them.

    Conventions of the embedding:
    - Python [int] is [Z].  In the geometry (the validator, the padding of
      a region, the scale factor of a region) a [float] is a binary64
      value: every operation rounds its exact result to the nearest double,
      ties to even ([round64]), and conversions and divisions raise as
      Python's do.  Elsewhere (confidences, clock readings and elapsed
      times, their sums and means, thresholds that are only compared) a
      float is carried by its exact value in [Q];
    - Python [str] is [list ascii] for recognised text (written [py "..."])
      and [string] for messages and identifiers; text is read over the
      ASCII code points (codes above 127 count as neither letters nor
      white space), and messages are written without accents;
    - a call that may raise returns a [result]; [try ... except Exception]
      is [try_except];
    - the detector, the image library, the text-recognition engine and the
      experiment tracker are collaborators, passed as records of functions;
    - the module state of the service ([app_stats], [pipeline], the records
      written through [logger]) is threaded explicitly, together with the
      number of readings of the clock and of the identifier source. *)

From Stdlib Require Import ZArith QArith Qround Qpower Bool Ascii String List.
From Stdlib Require Import Lia Lqa DecimalString.
Import ListNotations.

Set Implicit Arguments.

Local Open Scope Z_scope.

(** ** Python values *)

Module Py.

(** Exceptions, by class; all are subclasses of [Exception]. *)
Inductive exn : Type :=
| ValueError (msg : string)
| IndexError (msg : string)
| ZeroDivisionError (msg : string)
| OverflowError (msg : string)
| re_error (msg : string)
| HTTPException (status_code : Z) (detail : string)
| Exception (msg : string).

Inductive result (A : Type) : Type :=
| Raise (e : exn)
| Return (a : A).
Arguments Raise {A} e.
Arguments Return {A} a.

Definition bind {A B} (m : result A) (k : A -> result B) : result B :=
  match m with
  | Raise e => Raise e
  | Return a => k a
  end.

(** [try: body  except Exception as e: handler e] *)
Definition try_except {A} (body : result A) (handler : exn -> result A)
  : result A :=
  match body with
  | Raise e => handler e
  | Return a => Return a
  end.

(** The message part of [str(e)] for the built-in classes; for an
    [HTTPException] the detail. *)
Definition str_exn (e : exn) : string :=
  match e with
  | ValueError m | IndexError m | ZeroDivisionError m | OverflowError m
  | re_error m | Exception m => m
  | HTTPException _ d => d
  end.

Definition Qlt_bool (a b : Q) : bool := negb (Qle_bool b a).

(** *** Numbers *)

(** A [float]: a binary64 value given by its exact value, an infinity, or
    NaN.  The sign of a zero is not kept: nothing here looks at it. *)
Inductive float : Type :=
| Finite (q : Q)
| inf
| ninf
| nan.

(** [floor(log2(q))] for [q > 0]. *)
Definition ilog2 (q : Q) : Z :=
  let e := Z.log2 (Qnum q) - Z.log2 (Zpos (Qden q)) in
  if Qle_bool (2 ^ e) q then e else e - 1.

(** The nearest integer, ties to even. *)
Definition round_half_even (q : Q) : Z :=
  let f := Qfloor q in
  match (q - inject_Z f ?= 1 # 2)%Q with
  | Lt => f
  | Gt => f + 1
  | Eq => if Z.even f then f else f + 1
  end.

(** The exponent of the last place of the doubles around [q > 0]: 52 below
    the binade of [q], and -1074 in the subnormal range. *)
Definition expo (q : Q) : Z := Z.max (ilog2 q - 52) (-1074).

(** The multiple of [2 ^ expo q] nearest to [q > 0], ties to even. *)
Definition nearest (q : Q) : Q :=
  Qred (inject_Z (round_half_even (q / 2 ^ expo q)) * 2 ^ expo q).

(** Rounding to binary64: the double nearest to [q], an infinity from
    [2 ^ 1024] on. *)
Definition round64 (q : Q) : float :=
  match (q ?= 0)%Q with
  | Eq => Finite 0
  | Gt => if Qle_bool (2 ^ 1024) (nearest q) then inf
          else Finite (nearest q)
  | Lt => if Qle_bool (2 ^ 1024) (nearest (- q)) then ninf
          else Finite (- nearest (- q))
  end.

Definition fopp (a : float) : float :=
  match a with
  | Finite q => Finite (- q)
  | inf => ninf
  | ninf => inf
  | nan => nan
  end.

Definition fadd (a b : float) : float :=
  match a, b with
  | nan, _ | _, nan => nan
  | Finite x, Finite y => round64 (x + y)
  | inf, ninf | ninf, inf => nan
  | inf, _ | _, inf => inf
  | ninf, _ | _, ninf => ninf
  end.

Definition fsub (a b : float) : float := fadd a (fopp b).

Definition fmul (a b : float) : float :=
  match a, b with
  | nan, _ | _, nan => nan
  | Finite x, Finite y => round64 (x * y)
  | Finite x, inf | inf, Finite x =>
      match (x ?= 0)%Q with Eq => nan | Gt => inf | Lt => ninf end
  | Finite x, ninf | ninf, Finite x =>
      match (x ?= 0)%Q with Eq => nan | Gt => ninf | Lt => inf end
  | inf, inf | ninf, ninf => inf
  | inf, ninf | ninf, inf => ninf
  end.

(** [a / b] for a divisor that is not zero. *)
Definition fdiv (a b : float) : float :=
  match a, b with
  | nan, _ | _, nan => nan
  | Finite x, Finite y => round64 (x / y)
  | Finite _, _ => Finite 0
  | inf, Finite y => if Qlt_bool y 0 then ninf else inf
  | ninf, Finite y => if Qlt_bool y 0 then inf else ninf
  | _, _ => nan
  end.

(** [a < b] and [a <= b]; false as soon as one side is NaN. *)
Definition flt (a b : float) : bool :=
  match a, b with
  | nan, _ | _, nan => false
  | Finite x, Finite y => Qlt_bool x y
  | _, ninf => false
  | ninf, _ => true
  | inf, _ => false
  | _, inf => true
  end.

Definition fle (a b : float) : bool :=
  match a, b with
  | nan, _ | _, nan => false
  | Finite x, Finite y => Qle_bool x y
  | ninf, _ => true
  | _, ninf => false
  | _, inf => true
  | inf, _ => false
  end.

Definition is_zero (a : float) : bool :=
  match a with
  | Finite q => Qeq_bool q 0
  | _ => false
  end.

(** A number: an [int] or a [float]. *)
Inductive number : Type :=
| Int (n : Z)
| Float (x : float).

(** Comparisons between numbers are exact, also between an int and a
    float. *)
Definition exact (a : number) : float :=
  match a with
  | Int n => Finite (inject_Z n)
  | Float x => x
  end.

Definition num_lt (a b : number) : bool := flt (exact a) (exact b).
Definition num_gt (a b : number) : bool := num_lt b a.
Definition num_le (a b : number) : bool := fle (exact a) (exact b).
Definition num_ge (a b : number) : bool := num_le b a.

(** [float(n)] *)
Definition to_float (n : Z) : result float :=
  match round64 (inject_Z n) with
  | Finite q => Return (Finite q)
  | _ => Raise (OverflowError "int too large to convert to float")
  end.

(** The operand of a float operation: an int is converted first. *)
Definition as_float (a : number) : result float :=
  match a with
  | Int n => to_float n
  | Float x => Return x
  end.

(** [a - b], [a * b] and [a / b]. *)
Definition num_sub (a b : number) : result number :=
  match a, b with
  | Int x, Int y => Return (Int (x - y))
  | _, _ =>
      match as_float a with
      | Raise e => Raise e
      | Return x =>
          match as_float b with
          | Raise e => Raise e
          | Return y => Return (Float (fsub x y))
          end
      end
  end.

Definition num_mul (a b : number) : result number :=
  match a, b with
  | Int x, Int y => Return (Int (x * y))
  | _, _ =>
      match as_float a with
      | Raise e => Raise e
      | Return x =>
          match as_float b with
          | Raise e => Raise e
          | Return y => Return (Float (fmul x y))
          end
      end
  end.

Definition num_truediv (a b : number) : result number :=
  match a, b with
  | Int x, Int y =>
      if y =? 0 then Raise (ZeroDivisionError "division by zero")
      else
        match round64 (inject_Z x / inject_Z y) with
        | Finite q => Return (Float (Finite q))
        | _ => Raise (OverflowError
                        "integer division result too large for a float")
        end
  | _, _ =>
      match as_float a with
      | Raise e => Raise e
      | Return x =>
          match as_float b with
          | Raise e => Raise e
          | Return y =>
              if is_zero y
              then Raise (ZeroDivisionError "float division by zero")
              else Return (Float (fdiv x y))
          end
      end
  end.

(** [int(x)] on a finite float: truncation towards zero. *)
Definition int (x : Q) : Z := Z.quot (Qnum x) (Zpos (Qden x)).

(** [int(a)] on a number. *)
Definition to_int (a : number) : result Z :=
  match a with
  | Int n => Return n
  | Float (Finite q) => Return (int q)
  | Float nan => Raise (ValueError "cannot convert float NaN to integer")
  | Float _ =>
      Raise (OverflowError "cannot convert float infinity to integer")
  end.

(** [str(n)] on an int. *)
Definition str_int (n : Z) : string := NilZero.string_of_int (Z.to_int n).

(** [len(l)] *)
Definition len {A} (l : list A) : Z := Z.of_nat (List.length l).

(** A slice bound, as Python normalises it against a length. *)
Definition slice_index (len i : Z) : Z :=
  if i <? 0 then Z.max (i + len) 0 else Z.min i len.

(** [l[start:stop]] *)
Definition slice {A} (l : list A) (start stop : Z) : list A :=
  let n := len l in
  let a := slice_index n start in
  let b := slice_index n stop in
  firstn (Z.to_nat (b - a)) (skipn (Z.to_nat a) l).

(** *** Text *)

Definition str := list ascii.

Definition py (s : string) : str := list_ascii_of_string s.

(** [ord(c)] and [chr(n)] *)
Definition code (c : ascii) : Z := Z.of_N (N_of_ascii c).
Definition chr (n : Z) : ascii := ascii_of_N (Z.to_N n).

Definition in_range (lo hi : Z) (c : ascii) : bool :=
  ((lo <=? code c) && (code c <=? hi))%bool.

(** [c.isspace()]: tab, line feed, vertical tab, form feed, carriage
    return, the separators 28 to 31, and the space. *)
Definition isspace (c : ascii) : bool :=
  (in_range 9 13 c || in_range 28 32 c)%bool.

Definition islower (c : ascii) : bool := in_range 97 122 c.
Definition isupper (c : ascii) : bool := in_range 65 90 c.
Definition isdigit (c : ascii) : bool := in_range 48 57 c.

(** The regular-expression class [\w]: letters, digits and underscore. *)
Definition isword (c : ascii) : bool :=
  (islower c || isupper c || isdigit c || (code c =? 95))%bool.

Definition upper_char (c : ascii) : ascii :=
  if islower c then chr (code c - 32) else c.

(** [s.upper()] *)
Definition upper (s : str) : str := map upper_char s.

(** [s.lstrip()], [s.rstrip()], [s.strip()] *)
Fixpoint lstrip (s : str) : str :=
  match s with
  | c :: s' => if isspace c then lstrip s' else s
  | [] => []
  end.

Definition rstrip (s : str) : str := rev (lstrip (rev s)).

Definition strip (s : str) : str := rstrip (lstrip s).

(** [s.split()]: the maximal runs of non-space characters.  [split_acc]
    carries the word being read, reversed. *)
Fixpoint split_acc (w : str) (s : str) : list str :=
  match s with
  | [] => match w with [] => [] | _ => [rev w] end
  | c :: s' =>
      if isspace c
      then match w with
           | [] => split_acc [] s'
           | _ => rev w :: split_acc [] s'
           end
      else split_acc (c :: w) s'
  end.

Definition split (s : str) : list str := split_acc [] s.

(** [sep.join(parts)] *)
Fixpoint join (sep : str) (parts : list str) : str :=
  match parts with
  | [] => []
  | [p] => p
  | p :: rest => p ++ sep ++ join sep rest
  end.

Definition ascii_eqb (a b : ascii) : bool := code a =? code b.

Fixpoint startswith (s prefix : str) : bool :=
  match prefix, s with
  | [], _ => true
  | p :: prefix', c :: s' => (ascii_eqb p c && startswith s' prefix')%bool
  | _ :: _, [] => false
  end.

(** [needle in hay] on strings: [needle] occurs as a contiguous run. *)
Fixpoint contains (hay needle : str) : bool :=
  (startswith hay needle ||
   match hay with
   | [] => false
   | _ :: hay' => contains hay' needle
   end)%bool.

(** Truth value of a string or a list. *)
Definition truthy {A} (l : list A) : bool :=
  match l with [] => false | _ => true end.

End Py.

Import Py.

Declare Scope py_scope.
Delimit Scope py_scope with py.
Notation "x <- m ;; k" := (bind m (fun x => k))
  (at level 61, m at next level, right associativity) : py_scope.
Notation "m ;;; k" := (bind m (fun _ => k))
  (at level 61, right associativity) : py_scope.
Open Scope py_scope.

(** ** Arrays and collaborators *)

(** An image: rows of pixels, colour (shape [(H, W, 3)]) or single channel
    (shape [(H, W)]).  Samples are unsigned 8-bit values. *)
Inductive ndarray : Type :=
| Color (rows : list (list (Z * Z * Z)))
| Gray (rows : list (list Z)).

Definition width_of {A} (rows : list (list A)) : Z :=
  match rows with
  | [] => 0
  | r :: _ => len r
  end.

(** [a.shape] *)
Definition shape (a : ndarray) : list Z :=
  match a with
  | Color rows => [len rows; width_of rows; 3]
  | Gray rows => [len rows; width_of rows]
  end.

(** [a.size] *)
Definition size (a : ndarray) : Z := fold_right Z.mul 1 (shape a).

Definition slice_rows {A} (rows : list (list A)) (y1 y2 x1 x2 : Z)
  : list (list A) :=
  map (fun r => slice r x1 x2) (slice rows y1 y2).

(** [a[y1:y2, x1:x2]] *)
Definition slice2d (a : ndarray) (y1 y2 x1 x2 : Z) : ndarray :=
  match a with
  | Color rows => Color (slice_rows rows y1 y2 x1 x2)
  | Gray rows => Gray (slice_rows rows y1 y2 x1 x2)
  end.

(** [np.mean(xs)]: [None] stands for the not-a-number of an empty input. *)
Definition Qsum (xs : list Q) : Q := fold_left Qplus xs (0 : Q).

Definition np_mean (xs : list Q) : option Q :=
  match xs with
  | [] => None
  | _ => Some (Qsum xs / inject_Z (len xs))%Q
  end.

Definition samples (a : ndarray) : list Q :=
  match a with
  | Color rows =>
      flat_map (flat_map (fun p : Z * Z * Z =>
                            let '(b, g, r) := p in
                            [inject_Z b; inject_Z g; inject_Z r])) rows
  | Gray rows => map inject_Z (concat rows)
  end.

(** [d.get(key, default)] on an optional configuration key. *)
Definition get {A} (value : option A) (default : A) : A :=
  match value with
  | Some v => v
  | None => default
  end.

(** A [for] loop that appends to a list: [body x] gives what the iteration
    on [x] appends, or raises and ends the loop. *)
Fixpoint for_each {A B} (xs : list A) (body : A -> result (list B))
  : result (list B) :=
  match xs with
  | [] => Return []
  | x :: xs' =>
      ys <- body x ;;
      zs <- for_each xs' body ;;
      Return (ys ++ zs)
  end.

(** *** The [re] module, on patterns that are one character set

    The pattern compiler reads a set item by item.  An item is a literal, a
    class escape such as [\w], or a range [lo-hi]; a range whose end is a
    class escape is rejected with [re.error] ("bad character range"). *)
Module re.

Inductive token : Type :=
| Char (c : ascii)
| Esc (c : ascii).

Fixpoint tokens (pattern : str) : list token :=
  match pattern with
  | [] => []
  | c :: rest =>
      if code c =? 92
      then match rest with
           | e :: rest' => Esc e :: tokens rest'
           | [] => [Char c]
           end
      else Char c :: tokens rest
  end.

Inductive item : Type :=
| LITERAL (c : ascii)
| RANGE (lo hi : ascii)
| CATEGORY (holds : ascii -> bool).

(** A set item from one token: class escapes give a category, an escaped
    character that is not a letter or digit stands for itself; other
    escapes are outside the fragment. *)
Definition class_item (t : token) : result item :=
  match t with
  | Char c => Return (LITERAL c)
  | Esc e =>
      if code e =? 119 then Return (CATEGORY isword)
      else if code e =? 115 then Return (CATEGORY isspace)
      else if code e =? 100 then Return (CATEGORY isdigit)
      else if code e =? 87 then Return (CATEGORY (fun c => negb (isword c)))
      else if code e =? 83 then Return (CATEGORY (fun c => negb (isspace c)))
      else if code e =? 68 then Return (CATEGORY (fun c => negb (isdigit c)))
      else if (islower e || isupper e || isdigit e)%bool
           then Raise (re_error "bad escape")
           else Return (LITERAL e)
  end.

Definition is_char (n : Z) (t : token) : bool :=
  match t with
  | Char c => code c =? n
  | Esc _ => false
  end.

(** The items of a set, up to its closing bracket.  [seen] tells whether an
    item was read already: a bracket closes the set only then. *)
Fixpoint parse_set (seen : bool) (ts : list token) : result (list item) :=
  match ts with
  | [] => Raise (re_error "unterminated character set")
  | this :: rest =>
      if (is_char 93 this && seen)%bool then
        match rest with
        | [] => Return []
        | _ => Raise (Exception "pattern is not one character set")
        end
      else
        code1 <- class_item this ;;
        match rest with
        | dash :: that :: rest' =>
            if is_char 45 dash then
              if is_char 93 that then
                match rest' with
                | [] => Return [code1; LITERAL (chr 45)]
                | _ => Raise (Exception "pattern is not one character set")
                end
              else
                code2 <- class_item that ;;
                match code1, code2 with
                | LITERAL lo, LITERAL hi =>
                    if code hi <? code lo
                    then Raise (re_error "bad character range")
                    else
                      items <- parse_set true rest' ;;
                      Return (RANGE lo hi :: items)
                | _, _ => Raise (re_error "bad character range")
                end
            else
              items <- parse_set true rest ;;
              Return (code1 :: items)
        | [dash] =>
            if is_char 45 dash
            then Raise (re_error "unterminated character set")
            else
              items <- parse_set true rest ;;
              Return (code1 :: items)
        | [] => Raise (re_error "unterminated character set")
        end
  end.

Definition item_holds (i : item) (c : ascii) : bool :=
  match i with
  | LITERAL l => ascii_eqb l c
  | RANGE lo hi => ((code lo <=? code c) && (code c <=? code hi))%bool
  | CATEGORY holds => holds c
  end.

(** [re.compile(pattern)] for [pattern] of the form [[...]] or [[^...]]:
    the test of one character. *)
Definition compile (pattern : str) : result (ascii -> bool) :=
  match tokens pattern with
  | open :: ts =>
      if is_char 91 open then
        let '(negate, ts) :=
          match ts with
          | t :: ts' => if is_char 94 t then (true, ts') else (false, ts)
          | [] => (false, ts)
          end in
        items <- parse_set false ts ;;
        Return (fun c => xorb negate (existsb (fun i => item_holds i c) items))
      else Raise (Exception "pattern is not one character set")
  | [] => Raise (Exception "pattern is not one character set")
  end.

(** [re.sub(pattern, repl, string)] *)
Definition sub (pattern repl string : str) : result str :=
  holds <- compile pattern ;;
  Return (flat_map (fun c => if holds c then repl else [c]) string).

End re.

(** ** [ml_pipelines/inference_pipeline.py] *)

Module InferencePipeline.

(** *** Configuration ([conf/base/model_config.yml], as nested records) *)

Record confidence_thresholds_cfg := {
  detection_min : Q;
  detection_nms : Q }.

(** The section [roi].  [padding_ratio] enters a product, so it is a
    number; [min_area] and [max_aspect_ratio] are only compared, and Python
    compares numbers by their exact value, so they are carried by it. *)
Record roi_cfg := {
  padding_ratio : number;
  min_area : Q;
  max_aspect_ratio : Q }.

Record performance_cfg := {
  enable_cache : option bool }.

Record pipeline_cfg := {
  confidence_thresholds : confidence_thresholds_cfg;
  roi : roi_cfg;
  performance : performance_cfg }.

Record model_cfg := {
  architecture : string }.

Record yolo_cfg := {
  model : model_cfg }.

Record tesseract_cfg := {
  config : string }.

Record preprocessing_cfg := {
  denoise : option bool;
  contrast_enhancement : option bool;
  brightness_adjustment : option bool;
  min_height : option Z;
  threshold_method : option string }.

(** An entry of the [known_patterns] list: a string, or any other value. *)
Inductive yaml : Type :=
| YStr (s : str)
| YOther.

Record postprocessing_cfg := {
  remove_special_chars : option bool;
  known_patterns : option (list yaml) }.

Record ocr_cfg := {
  tesseract : tesseract_cfg;
  preprocessing : preprocessing_cfg;
  postprocessing : postprocessing_cfg }.

Record Config := {
  pipeline : pipeline_cfg;
  yolo : yolo_cfg;
  ocr : ocr_cfg }.

(** *** Collaborators *)

(** One box of a detector result: [box.xyxy[0].tolist()], four finite
    floats, [box.conf[0]] and [box.cls[0]]. *)
Record Box := {
  xyxy : Q * Q * Q * Q;
  conf : Q;
  cls : Q }.

(** A loaded detector: the call [model(image, conf=, iou=, verbose=False)],
    one entry per result with its [boxes] ([None] when it has none), and
    the class-name table [model.names]. *)
Record YOLO := {
  call : ndarray -> Q -> Q -> result (list (option (list Box)));
  names : Z -> option string }.

Record cv2_lib := {
  imread : string -> option ndarray;
  cvtColor_RGB2BGR : ndarray -> result ndarray;
  cvtColor_BGR2GRAY : ndarray -> result ndarray;
  fastNlMeansDenoising : ndarray -> result ndarray;
  CLAHE_apply : ndarray -> result ndarray;
  convertScaleAbs : ndarray -> Q -> Q -> result ndarray;
  resize_cubic : ndarray -> Z * Z -> result ndarray;
  adaptiveThreshold : ndarray -> result ndarray;
  threshold_otsu : ndarray -> result ndarray }.

(** The word-level table of [pytesseract.image_to_data(..., output_type=DICT)]:
    the columns [data['text']] and [data['conf']]. *)
Record ocr_data := {
  data_text : list str;
  data_conf : list Z }.

Record pytesseract_lib := {
  get_tesseract_version : result string;
  image_to_data : ndarray -> string -> result ocr_data }.

Record mlflow_lib := {
  set_experiment : string -> result unit;
  start_run : string -> result unit;
  log_metric : string -> Q -> result unit }.

Record Env := {
  cv2 : cv2_lib;
  pytesseract : pytesseract_lib;
  mlflow : mlflow_lib;
  new_YOLO : string -> result YOLO;
  path_exists : string -> bool;
  safe_load : string -> result Config }.

(** *** Results *)

Record Detection := {
  bbox : Z * Z * Z * Z;
  confidence : Q;
  class_id : Z;
  class_name : string }.

Record OcrResult := {
  text : str;
  ocr_confidence : Q;
  raw_text : str;
  word_count : Z }.

(** [{**detection, 'ocr': ocr_result, 'has_text': ...}] *)
Record Prediction := {
  detection : Detection;
  ocr_ : OcrResult;
  has_text : bool }.

(** The two dictionaries [predict_image] builds. *)
Inductive FrameResult : Type :=
| Success (image_shape : list Z) (detections_count : Z)
    (results : list Prediction) (processing_time : Q)
    (pipeline_version : string)
| Error (error : string) (detections_count : Z)
    (results : list Prediction) (processing_time : Q).

(** ['error' in result] *)
Definition has_error (r : FrameResult) : bool :=
  match r with
  | Success _ _ _ _ _ => false
  | Error _ _ _ _ => true
  end.

Definition detections_count_of (r : FrameResult) : Z :=
  match r with
  | Success _ n _ _ _ | Error _ n _ _ => n
  end.

Definition results_of (r : FrameResult) : list Prediction :=
  match r with
  | Success _ _ rs _ _ | Error _ _ rs _ => rs
  end.

Definition processing_time_of (r : FrameResult) : Q :=
  match r with
  | Success _ _ _ t _ | Error _ _ _ t => t
  end.

(** The image argument of [predict_image]: a path, a PIL image (given by
    its pixel array [np.array(image)]), or an array. *)
Inductive image_input : Type :=
| Path (p : string)
| PILImage (a : ndarray)
| Array (a : ndarray).

(** The object: its configuration and the detector, [None] until loaded. *)
Record RoadSignInferencePipeline := {
  self_config : Config;
  yolo_model : option YOLO }.

Definition pipeline_config (self : RoadSignInferencePipeline) : pipeline_cfg :=
  pipeline (self_config self).
Definition yolo_config (self : RoadSignInferencePipeline) : yolo_cfg :=
  yolo (self_config self).
Definition ocr_config (self : RoadSignInferencePipeline) : ocr_cfg :=
  ocr (self_config self).

Section Methods.

Variable env : Env.

Definition load_models (self : RoadSignInferencePipeline)
    (yolo_model_path : option string)
  : RoadSignInferencePipeline * bool :=
  let loaded :=
    match yolo_model_path with
    | Some p =>
        if (negb (String.eqb p "") && path_exists env p)%bool
        then new_YOLO env p
        else new_YOLO env (architecture (model (yolo_config self)) ++ ".pt")
    | None => new_YOLO env (architecture (model (yolo_config self)) ++ ".pt")
    end in
  match loaded with
  | Return m =>
      (* the probe of the text engine has a handler of its own *)
      let _ := try_except (get_tesseract_version (pytesseract env))
                          (fun _ => Return ""%string) in
      ({| self_config := self_config self; yolo_model := Some m |}, true)
  | Raise _ => (self, false)
  end.

Definition __init__ (yolo_model_path : option string) (config_path : string)
  : result RoadSignInferencePipeline :=
  cfg <- safe_load env config_path ;;
  let self := {| self_config := cfg; yolo_model := None |} in
  let '(self, _) := load_models self yolo_model_path in
  set_experiment (mlflow env) "RoadSign_E2E_Pipeline" ;;;
  Return self.

Definition preprocess_image (image : image_input) : result ndarray :=
  img <- match image with
         | Path p =>
             match imread (cv2 env) p with
             | None =>
                 Raise (ValueError ("Impossible de charger l'image: " ++ p))
             | Some img => Return img
             end
         | PILImage a => cvtColor_RGB2BGR (cv2 env) a
         | Array a => Return a
         end ;;
  if size img =? 0 then Raise (ValueError "Image invalide ou vide")
  else Return img.

Definition _validate_detection (self : RoadSignInferencePipeline)
    (x1 y1 x2 y2 : number) (image_shape : list Z) : result bool :=
  match slice image_shape 0 2 with
  | [h; w] =>
      if (num_lt x1 (Int 0) || num_lt y1 (Int 0) || num_gt x2 (Int w)
          || num_gt y2 (Int h) || num_ge x1 x2 || num_ge y1 y2)%bool
      then Return false
      else
        dx <- num_sub x2 x1 ;;
        dy <- num_sub y2 y1 ;;
        area <- num_mul dx dy ;;
        let min_area := min_area (roi (pipeline_config self)) in
        if num_lt area (Float (Finite min_area)) then Return false
        else
          width <- num_sub x2 x1 ;;
          height <- num_sub y2 y1 ;;
          aspect_ratio <-
            (if num_gt height (Int 0) then num_truediv width height
             else Return (Float inf)) ;;
          let max_aspect_ratio :=
            max_aspect_ratio (roi (pipeline_config self)) in
          if num_gt aspect_ratio (Float (Finite max_aspect_ratio))
          then Return false
          else Return true
  | _ => Raise (ValueError "not enough values to unpack")
  end.

Definition detect_road_signs (self : RoadSignInferencePipeline)
    (image : ndarray) : result (list Detection) :=
  match yolo_model self with
  | None => Raise (ValueError "Modele YOLO non charge")
  | Some yolo_model =>
      let conf_threshold :=
        detection_min (confidence_thresholds (pipeline_config self)) in
      let nms_threshold :=
        detection_nms (confidence_thresholds (pipeline_config self)) in
      results <- call yolo_model image conf_threshold nms_threshold ;;
      for_each results (fun boxes =>
        match boxes with
        | None => Return []
        | Some boxes =>
            for_each boxes (fun box =>
              let '(x1, y1, x2, y2) := xyxy box in
              let confidence := conf box in
              let class_id := int (cls box) in
              ok <- _validate_detection self (Float (Finite x1))
                      (Float (Finite y1)) (Float (Finite x2))
                      (Float (Finite y2)) (shape image) ;;
              if ok : bool then
                Return [{| bbox := (int x1, int y1, int x2, int y2);
                           confidence := confidence;
                           class_id := class_id;
                           class_name :=
                             get (names yolo_model class_id)
                                 ("class_" ++ str_int class_id)%string |}]
              else Return [])
        end)
  end.

Definition extract_roi (self : RoadSignInferencePipeline) (image : ndarray)
    (bbox : Z * Z * Z * Z) : result ndarray :=
  let '(x1, y1, x2, y2) := bbox in
  let padding_ratio := padding_ratio (roi (pipeline_config self)) in
  box <-
    (if num_gt padding_ratio (Int 0) then
       let width := x2 - x1 in
       let height := y2 - y1 in
       pad_w <- (p <- num_mul (Int width) padding_ratio ;; to_int p) ;;
       pad_h <- (p <- num_mul (Int height) padding_ratio ;; to_int p) ;;
       Return (Z.max 0 (x1 - pad_w),
               Z.max 0 (y1 - pad_h),
               Z.min (nth 1 (shape image) 0) (x2 + pad_w),
               Z.min (nth 0 (shape image) 0) (y2 + pad_h))
     else Return (x1, y1, x2, y2)) ;;
  let '(x1, y1, x2, y2) := box in
  Return (slice2d image y1 y2 x1 x2).

Definition preprocess_roi_for_ocr (self : RoadSignInferencePipeline)
    (roi : ndarray) : result ndarray :=
  let preprocessed := roi in
  let preprocess_config := preprocessing (ocr_config self) in
  preprocessed <-
    (if len (shape preprocessed) =? 3
     then cvtColor_BGR2GRAY (cv2 env) preprocessed
     else Return preprocessed) ;;
  preprocessed <-
    (if get (denoise preprocess_config) false
     then fastNlMeansDenoising (cv2 env) preprocessed
     else Return preprocessed) ;;
  preprocessed <-
    (if get (contrast_enhancement preprocess_config) false
     then CLAHE_apply (cv2 env) preprocessed
     else Return preprocessed) ;;
  preprocessed <-
    (if get (brightness_adjustment preprocess_config) false
     then match np_mean (samples preprocessed) with
          | Some mean_brightness =>
              if Qlt_bool mean_brightness 100
              then convertScaleAbs (cv2 env) preprocessed (12 # 10) 30
              else Return preprocessed
          | None => Return preprocessed
          end
     else Return preprocessed) ;;
  let min_height := get (min_height preprocess_config) 32 in
  let current_height := nth 0 (shape preprocessed) 0 in
  preprocessed <-
    (if current_height <? min_height then
       scale_factor <- num_truediv (Int min_height) (Int current_height) ;;
       new_width <-
         (p <- num_mul (Int (nth 1 (shape preprocessed) 0)) scale_factor ;;
          to_int p) ;;
       resize_cubic (cv2 env) preprocessed (new_width, min_height)
     else Return preprocessed) ;;
  let threshold_method :=
    get (threshold_method preprocess_config) "adaptive"%string in
  if String.eqb threshold_method "adaptive"
  then adaptiveThreshold (cv2 env) preprocessed
  else if String.eqb threshold_method "otsu"
       then threshold_otsu (cv2 env) preprocessed
       else Return preprocessed.

(** The loop over [known_patterns]: the first string pattern whose upper
    case occurs in the upper-cased text. *)
Fixpoint first_known_pattern (known_patterns : list yaml) (processed : str)
  : option str :=
  match known_patterns with
  | [] => None
  | YStr pattern :: rest =>
      if contains (upper processed) (upper pattern)
      then Some (upper pattern)
      else first_known_pattern rest processed
  | YOther :: rest => first_known_pattern rest processed
  end.

Definition _postprocess_text (self : RoadSignInferencePipeline) (text : str)
  : result str :=
  if negb (truthy text) then Return []
  else
    let postprocess_config := postprocessing (ocr_config self) in
    let processed := text in
    processed <-
      (if get (remove_special_chars postprocess_config) false
       then re.sub (py "[^\w\s-/]") [] processed
       else Return processed) ;;
    let processed := join (py " ") (split processed) in
    let processed := upper processed in
    let known_patterns := get (known_patterns postprocess_config) [] in
    match first_known_pattern known_patterns processed with
    | Some pattern => Return pattern
    | None => Return processed
    end.

(** [enumerate(l)] *)
Definition enumerate {A} (l : list A) : list (nat * A) :=
  combine (seq 0 (length l)) l.

Definition recognize_text (self : RoadSignInferencePipeline) (roi : ndarray)
  : result OcrResult :=
  try_except
    (let tesseract_config := tesseract (ocr_config self) in
     let config := config tesseract_config in
     data <- image_to_data (pytesseract env) roi config ;;
     (* text_parts and confidences grow together: one pair per kept word *)
     kept <- for_each (enumerate (data_text data)) (fun iw =>
       let '(i, word) := iw in
       if truthy (strip word) then
         match nth_error (data_conf data) i with
         | None => Raise (IndexError "list index out of range")
         | Some conf =>
             if 0 <? conf then Return [(strip word, conf)] else Return []
         end
       else Return []) ;;
     let text_parts := map fst kept in
     let confidences := map snd kept in
     let text := if truthy text_parts then join (py " ") text_parts else [] in
     let avg_confidence :=
       match np_mean (map inject_Z confidences) with
       | Some mean => (mean / 100)%Q
       | None => 0%Q
       end in
     processed_text <- _postprocess_text self text ;;
     Return {| text := processed_text;
               ocr_confidence := avg_confidence;
               raw_text := text;
               word_count := len text_parts |})
    (fun e =>
     Return {| text := []; ocr_confidence := 0; raw_text := [];
               word_count := 0 |}).

Definition _log_prediction_metrics (result_ : FrameResult) : result unit :=
  try_except
    (start_run (mlflow env) "inference_prediction" ;;;
     log_metric (mlflow env) "detections_count"
                (inject_Z (detections_count_of result_)) ;;;
     log_metric (mlflow env) "processing_time" (processing_time_of result_) ;;;
     (if truthy (results_of result_) then
        match np_mean (filter (Qlt_bool 0)
                         (map (fun r => ocr_confidence (ocr_ r))
                              (results_of result_))) with
        | Some avg_ocr_confidence =>
            log_metric (mlflow env) "avg_ocr_confidence" avg_ocr_confidence
        | None => Return tt
        end
      else Return tt) ;;;
     let target_time := 2%Q in
     log_metric (mlflow env) "meets_performance_target"
                (if Qle_bool (processing_time_of result_) target_time
                 then 1 else 0)%Q)
    (fun e => Return tt).

(** [predict_image]; [start_time] is the clock when the call starts and
    [end_time] the clock read when the result dictionary is built. *)
Definition predict_image (self : RoadSignInferencePipeline)
    (image : image_input) (start_time end_time : Q) : result FrameResult :=
  try_except
    (img <- preprocess_image image ;;
     detections <- detect_road_signs self img ;;
     results <- for_each detections (fun detection =>
       roi <- extract_roi self img (bbox detection) ;;
       roi_processed <- preprocess_roi_for_ocr self roi ;;
       ocr_result <- recognize_text self roi_processed ;;
       let combined_result :=
         {| detection := detection;
            ocr_ := ocr_result;
            has_text := 0 <? len (text ocr_result) |} in
       Return [combined_result]) ;;
     let total_time := (end_time - start_time)%Q in
     let final_result :=
       Success (shape img) (len detections) results total_time "1.0.0" in
     _log_prediction_metrics final_result ;;;
     Return final_result)
    (fun e =>
     Return (Error (str_exn e) 0 [] (end_time - start_time)%Q)).

(** [predict_batch]; the call on the image at index [i] reads the clock
    twice, which gives [clock (2 * i)] and [clock (2 * i + 1)]. *)
Definition predict_batch (self : RoadSignInferencePipeline)
    (images : list image_input) (clock : nat -> Q)
  : result (list FrameResult) :=
  for_each (enumerate images) (fun iimage =>
    let '(i, image) := iimage in
    result_ <- predict_image self image (clock (2 * i)%nat)
                 (clock (2 * i + 1)%nat) ;;
    Return [result_]).

End Methods.

End InferencePipeline.

(** ** [api/main.py] *)

Module Main.

Import InferencePipeline.

(** [app_stats] *)
Record AppStats := {
  total_predictions : Z;
  total_detections : Z;
  total_processing_time : Q;
  start_time : Q }.

Inductive level : Type := INFO | WARNING | ERROR.

(** The module state: the two globals, the records written through
    [logger], and the number of clock and identifier draws made so far. *)
Record State := {
  app_stats : AppStats;
  pipeline : option RoadSignInferencePipeline;
  log : list (level * string);
  ticks : nat }.

(** The state at import: zero counters, no pipeline. *)
Definition initial (now : Q) : State :=
  {| app_stats := {| total_predictions := 0;
                     total_detections := 0;
                     total_processing_time := 0;
                     start_time := now |};
     pipeline := None;
     log := [];
     ticks := 0 |}.

(** Handlers run in the state and may raise; what was written before an
    exception stays written. *)
Definition M (A : Type) : Type := State -> State * result A.

Definition ret {A} (a : A) : M A := fun st => (st, Return a).

Definition raise {A} (e : exn) : M A := fun st => (st, Raise e).

Definition lift {A} (r : result A) : M A := fun st => (st, r).

Definition bindM {A B} (m : M A) (k : A -> M B) : M B :=
  fun st =>
    match m st with
    | (st', Return a) => k a st'
    | (st', Raise e) => (st', Raise e)
    end.

Definition try_exceptM {A} (body : M A) (handler : exn -> M A) : M A :=
  fun st =>
    match body st with
    | (st', Return a) => (st', Return a)
    | (st', Raise e) => handler e st'
    end.

Declare Scope api_scope.
Delimit Scope api_scope with api.
Notation "x <-- m ;; k" := (bindM m (fun x => k))
  (at level 61, m at next level, right associativity) : api_scope.
Notation "m >> k" := (bindM m (fun _ => k))
  (at level 61, right associativity) : api_scope.
Local Open Scope api_scope.

Fixpoint for_eachM {A B} (xs : list A) (body : A -> M (list B)) : M (list B) :=
  match xs with
  | [] => ret []
  | x :: xs' =>
      ys <-- body x ;;
      zs <-- for_eachM xs' body ;;
      ret (ys ++ zs)
  end.

Definition logger (l : level) (msg : string) : M unit :=
  fun st =>
    ({| app_stats := app_stats st; pipeline := pipeline st;
        log := log st ++ [(l, msg)]; ticks := ticks st |}, Return tt).

Definition tick (st : State) : State :=
  {| app_stats := app_stats st; pipeline := pipeline st;
     log := log st; ticks := S (ticks st) |}.

(** *** Models and collaborators *)

Record UploadFile := {
  content_type : option string;
  file : list Z }.

(** [DetectionResult] has the fields of a [Prediction]; its [confidence]
    is declared with [ge=0.0, le=1.0]. *)
Definition DetectionResult := Prediction.

Record PredictionResponse := {
  success : bool;
  image_shape : list Z;
  detections_count : Z;
  results : list DetectionResult;
  processing_time : Q;
  pipeline_version : string;
  request_id : string }.

Record HealthResponse := {
  status : string;
  pipeline_loaded : bool;
  uptime : Q;
  health_total_predictions : Z;
  version : string }.

Record MetricsResponse := {
  metrics_total_predictions : Z;
  metrics_total_detections : Z;
  average_processing_time : Q;
  metrics_uptime : Q;
  pipeline_status : string }.

(** An element of the list [predict_batch] returns: a response model, or
    the dictionary [{"success": False, "error": ..., "request_id": ...}]. *)
Inductive BatchEntry : Type :=
| Response (r : PredictionResponse)
| Failure (success : bool) (error : string) (request_id : string).

(** The collaborators of the service: those of the pipeline, the decoding
    of an upload ([Image.open], [convert('RGB')], [np.array], [cvtColor]),
    the clock [time.time()] and [uuid.uuid4()], by draw number. *)
Record Env := {
  pipeline_env : InferencePipeline.Env;
  decode : list Z -> result ndarray;
  time_at : nat -> Q;
  uuid_at : nat -> string }.

Section Service.

Variable env : Env.

Definition time_time : M Q :=
  fun st => (tick st, Return (time_at env (ticks st))).

Definition uuid4 : M string :=
  fun st => (tick st, Return (uuid_at env (ticks st))).

(** Validation done by the model constructors. *)
Definition new_DetectionResult (r : Prediction) : result DetectionResult :=
  if (Qle_bool 0 (confidence (detection r))
      && Qle_bool (confidence (detection r)) 1)%bool
  then Return r
  else Raise (Exception "validation error for DetectionResult").

Definition new_PredictionResponse (success : bool) (image_shape : list Z)
    (detections_count : Z) (results : list Prediction) (processing_time : Q)
    (pipeline_version request_id : string) : result PredictionResponse :=
  results <- for_each results (fun r =>
               d <- new_DetectionResult r ;; Return [d]) ;;
  Return {| success := success;
            image_shape := image_shape;
            detections_count := detections_count;
            results := results;
            processing_time := processing_time;
            pipeline_version := pipeline_version;
            request_id := request_id |}.

(** [pipeline.predict_image(image)]: the pipeline reads the clock when it
    starts and when it builds its result. *)
Definition pipeline_predict_image (p : RoadSignInferencePipeline)
    (image : ndarray) : M FrameResult :=
  start <-- time_time ;;
  stop <-- time_time ;;
  lift (InferencePipeline.predict_image (pipeline_env env) p (Array image)
          start stop).

Definition set_pipeline (p : option RoadSignInferencePipeline) : M unit :=
  fun st =>
    ({| app_stats := app_stats st; pipeline := p;
        log := log st; ticks := ticks st |}, Return tt).

Definition initialize_pipeline : M bool :=
  try_exceptM
    (logger INFO "Initialisation du pipeline ML..." >>
     p <-- lift (InferencePipeline.__init__ (pipeline_env env) None
                   "conf/base/model_config.yml") ;;
     set_pipeline (Some p) >>
     logger INFO "Pipeline ML initialise avec succes" >>
     ret true)
    (fun e =>
     logger ERROR ("Erreur initialisation pipeline: " ++ str_exn e) >>
     ret false).

Definition update_stats (detections_count : Z) (processing_time : Q) : M unit :=
  fun st =>
    let s := app_stats st in
    ({| app_stats :=
          {| total_predictions := total_predictions s + 1;
             total_detections := total_detections s + detections_count;
             total_processing_time :=
               (total_processing_time s + processing_time)%Q;
             start_time := start_time s |};
        pipeline := pipeline st; log := log st; ticks := ticks st |},
     Return tt).

Definition process_uploaded_file (file_ : UploadFile) : M ndarray :=
  if negb (match content_type file_ with
           | Some ct =>
               (negb (String.eqb ct "") && String.prefix "image/" ct)%bool
           | None => false
           end)
  then raise (HTTPException 400
                ("Type de fichier non supporte: "
                 ++ get (content_type file_) "None"%string
                 ++ ". Utilisez une image."))
  else
    try_exceptM
      (lift (decode env (file file_)))
      (fun e =>
       logger ERROR ("Erreur traitement fichier: " ++ str_exn e) >>
       raise (HTTPException 400
                ("Impossible de traiter l'image: " ++ str_exn e))).

Definition startup_event : M unit :=
  logger INFO "Demarrage de l'API Road Sign ML" >>
  ok <-- initialize_pipeline ;;
  (if ok : bool then ret tt
   else logger WARNING
          "Pipeline non initialise - fonctionnement en mode degrade") >>
  logger INFO "API Road Sign ML demarree avec succes".

(** [POST /predict] *)
Definition predict_image (file_ : UploadFile) : M PredictionResponse :=
  fun st =>
  match pipeline st with
  | None =>
      raise (HTTPException 503
               "Pipeline ML non initialise - service indisponible") st
  | Some pipeline =>
      (request_id <-- uuid4 ;;
       start_time <-- time_time ;;
       try_exceptM
         (logger INFO ("Nouvelle prediction - ID: " ++ request_id) >>
          image <-- process_uploaded_file file_ ;;
          result_ <-- pipeline_predict_image pipeline image ;;
          match result_ with
          | Error error _ _ _ =>
              raise (HTTPException 500 ("Erreur de prediction: " ++ error))
          | Success image_shape detections_count results processing_time
              pipeline_version =>
              update_stats detections_count processing_time >>
              response <-- lift (new_PredictionResponse true image_shape
                                   detections_count results processing_time
                                   pipeline_version request_id) ;;
              logger INFO ("Prediction reussie - ID: " ++ request_id ++ " - "
                           ++ str_int detections_count ++ " detections") >>
              ret response
          end)
         (fun e =>
          match e with
          | HTTPException _ _ => raise e
          | _ =>
              logger ERROR ("Erreur prediction - ID: " ++ request_id ++ ": "
                            ++ str_exn e) >>
              raise (HTTPException 500 ("Erreur interne: " ++ str_exn e))
          end)) st
  end.

(** The body of the loop of [predict_batch] for the file at index [i]. *)
Definition predict_batch_item (pipeline : RoadSignInferencePipeline)
    (request_id : string) (i : nat) (file_ : UploadFile)
  : M (list BatchEntry) :=
  let item_id := (request_id ++ "_" ++ str_int (Z.of_nat i))%string in
  try_exceptM
    (image <-- process_uploaded_file file_ ;;
     result_ <-- pipeline_predict_image pipeline image ;;
     response <--
       match result_ with
       | Success image_shape detections_count results processing_time
           pipeline_version =>
           update_stats detections_count processing_time >>
           lift (new_PredictionResponse true image_shape detections_count
                   results processing_time pipeline_version item_id)
       | Error _ _ _ _ =>
           lift (new_PredictionResponse false [0; 0; 0] 0 [] 0 "1.0.0" item_id)
       end ;;
     ret [Response response])
    (fun e =>
     logger ERROR ("Erreur image " ++ str_int (Z.of_nat i) ++ " dans batch "
                   ++ request_id ++ ": " ++ str_exn e) >>
     ret [Failure false (str_exn e) item_id]).

(** [POST /predict/batch] *)
Definition predict_batch (files : list UploadFile) : M (list BatchEntry) :=
  fun st =>
  match pipeline st with
  | None =>
      raise (HTTPException 503
               "Pipeline ML non initialise - service indisponible") st
  | Some pipeline =>
      (if 10 <? len files
       then raise (HTTPException 400 "Maximum 10 images par batch")
       else
         request_id <-- uuid4 ;;
         logger INFO ("Prediction batch - ID: " ++ request_id ++ " - "
                      ++ str_int (len files) ++ " images") >>
         results <-- for_eachM (enumerate files) (fun ifile =>
                       predict_batch_item pipeline request_id
                         (fst ifile) (snd ifile)) ;;
         logger INFO ("Batch termine - ID: " ++ request_id) >>
         ret results) st
  end.

(** [GET /health] *)
Definition health_check : M HealthResponse :=
  now <-- time_time ;;
  fun st =>
    let uptime := (now - start_time (app_stats st))%Q in
    ret {| status := match pipeline st with
                     | Some _ => "healthy"
                     | None => "degraded"
                     end;
           pipeline_loaded := match pipeline st with
                              | Some _ => true
                              | None => false
                              end;
           uptime := uptime;
           health_total_predictions := total_predictions (app_stats st);
           version := "1.0.0" |} st.

(** [GET /metrics] *)
Definition get_metrics : M MetricsResponse :=
  now <-- time_time ;;
  fun st =>
    let uptime := (now - start_time (app_stats st))%Q in
    let avg_processing_time :=
      if 0 <? total_predictions (app_stats st)
      then (total_processing_time (app_stats st)
            / inject_Z (total_predictions (app_stats st)))%Q
      else 0%Q in
    ret {| metrics_total_predictions := total_predictions (app_stats st);
           metrics_total_detections := total_detections (app_stats st);
           average_processing_time := avg_processing_time;
           metrics_uptime := uptime;
           pipeline_status := match pipeline st with
                              | Some _ => "loaded"
                              | None => "not_loaded"
                              end |} st.

End Service.

End Main.

(** ** Vocabulary of the statements *)

Import InferencePipeline.

(** *** Configurations *)

(** The pipeline object with another [roi] section in its configuration. *)
Definition with_roi (self : RoadSignInferencePipeline) (r : roi_cfg)
  : RoadSignInferencePipeline :=
  {| self_config :=
       {| pipeline :=
            {| confidence_thresholds :=
                 confidence_thresholds (pipeline_config self);
               roi := r;
               performance := performance (pipeline_config self) |};
          yolo := yolo_config self;
          ocr := ocr_config self |};
     yolo_model := yolo_model self |}.

Definition with_padding_ratio (self : RoadSignInferencePipeline)
    (r : number) : RoadSignInferencePipeline :=
  with_roi self
    {| padding_ratio := r;
       min_area := min_area (roi (pipeline_config self));
       max_aspect_ratio := max_aspect_ratio (roi (pipeline_config self)) |}.

(** The pipeline object with another [postprocessing] section. *)
Definition with_postprocessing (self : RoadSignInferencePipeline)
    (p : postprocessing_cfg) : RoadSignInferencePipeline :=
  {| self_config :=
       {| pipeline := pipeline_config self;
          yolo := yolo_config self;
          ocr := {| tesseract := tesseract (ocr_config self);
                    preprocessing := preprocessing (ocr_config self);
                    postprocessing := p |} |};
     yolo_model := yolo_model self |}.

(** Whether the removal of special characters is switched on. *)
Definition strips (self : RoadSignInferencePipeline) : bool :=
  get (remove_special_chars (postprocessing (ocr_config self))) false.

Definition patterns_of (self : RoadSignInferencePipeline) : list yaml :=
  get (known_patterns (postprocessing (ocr_config self))) [].

(** The configuration used by the test suite ([mock_config] in
    [tests/test_inference_pipeline.py]), and a pipeline object over it with
    no detector loaded. *)
Definition mock_config : Config :=
  {| pipeline :=
       {| confidence_thresholds :=
            {| detection_min := 3 # 10; detection_nms := 45 # 100 |};
          roi := {| padding_ratio := Float (round64 (1 # 10));
                    min_area := 100;
                    max_aspect_ratio := 5 |};
          performance := {| enable_cache := Some true |} |};
     yolo := {| model := {| architecture := "yolov8n" |} |};
     ocr :=
       {| tesseract := {| config := "--psm 6 --oem 3" |};
          preprocessing :=
            {| denoise := Some true;
               contrast_enhancement := Some true;
               brightness_adjustment := Some true;
               min_height := Some 32;
               threshold_method := Some "adaptive"%string |};
          postprocessing :=
            {| remove_special_chars := Some true;
               known_patterns := Some [YStr (py "STOP"); YStr (py "YIELD")] |}
       |} |}.

Definition mock_pipeline : RoadSignInferencePipeline :=
  {| self_config := mock_config; yolo_model := None |}.

(** The test configuration with the removal of special characters off. *)
Definition plain_pipeline : RoadSignInferencePipeline :=
  with_postprocessing mock_pipeline
    {| remove_special_chars := Some false;
       known_patterns := Some [YStr (py "STOP"); YStr (py "YIELD")] |}.

(** A configuration whose only known pattern starts with a space. *)
Definition spaced_pipeline : RoadSignInferencePipeline :=
  with_postprocessing mock_pipeline
    {| remove_special_chars := None;
       known_patterns := Some [YStr (py " STOP")] |}.

(** *** Geometry *)

(** The rejection rule of the geometry validator, in the words of its
    description: a coordinate outside the image, an empty or inverted box,
    an area under the minimum, or an aspect ratio over the maximum, a zero
    height counting as an infinite ratio.  [over_ratio] says what "over the
    maximum" is. *)
Definition rejects (x1 y1 x2 y2 h w : Z) (min_area : Q) (over_ratio : Prop)
  : Prop :=
  (x1 < 0 \/ w < x1 \/ x2 < 0 \/ w < x2 \/
   y1 < 0 \/ h < y1 \/ y2 < 0 \/ h < y2)
  \/ x1 >= x2
  \/ y1 >= y2
  \/ (inject_Z ((x2 - x1) * (y2 - y1)) < min_area)%Q
  \/ (y2 - y1 = 0 \/ over_ratio).

(** The ratio of a width to a height, exact, and as the division of two
    ints gives it: the double nearest to the exact ratio. *)
Definition exact_ratio (width height : Z) : Q :=
  inject_Z width / inject_Z height.

Definition computed_ratio (width height : Z) : float :=
  round64 (exact_ratio width height).

(** An array of [h] rows of [w] pixels each. *)
Definition rows_of {A} (h w : Z) (rows : list (list A)) : bool :=
  ((len rows =? h) && forallb (fun r => len r =? w) rows)%bool.

Definition rectangular (a : ndarray) (h w : Z) : bool :=
  match a with
  | Color rows => rows_of h w rows
  | Gray rows => rows_of h w rows
  end.

(** Rows times columns of an array. *)
Definition area (a : ndarray) : Z := nth 0 (shape a) 0 * nth 1 (shape a) 0.

(** The box [extract_roi] cuts out of an image of [h] rows and [w] columns
    for a padding of [pad_w] columns and [pad_h] rows. *)
Definition padded (w h pad_w pad_h x1 y1 x2 y2 : Z) : Z * Z * Z * Z :=
  (Z.max 0 (x1 - pad_w), Z.max 0 (y1 - pad_h),
   Z.min w (x2 + pad_w), Z.min h (y2 + pad_h)).

(** The padding [extract_roi] computes for a side of [n] pixels,
    [int(n * padding_ratio)]; 0 where the computation raises. *)
Definition pad (n : Z) (padding_ratio : number) : Z :=
  match (p <- num_mul (Int n) padding_ratio ;; to_int p) with
  | Return p => p
  | Raise _ => 0
  end.

(** A padding ratio that is an int, or a float below [2 ^ 970]. *)
Definition moderate (padding_ratio : number) : bool :=
  match padding_ratio with
  | Int _ => true
  | Float (Finite q) => Qlt_bool q (2 ^ 970)
  | Float _ => false
  end.

(** A single-channel image of 3 rows and 4 columns. *)
Definition sample_image : ndarray :=
  Gray [[1; 2; 3; 4]; [5; 6; 7; 8]; [9; 10; 11; 12]].

(** *** Text *)

(** [s == t] on strings. *)
Fixpoint str_eqb (s t : str) : bool :=
  match s, t with
  | [], [] => true
  | a :: s', b :: t' => (ascii_eqb a b && str_eqb s' t')%bool
  | _, _ => false
  end.

(** A string without white space, and a word: such a string, not empty. *)
Definition spaceless (w : str) : Prop :=
  forallb (fun c => negb (isspace c)) w = true.

Definition word (w : str) : Prop := w <> [] /\ spaceless w.

(** The words of a string joined by single spaces. *)
Definition collapse (s : str) : str := join (py " ") (split s).

(** A known pattern written with single spaces between its words and none
    around them; entries that are not strings are never looked at. *)
Definition normal_pattern (y : yaml) : bool :=
  match y with
  | YStr p => str_eqb (collapse p) p
  | YOther => true
  end.

(** The engine table of a list of words with their confidences. *)
Definition table (words : list (str * Z)) : ocr_data :=
  {| data_text := map fst words; data_conf := map snd words |}.



(** The engine output of [test_recognize_text_success]. *)
Definition stop_data : ocr_data :=
  {| data_text := [py ""; py "STOP"; py ""]; data_conf := [0; 95; 0] |}.

(** The result [recognize_text] gives when it catches an exception. *)
Definition empty_result : OcrResult :=
  {| text := []; ocr_confidence := 0; raw_text := []; word_count := 0 |}.

(** *** Collaborators for examples *)

(** Collaborators for examples: an image library that hands its input
    back, a tracker that accepts everything, no detector weights, and a
    text engine given by [engine]. *)
Definition mock_cv2 : cv2_lib :=
  {| imread := fun _ => None;
     cvtColor_RGB2BGR := fun a => Return a;
     cvtColor_BGR2GRAY := fun a => Return a;
     fastNlMeansDenoising := fun a => Return a;
     CLAHE_apply := fun a => Return a;
     convertScaleAbs := fun a _ _ => Return a;
     resize_cubic := fun a _ => Return a;
     adaptiveThreshold := fun a => Return a;
     threshold_otsu := fun a => Return a |}.

Definition mock_mlflow : mlflow_lib :=
  {| set_experiment := fun _ => Return tt;
     start_run := fun _ => Return tt;
     log_metric := fun _ _ => Return tt |}.

Definition mock_env (engine : ndarray -> string -> result ocr_data) : Env :=
  {| cv2 := mock_cv2;
     pytesseract := {| get_tesseract_version := Return "5.3.0"%string;
                       image_to_data := engine |};
     mlflow := mock_mlflow;
     new_YOLO := fun _ => Raise (Exception "no weights");
     path_exists := fun _ => false;
     safe_load := fun _ => Return mock_config |}.

(** The collaborators [env] with another text engine. *)
Definition with_engine (env : Env)
    (engine : ndarray -> string -> result ocr_data) : Env :=
  {| cv2 := cv2 env;
     pytesseract :=
       {| get_tesseract_version := get_tesseract_version (pytesseract env);
          image_to_data := engine |};
     mlflow := mlflow env;
     new_YOLO := new_YOLO env;
     path_exists := path_exists env;
     safe_load := safe_load env |}.

(** A detector that finds one sign, and a pipeline object holding it. *)
Definition mock_yolo : YOLO :=
  {| call := fun _ _ _ =>
               Return [Some [{| xyxy := (1, 1, 11, 11)%Q;
                                conf := 9 # 10;
                                cls := 14 |}]];
     names := fun class_id => if class_id =? 14 then Some "stop"%string
                              else None |}.

Definition loaded_pipeline : RoadSignInferencePipeline :=
  {| self_config := mock_config; yolo_model := Some mock_yolo |}.

(** *** The orchestrator *)

(** What the [try] block of [InferencePipeline.predict_image] computes
    before the clock is read again: the image shape, the detections and the
    fused records. *)
Definition frame (env : Env) (self : RoadSignInferencePipeline)
    (image : image_input)
  : result (list Z * list Detection * list Prediction) :=
  img <- preprocess_image env image ;;
  detections <- detect_road_signs self img ;;
  results <- for_each detections (fun detection =>
    roi <- extract_roi self img (bbox detection) ;;
    roi_processed <- preprocess_roi_for_ocr env self roi ;;
    ocr_result <- recognize_text env self roi_processed ;;
    Return [{| detection := detection;
               ocr_ := ocr_result;
               has_text := 0 <? len (text ocr_result) |}]) ;;
  Return (shape img, detections, results).

(** Whether a call of the pipeline returned the error dictionary. *)
Definition has_error_result (r : result FrameResult) : bool :=
  match r with
  | Return r => has_error r
  | Raise _ => false
  end.

(** *** The service *)

(** The condition under which [process_uploaded_file] reads the upload. *)
Definition image_type (file_ : Main.UploadFile) : bool :=
  match Main.content_type file_ with
  | Some ct =>
      (negb (String.eqb ct "") && String.prefix "image/" ct)%bool
  | None => false
  end.





(** The [success] flag and the [request_id] of a batch entry. *)
Definition entry_success (e : Main.BatchEntry) : bool :=
  match e with
  | Main.Response r => Main.success r
  | Main.Failure success _ _ => success
  end.

Definition entry_request_id (e : Main.BatchEntry) : string :=
  match e with
  | Main.Response r => Main.request_id r
  | Main.Failure _ _ request_id => request_id
  end.

(** The identifier of the entry at index [i] of a batch. *)
Definition item_id (request_id : string) (i : nat) : string :=
  (request_id ++ "_" ++ str_int (Z.of_nat i))%string.

(** The check a record passes to enter a response model. *)
Definition valid_confidence (r : Prediction) : bool :=
  (Qle_bool 0 (confidence (detection r))
   && Qle_bool (confidence (detection r)) 1)%bool.

(** Whether an upload, taken alone, goes through: it is declared as an
    image, it decodes, the pipeline reports no error on it and its records
    pass the validation of the response model. *)
Definition upload_ok (env : Main.Env) (p : RoadSignInferencePipeline)
    (file_ : Main.UploadFile) : bool :=
  (image_type file_ &&
   match Main.decode env (Main.file file_) with
   | Return image =>
       match frame (Main.pipeline_env env) p (Array image) with
       | Return (_, _, results) => forallb valid_confidence results
       | Raise _ => false
       end
   | Raise _ => false
   end)%bool.

(** Collaborators of the service for examples: uploads that start with the
    byte 255 decode to a black image of 12 by 12 pixels, the others do not
    decode; the clock advances by one second per reading. *)
Definition mock_service : Main.Env :=
  {| Main.pipeline_env := mock_env (fun _ _ => Return stop_data);
     Main.decode := fun bytes =>
       match bytes with
       | 255 :: _ => Return (Color (repeat (repeat (0, 0, 0) 12) 12))
       | _ => Raise (Exception "cannot identify image file")
       end;
     Main.time_at := fun n => inject_Z (Z.of_nat n);
     Main.uuid_at := fun n => ("req" ++ str_int (Z.of_nat n))%string |}.

Definition jpeg : Main.UploadFile :=
  {| Main.content_type := Some "image/jpeg"%string;
     Main.file := [255; 216; 255; 224] |}.

Definition corrupted : Main.UploadFile :=
  {| Main.content_type := Some "image/jpeg"%string;
     Main.file := [99; 111; 114; 114] |}.

(** The service holding the pipeline object [p], before any request. *)
Definition serving (p : option RoadSignInferencePipeline) : Main.State :=
  {| Main.app_stats := Main.app_stats (Main.initial 0);
     Main.pipeline := p;
     Main.log := [];
     Main.ticks := 0 |}.


Definition started : Main.State :=
  fst (Main.startup_event mock_service (Main.initial 0)).

(** *** Further vocabulary *)

(** The collaborators [env] with another experiment tracker. *)
Definition with_mlflow (env : Env) (tracker : mlflow_lib) : Env :=
  {| cv2 := cv2 env;
     pytesseract := pytesseract env;
     mlflow := tracker;
     new_YOLO := new_YOLO env;
     path_exists := path_exists env;
     safe_load := safe_load env |}.

(** The weights [load_models] asks for: the given path when it is not
    empty and exists, the default architecture otherwise. *)
Definition weights (env : Env) (self : RoadSignInferencePipeline)
    (yolo_model_path : option string) : string :=
  match yolo_model_path with
  | Some p =>
      if (negb (String.eqb p "") && path_exists env p)%bool then p
      else (architecture (model (yolo_config self)) ++ ".pt")%string
  | None => (architecture (model (yolo_config self)) ++ ".pt")%string
  end.

(** All boxes of a detector output, in the order they are visited. *)
Definition all_boxes (results : list (option (list Box))) : list Box :=
  flat_map (fun boxes => match boxes with
                         | Some boxes => boxes
                         | None => []
                         end) results.

(** Whether [_validate_detection] accepts a box in an image of the given
    shape. *)
Definition accepted (self : RoadSignInferencePipeline) (image_shape : list Z)
    (box : Box) : bool :=
  let '(x1, y1, x2, y2) := xyxy box in
  match _validate_detection self (Float (Finite x1)) (Float (Finite y1))
          (Float (Finite x2)) (Float (Finite y2)) image_shape with
  | Return ok => ok
  | Raise _ => false
  end.

(** The dictionary [detect_road_signs] builds for a box. *)
Definition detection_of (yolo_model : YOLO) (box : Box) : Detection :=
  let '(x1, y1, x2, y2) := xyxy box in
  {| bbox := (int x1, int y1, int x2, int y2);
     confidence := conf box;
     class_id := int (cls box);
     class_name := get (names yolo_model (int (cls box)))
                       ("class_" ++ str_int (int (cls box)))%string |}.

(** A box with ordered corners inside an image of [h] rows and [w]
    columns. *)
Definition inside (h w : Z) (bbox : Z * Z * Z * Z) : bool :=
  let '(x1, y1, x2, y2) := bbox in
  ((0 <=? x1) && (x1 <=? x2) && (x2 <=? w)
   && (0 <=? y1) && (y1 <=? y2) && (y2 <=? h))%bool.

(** The number of rows and of columns of an array. *)
Definition height (a : ndarray) : Z := nth 0 (shape a) 0.
Definition width (a : ndarray) : Z := nth 1 (shape a) 0.

(** The image the example uploads decode to, and the detector output of
    [mock_yolo]. *)
Definition black_image : ndarray := Color (repeat (repeat (0, 0, 0) 12) 12).

Definition sign_boxes : list (option (list Box)) :=
  [Some [{| xyxy := (1, 1, 11, 11)%Q; conf := 9 # 10; cls := 14 |}]].

(** An engine table of four entries: a padded word, an empty one, a word,
    and one the engine gives no confidence to. *)
Definition stop_ahead : list (str * Z) :=
  [(py " STOP ", 95); (py "", 0); (py "AHEAD", 85); (py "x", -1)].

(** Whether the pipeline, called on an upload taken alone, returns a result
    without error: the upload is declared as an image, it decodes, and the
    processing of the image does not raise. *)
Definition pipeline_ok (env : Main.Env) (p : RoadSignInferencePipeline)
    (file_ : Main.UploadFile) : bool :=
  (image_type file_ &&
   match Main.decode env (Main.file file_) with
   | Return image =>
       match frame (Main.pipeline_env env) p (Array image) with
       | Return _ => true
       | Raise _ => false
       end
   | Raise _ => false
   end)%bool.

(** The requests a running service answers, and a run of them. *)
Inductive request : Type :=
| GET_health
| GET_metrics
| POST_predict (file_ : Main.UploadFile)
| POST_predict_batch (files : list Main.UploadFile).

Definition answer (env : Main.Env) (r : request) (st : Main.State)
  : Main.State :=
  match r with
  | GET_health => fst (Main.health_check env st)
  | GET_metrics => fst (Main.get_metrics env st)
  | POST_predict file_ => fst (Main.predict_image env file_ st)
  | POST_predict_batch files => fst (Main.predict_batch env files st)
  end.

Definition serve (env : Main.Env) (requests : list request) (st : Main.State)
  : Main.State :=
  fold_left (fun st r => answer env r st) requests st.

(** What a request may do to the state: the counters do not decrease, the
    start time and the pipeline object stay, the log and the number of draws
    only grow. *)
Definition grows (st st' : Main.State) : Prop :=
  Main.start_time (Main.app_stats st') = Main.start_time (Main.app_stats st)
  /\ Main.total_predictions (Main.app_stats st)
     <= Main.total_predictions (Main.app_stats st')
  /\ Main.total_detections (Main.app_stats st)
     <= Main.total_detections (Main.app_stats st')
  /\ Main.pipeline st' = Main.pipeline st
  /\ (exists records, Main.log st' = Main.log st ++ records)
  /\ (Main.ticks st <= Main.ticks st')%nat.

(** A handler that lets the state grow and whose value, when it returns
    one, satisfies [P]. *)
Definition sound {A} (P : A -> Prop) (m : Main.M A) : Prop :=
  forall st,
    grows st (fst (m st))
    /\ forall a, snd (m st) = Return a -> P a.

(** Whether an upload is declared as an image and decodes. *)
Definition readable (env : Main.Env) (file_ : Main.UploadFile) : bool :=
  (image_type file_ &&
   match Main.decode env (Main.file file_) with
   | Return _ => true
   | Raise _ => false
   end)%bool.

(** * Properties *)

Unset Implicit Arguments.

(** *** Powers of two and rounding to a double *)

Section Rounding.

Local Open Scope Q_scope.

Lemma pow2_pos (e : Z) : 0 < 2 ^ e.
Proof. apply Qpower_0_lt. reflexivity. Qed.

Lemma pow2_plus (a b : Z) : 2 ^ (a + b) == 2 ^ a * 2 ^ b.
Proof. apply Qpower_plus. discriminate. Qed.

Lemma pow2_succ (a : Z) : 2 ^ (a + 1) == 2 * 2 ^ a.
Proof. rewrite pow2_plus. change (2 ^ 1) with 2. ring. Qed.

Lemma pow2_le (a b : Z) : (a <= b)%Z -> 2 ^ a <= 2 ^ b.
Proof. intros H. apply Qpower_le_compat_l; [assumption | discriminate]. Qed.

Lemma pow2_lt (a b : Z) : (a < b)%Z -> 2 ^ a < 2 ^ b.
Proof. intros H. apply Qpower_lt_compat_l; [assumption | reflexivity]. Qed.

Lemma pow2_lt_inv (a b : Z) : 2 ^ a < 2 ^ b -> (a < b)%Z.
Proof. intros H. apply Qpower_lt_compat_l_inv with 2; [assumption | reflexivity]. Qed.

Lemma pow2_Z (n : Z) : (0 <= n)%Z -> 2 ^ n == inject_Z (2 ^ n).
Proof. intros H. rewrite Zpower_Qpower by assumption. reflexivity. Qed.

Lemma ilog2_spec (q : Q) : 0 < q -> 2 ^ ilog2 q <= q /\ q < 2 ^ (ilog2 q + 1).
Proof.
  intros Hq. unfold ilog2.
  destruct q as [n d]. cbn [Qnum Qden].
  assert (Hn : (0 < n)%Z) by (unfold Qlt in Hq; simpl in Hq; lia).
  destruct (Z.log2_spec n Hn) as [Ha1 Ha2].
  destruct (Z.log2_spec (Z.pos d) eq_refl) as [Hb1 Hb2].
  pose proof (Z.log2_nonneg n) as Ha0.
  pose proof (Z.log2_nonneg (Z.pos d)) as Hb0.
  set (a := Z.log2 n) in *. set (b := Z.log2 (Z.pos d)) in *.
  assert (Hq' : n # d == inject_Z n / inject_Z (Z.pos d)) by apply Qmake_Qdiv.
  assert (Hd : 0 < inject_Z (Z.pos d)) by reflexivity.
  assert (HA : 2 ^ a <= inject_Z n).
  { rewrite pow2_Z by lia. rewrite <- Zle_Qle. assumption. }
  assert (HA' : inject_Z n < 2 * 2 ^ a).
  { rewrite <- pow2_succ, pow2_Z by lia. rewrite <- Zlt_Qlt.
    replace (a + 1)%Z with (Z.succ a) by lia. assumption. }
  assert (HB : 2 ^ b <= inject_Z (Z.pos d)).
  { rewrite pow2_Z by lia. rewrite <- Zle_Qle. assumption. }
  assert (HB' : inject_Z (Z.pos d) < 2 * 2 ^ b).
  { rewrite <- pow2_succ, pow2_Z by lia. rewrite <- Zlt_Qlt.
    replace (b + 1)%Z with (Z.succ b) by lia. assumption. }
  pose proof (pow2_pos a) as Pa. pose proof (pow2_pos b) as Pb.
  assert (Hx : 2 ^ (a - b) * 2 ^ b == 2 ^ a).
  { rewrite <- pow2_plus. replace (a - b + b)%Z with a by lia. reflexivity. }
  pose proof (pow2_pos (a - b)) as Px.
  assert (Hlo : 2 ^ (a - b - 1) <= n # d).
  { rewrite Hq'. apply Qle_shift_div_l; [assumption|].
    assert (Hy : 2 * 2 ^ (a - b - 1) == 2 ^ (a - b)).
    { rewrite <- pow2_succ. replace (a - b - 1 + 1)%Z with (a - b)%Z by lia.
      reflexivity. }
    pose proof (pow2_pos (a - b - 1)) as Py.
    set (x := 2 ^ (a - b)) in *. set (y := 2 ^ (a - b - 1)) in *.
    set (A := 2 ^ a) in *. set (B := 2 ^ b) in *.
    set (N := inject_Z n) in *. set (D := inject_Z (Z.pos d)) in *.
    nra. }
  assert (Hhi : n # d < 2 ^ (a - b + 1)).
  { rewrite Hq'. apply Qlt_shift_div_r; [assumption|].
    rewrite pow2_succ.
    set (x := 2 ^ (a - b)) in *.
    set (A := 2 ^ a) in *. set (B := 2 ^ b) in *.
    set (N := inject_Z n) in *. set (D := inject_Z (Z.pos d)) in *.
    nra. }
  destruct (Qle_bool (2 ^ (a - b)) (n # d)) eqn:E.
  - apply Qle_bool_iff in E. split; assumption.
  - split; [assumption|].
    replace (a - b - 1 + 1)%Z with (a - b)%Z by lia.
    apply Qnot_le_lt. intros H. apply Qle_bool_iff in H. congruence.
Qed.

Lemma ilog2_le (q : Q) (e : Z) : 0 < q -> q < 2 ^ e -> (ilog2 q < e)%Z.
Proof.
  intros Hq H. destruct (ilog2_spec q Hq) as [H1 _].
  apply pow2_lt_inv. eapply Qle_lt_trans; eassumption.
Qed.

Lemma ilog2_ge (q : Q) (e : Z) : 0 < q -> 2 ^ e <= q -> (e <= ilog2 q)%Z.
Proof.
  intros Hq H. destruct (ilog2_spec q Hq) as [_ H2].
  assert (e < ilog2 q + 1)%Z; [|lia].
  apply pow2_lt_inv. eapply Qle_lt_trans; eassumption.
Qed.

Lemma ilog2_mono (p q : Q) : 0 < p -> p <= q -> (ilog2 p <= ilog2 q)%Z.
Proof.
  intros Hp H. apply ilog2_ge; [eapply Qlt_le_trans; eassumption|].
  destruct (ilog2_spec p Hp) as [H1 _]. eapply Qle_trans; eassumption.
Qed.

Lemma rhe_cases (x : Q) :
  (round_half_even x = Qfloor x /\ x - inject_Z (Qfloor x) <= 1 # 2)
  \/ (round_half_even x = (Qfloor x + 1)%Z /\ 1 # 2 <= x - inject_Z (Qfloor x)).
Proof.
  unfold round_half_even.
  destruct (Qcompare_spec (x - inject_Z (Qfloor x)) (1 # 2)) as [H|H|H].
  - destruct (Z.even (Qfloor x)); [left | right]; split; trivial;
      rewrite H; apply Qle_refl.
  - left. split; [reflexivity | apply Qlt_le_weak; assumption].
  - right. split; [reflexivity | apply Qlt_le_weak; assumption].
Qed.

Lemma Qfloor_bounds (x : Q) :
  inject_Z (Qfloor x) <= x /\ x < inject_Z (Qfloor x) + 1.
Proof.
  split; [apply Qfloor_le|].
  pose proof (Qlt_floor x) as H. rewrite inject_Z_plus in H. exact H.
Qed.

Lemma rhe_bounds (x : Q) :
  x - (1 # 2) <= inject_Z (round_half_even x)
  /\ inject_Z (round_half_even x) <= x + (1 # 2).
Proof.
  destruct (Qfloor_bounds x) as [H1 H2].
  destruct (rhe_cases x) as [[E H]|[E H]]; rewrite E;
    [|rewrite inject_Z_plus; change (inject_Z 1) with 1]; split; lra.
Qed.

Lemma rhe_mono (x y : Q) : x <= y -> (round_half_even x <= round_half_even y)%Z.
Proof.
  intros Hxy. pose proof (Qfloor_resp_le _ _ Hxy) as Hf.
  destruct (Z.eq_dec (Qfloor x) (Qfloor y)) as [E|N].
  - unfold round_half_even. rewrite <- E.
    destruct (Qcompare_spec (x - inject_Z (Qfloor x)) (1 # 2)) as [H|H|H];
      destruct (Qcompare_spec (y - inject_Z (Qfloor x)) (1 # 2))
        as [H'|H'|H'];
      try lia; try (destruct (Z.even (Qfloor x)); lia);
      exfalso; lra.
  - destruct (rhe_cases x) as [[Ex _]|[Ex _]];
      destruct (rhe_cases y) as [[Ey _]|[Ey _]]; lia.
Qed.

Lemma rhe_Z (x : Q) (n : Z) : x == inject_Z n -> round_half_even x = n.
Proof.
  intros H. unfold round_half_even.
  assert (Hf : Qfloor x = n) by (rewrite H; apply Qfloor_Z).
  rewrite Hf.
  destruct (Qcompare_spec (x - inject_Z n) (1 # 2)) as [H'|H'|H'];
    try reflexivity; exfalso; lra.
Qed.

Lemma rhe_above (x : Q) (k : Z) :
  inject_Z k + (1 # 2) < x -> (k < round_half_even x)%Z.
Proof.
  intros H. destruct (rhe_bounds x) as [H1 _].
  rewrite Zlt_Qlt. lra.
Qed.

(** Rounding to a double *)
Lemma nearest_eq (q : Q) :
  nearest q == inject_Z (round_half_even (q / 2 ^ expo q)) * 2 ^ expo q.
Proof. unfold nearest. apply Qred_correct. Qed.

Lemma scaled_lt (q : Q) : 0 < q -> q / 2 ^ expo q < 2 ^ 53.
Proof.
  intros Hq. apply Qlt_shift_div_r; [apply pow2_pos|].
  rewrite <- pow2_plus.
  destruct (ilog2_spec q Hq) as [_ H].
  eapply Qlt_le_trans; [exact H|]. apply pow2_le. unfold expo. lia.
Qed.

Lemma scaled_ge (q : Q) :
  0 < q -> (-1074 <= ilog2 q - 52)%Z -> 2 ^ 52 <= q / 2 ^ expo q.
Proof.
  intros Hq He. apply Qle_shift_div_l; [apply pow2_pos|].
  rewrite <- pow2_plus.
  destruct (ilog2_spec q Hq) as [H _].
  eapply Qle_trans; [|exact H]. apply pow2_le. unfold expo. lia.
Qed.

Lemma nearest_nonneg (q : Q) : 0 < q -> 0 <= nearest q.
Proof.
  intros Hq. rewrite nearest_eq.
  apply Qmult_le_0_compat; [|apply Qlt_le_weak, pow2_pos].
  change 0 with (inject_Z 0). rewrite <- Zle_Qle.
  rewrite <- (rhe_Z 0 0) by reflexivity. apply rhe_mono.
  apply Qlt_le_weak. apply Qlt_shift_div_l; [apply pow2_pos|]. lra.
Qed.

Lemma nearest_le_pow (q : Q) : 0 < q -> nearest q <= 2 ^ (expo q + 53).
Proof.
  intros Hq. rewrite nearest_eq, pow2_plus, (Qmult_comm (2 ^ expo q)).
  apply Qmult_le_compat_r; [|apply Qlt_le_weak, pow2_pos].
  rewrite (pow2_Z 53) by lia. rewrite <- Zle_Qle.
  rewrite <- (rhe_Z (2 ^ 53) (2 ^ 53)%Z) by (apply pow2_Z; lia).
  apply rhe_mono. apply Qlt_le_weak, scaled_lt. assumption.
Qed.

Lemma nearest_ge_pow (q : Q) :
  0 < q -> (-1074 <= ilog2 q - 52)%Z -> 2 ^ (expo q + 52) <= nearest q.
Proof.
  intros Hq He. rewrite nearest_eq, pow2_plus, (Qmult_comm (2 ^ expo q)).
  apply Qmult_le_compat_r; [|apply Qlt_le_weak, pow2_pos].
  rewrite (pow2_Z 52) by lia. rewrite <- Zle_Qle.
  rewrite <- (rhe_Z (2 ^ 52) (2 ^ 52)%Z) by (apply pow2_Z; lia).
  apply rhe_mono. apply scaled_ge; assumption.
Qed.

Lemma nearest_mono (p q : Q) : 0 < p -> p <= q -> nearest p <= nearest q.
Proof.
  intros Hp Hpq.
  assert (Hq : 0 < q) by (eapply Qlt_le_trans; eassumption).
  pose proof (ilog2_mono p q Hp Hpq) as Hl.
  destruct (Z.eq_dec (expo p) (expo q)) as [E|N].
  - rewrite !nearest_eq, E.
    apply Qmult_le_compat_r; [|apply Qlt_le_weak, pow2_pos].
    rewrite <- Zle_Qle. apply rhe_mono.
    apply Qmult_le_compat_r; [assumption|].
    apply Qlt_le_weak, Qinv_lt_0_compat, pow2_pos.
  - assert (Hlt : (expo p < expo q)%Z) by (unfold expo in *; lia).
    apply Qle_trans with (2 ^ (expo p + 53)); [apply nearest_le_pow, Hp|].
    apply Qle_trans with (2 ^ (expo q + 52));
      [apply pow2_le; lia | apply nearest_ge_pow; [assumption|]].
    unfold expo in *. lia.
Qed.

Lemma nearest_exact (q : Q) (k : Z) :
  q == inject_Z k * 2 ^ expo q -> nearest q == q.
Proof.
  intros H. rewrite nearest_eq.
  rewrite (rhe_Z _ k); [symmetry; exact H|].
  pose proof (pow2_pos (expo q)) as P.
  apply Qmult_inj_r with (2 ^ expo q); [lra|].
  unfold Qdiv. rewrite <- Qmult_assoc, (Qmult_comm (/ _)), Qmult_inv_r by lra.
  rewrite Qmult_1_r. exact H.
Qed.

Lemma ilog2_Z (n : Z) (e : Z) :
  (0 < n)%Z -> (n < 2 ^ e)%Z -> (0 <= e)%Z -> (ilog2 (inject_Z n) < e)%Z.
Proof.
  intros Hn H He. apply ilog2_le.
  - change 0 with (inject_Z 0). rewrite <- Zlt_Qlt. assumption.
  - rewrite pow2_Z by assumption. rewrite <- Zlt_Qlt. assumption.
Qed.

Lemma nearest_Z (n : Z) :
  (0 < n)%Z -> (n < 2 ^ 53)%Z -> nearest (inject_Z n) == inject_Z n.
Proof.
  intros Hn H.
  pose proof (ilog2_Z n 53 Hn H ltac:(lia)) as Hl.
  assert (He : (expo (inject_Z n) <= 0)%Z) by (unfold expo; lia).
  apply nearest_exact with (n * 2 ^ (- expo (inject_Z n)))%Z.
  rewrite inject_Z_mult, <- pow2_Z by lia.
  rewrite <- Qmult_assoc, <- pow2_plus.
  replace (- expo (inject_Z n) + expo (inject_Z n))%Z with 0%Z by lia.
  change (2 ^ 0) with 1. ring.
Qed.

Lemma nearest_lt_max (q : Q) : 0 < q -> q < 2 ^ 1023 -> nearest q < 2 ^ 1024.
Proof.
  intros Hq H. eapply Qle_lt_trans; [apply nearest_le_pow, Hq|].
  apply pow2_lt. pose proof (ilog2_le q 1023 Hq H). unfold expo. lia.
Qed.

Lemma round64_finite (q : Q) :
  0 <= q -> q < 2 ^ 1023 ->
  exists r, round64 q = Finite r /\ 0 <= r
            /\ (0 < q -> r == nearest q).
Proof.
  intros H0 H. unfold round64.
  destruct (Qcompare_spec q 0) as [E|E|E].
  - exists 0. split; [reflexivity|]. split; [apply Qle_refl|]. lra.
  - exfalso. lra.
  - destruct (Qle_bool (2 ^ 1024) (nearest q)) eqn:B.
    + apply Qle_bool_iff in B. pose proof (nearest_lt_max q E H). lra.
    + exists (nearest q). split; [reflexivity|].
      split; [apply nearest_nonneg, E | reflexivity].
Qed.

Lemma round64_mono (p q a b : Q) :
  0 <= p -> p <= q -> round64 p = Finite a -> round64 q = Finite b -> a <= b.
Proof.
  intros H0 Hpq. unfold round64.
  destruct (Qcompare_spec p 0) as [Ep|Ep|Ep]; [|exfalso; lra|];
    (destruct (Qcompare_spec q 0) as [Eq|Eq|Eq]; [|exfalso; lra|]).
  - intros Ha Hb. injection Ha as <-. injection Hb as <-. apply Qle_refl.
  - intros Ha. injection Ha as <-.
    destruct (Qle_bool _ _); [discriminate|].
    intros Hb. injection Hb as <-. apply nearest_nonneg, Eq.
  - exfalso. lra.
  - destruct (Qle_bool _ (nearest p)); [discriminate|].
    destruct (Qle_bool _ (nearest q)); [discriminate|].
    intros Ha Hb. injection Ha as <-. injection Hb as <-.
    apply nearest_mono; assumption.
Qed.


Lemma inject_Z_pos (n : Z) : (0 < n)%Z -> 0 < inject_Z n.
Proof. intros H. change 0 with (inject_Z 0). rewrite <- Zlt_Qlt. assumption. Qed.

Lemma ratio_exceeds (w h M : Z) :
  (0 < w)%Z -> (w < 2 ^ 53)%Z -> (0 < h)%Z -> (h < 2 ^ 53)%Z ->
  exists r,
    round64 (inject_Z w / inject_Z h) = Finite r
    /\ (inject_Z M < r <-> (M * h < w)%Z).
Proof.
  intros Hw Hw' Hh Hh'.
  pose proof (inject_Z_pos w Hw) as Pw. pose proof (inject_Z_pos h Hh) as Ph.
  set (q := inject_Z w / inject_Z h).
  assert (Hqh : q * inject_Z h == inject_Z w).
  { unfold q. field. lra. }
  assert (Hq : 0 < q) by (apply Qlt_shift_div_l; lra).
  assert (H1 : 1 <= inject_Z h)
    by (change 1 with (inject_Z 1); rewrite <- Zle_Qle; lia).
  assert (Hw53 : inject_Z w < 2 ^ 53).
  { rewrite pow2_Z by lia. rewrite <- Zlt_Qlt. assumption. }
  assert (Hh53 : inject_Z h < 2 ^ 53).
  { rewrite pow2_Z by lia. rewrite <- Zlt_Qlt. assumption. }
  assert (Hqw : q <= inject_Z w) by nra.
  assert (Hq53 : q < 2 ^ 53) by lra.
  assert (Hm : q < 2 ^ 1023).
  { eapply Qlt_trans; [exact Hq53 | apply pow2_lt; lia]. }
  destruct (round64_finite q (Qlt_le_weak _ _ Hq) Hm) as [r [E [Hr0 Hr]]].
  specialize (Hr Hq). exists r. split; [exact E|]. rewrite Hr. clear E Hr r Hr0.
  split.
  - intros H. destruct (Z_lt_le_dec (M * h) w) as [L|L]; [exact L|exfalso].
    assert (HqM : q <= inject_Z M).
    { rewrite Zle_Qle, inject_Z_mult in L. nra. }
    assert (HM : (0 < M)%Z) by (rewrite Zlt_Qlt; change (inject_Z 0) with 0; lra).
    set (N := Z.min M w).
    assert (HN : nearest (inject_Z N) == inject_Z N)
      by (apply nearest_Z; unfold N; lia).
    assert (HqN : q <= inject_Z N).
    { unfold N. destruct (Z.min_spec M w) as [[_ ->]|[_ ->]]; assumption. }
    pose proof (nearest_mono q (inject_Z N) Hq HqN) as Hn.
    assert (inject_Z N <= inject_Z M) by (rewrite <- Zle_Qle; unfold N; lia).
    lra.
  - intros L. destruct (Z_lt_le_dec M 0) as [Mneg|Mpos].
    { pose proof (nearest_nonneg q Hq).
      assert (inject_Z M < 0) by (change 0 with (inject_Z 0); rewrite <- Zlt_Qlt; lia).
      lra. }
    assert (Hg : inject_Z M * inject_Z h + 1 <= inject_Z w).
    { rewrite <- inject_Z_mult. change 1 with (inject_Z 1).
      rewrite <- inject_Z_plus, <- Zle_Qle. lia. }
    assert (Hl1 : (ilog2 q < 53)%Z) by (apply ilog2_le; assumption).
    assert (Hl2 : (-53 <= ilog2 q)%Z).
    { apply ilog2_ge; [assumption|].
      apply Qle_trans with (/ inject_Z h).
      - rewrite <- (Qmult_1_l (/ inject_Z h)). apply Qle_shift_div_l; [lra|].
        replace (-53)%Z with (- (53))%Z by lia. rewrite Qpower_opp.
        pose proof (pow2_pos 53) as P53.
        rewrite Qmult_comm. apply Qle_shift_div_r; [lra|]. lra.
      - unfold q. unfold Qdiv. rewrite <- (Qmult_1_l (/ inject_Z h)) at 1.
        apply Qmult_le_compat_r;
          [change 1 with (inject_Z 1); rewrite <- Zle_Qle; lia|].
        apply Qlt_le_weak, Qinv_lt_0_compat. lra. }
    assert (He : expo q = (ilog2 q - 52)%Z) by (unfold expo; lia).
    pose proof (pow2_pos (expo q)) as PE.
    assert (HE : 2 ^ 52 * 2 ^ expo q <= q).
    { rewrite <- pow2_plus, He. replace (52 + (ilog2 q - 52))%Z with (ilog2 q) by lia.
      apply ilog2_spec, Hq. }
    rewrite nearest_eq.
    set (K := (M * 2 ^ (- expo q))%Z).
    assert (HK : inject_Z K * 2 ^ expo q == inject_Z M).
    { unfold K. rewrite inject_Z_mult, <- pow2_Z by lia.
      rewrite <- Qmult_assoc, <- pow2_plus.
      replace (- expo q + expo q)%Z with 0%Z by lia. change (2 ^ 0) with 1. ring. }
    rewrite <- HK.
    apply Qmult_lt_compat_r; [exact PE|].
    rewrite <- Zlt_Qlt. apply rhe_above.
    apply Qlt_shift_div_l; [exact PE|].
    rewrite Qmult_plus_distr_l, HK.
    assert (H52 : 2 ^ 52 == 4503599627370496) by reflexivity.
    assert (H53 : 2 ^ 53 == 9007199254740992) by reflexivity.
    set (E := 2 ^ expo q) in *. set (W := inject_Z w) in *.
    set (H := inject_Z h) in *. set (Mq := inject_Z M) in *.
    rewrite H52 in HE. rewrite H53 in Hw53.
    assert (HEh : E * H < 2) by nra.
    apply Qmult_lt_r with H; [exact Ph|]. nra.
Qed.

Lemma round64_pos (q : Q) :
  0 < q -> q < 2 ^ 1023 -> round64 q = Finite (nearest q).
Proof.
  intros Hq H. unfold round64.
  rewrite (proj1 (Qgt_alt q 0) Hq).
  destruct (Qle_bool (2 ^ 1024) (nearest q)) eqn:B; [|reflexivity].
  apply Qle_bool_iff in B. pose proof (nearest_lt_max q Hq H). lra.
Qed.


Lemma to_float_exact (n : Z) :
  (0 < n)%Z -> (n < 2 ^ 53)%Z ->
  to_float n = Return (Finite (nearest (inject_Z n)))
  /\ nearest (inject_Z n) == inject_Z n.
Proof.
  intros Hn H. unfold to_float.
  rewrite round64_pos.
  - split; [reflexivity | apply nearest_Z; assumption].
  - apply inject_Z_pos. assumption.
  - apply Qlt_trans with (2 ^ 53); [|apply pow2_lt; lia].
    rewrite pow2_Z by lia. rewrite <- Zlt_Qlt. assumption.
Qed.

(** The rounding on some values whose doubles are known: 0.1; an odd
    integer above [2 ^ 53], a tie that goes to the even neighbour; the
    first value that is no longer finite; half the least subnormal, a tie
    that goes to zero. *)
Example round64_values :
  round64 (1 # 10) = Finite (3602879701896397 # 36028797018963968)
  /\ round64 (inject_Z (2 ^ 53 + 1)) = Finite (inject_Z (2 ^ 53))
  /\ round64 (inject_Z (2 ^ 53 + 3)) = Finite (inject_Z (2 ^ 53 + 4))
  /\ round64 (inject_Z (2 ^ 1024 - 2 ^ 970)) = inf
  /\ round64 (inject_Z (2 ^ 1024 - 2 ^ 970 - 1))
     = Finite (inject_Z (2 ^ 1024 - 2 ^ 971))
  /\ round64 (1 # 2 ^ 1075) = Finite 0
  /\ round64 (3 # 2 ^ 1075) = Finite (1 # 2 ^ 1073).
Proof. repeat split; vm_compute; reflexivity. Qed.

End Rounding.

(** *** The geometry validator *)

Lemma Qlt_bool_true (a b : Q) : Qlt_bool a b = true <-> (a < b)%Q.
Proof.
  unfold Qlt_bool. rewrite negb_true_iff.
  split; intro H.
  - apply Qnot_le_lt. intro L. apply Qle_bool_iff in L. congruence.
  - destruct (Qle_bool b a) eqn:E; [|reflexivity].
    apply Qle_bool_iff in E. exfalso. exact (Qlt_not_le _ _ H E).
Qed.

Lemma Qlt_bool_false (a b : Q) : Qlt_bool a b = false <-> (b <= a)%Q.
Proof.
  unfold Qlt_bool. rewrite negb_false_iff. apply Qle_bool_iff.
Qed.

Lemma Qle_bool_false (a b : Q) : Qle_bool a b = false <-> (b < a)%Q.
Proof.
  rewrite <- Qlt_bool_true. unfold Qlt_bool.
  destruct (Qle_bool a b); simpl; intuition congruence.
Qed.

Lemma inject_Z_sub (a b : Z) : (inject_Z a - inject_Z b == inject_Z (a - b))%Q.
Proof.
  unfold Z.sub. rewrite inject_Z_plus, inject_Z_opp. reflexivity.
Qed.

Lemma inject_Z_lt0 (a : Z) : (inject_Z a < 0)%Q <-> a < 0.
Proof. rewrite (Zlt_Qlt a 0). reflexivity. Qed.

Lemma ratio_above_iff (w h M : Z) :
  0 < h -> (inject_Z M < exact_ratio w h)%Q <-> M * h < w.
Proof.
  intros Hh. unfold exact_ratio.
  assert (Ph : (0 < inject_Z h)%Q) by (apply inject_Z_pos; assumption).
  rewrite (Zlt_Qlt (M * h) w), inject_Z_mult.
  assert (E : (inject_Z w / inject_Z h * inject_Z h == inject_Z w)%Q)
    by (field; lra).
  set (q := (inject_Z w / inject_Z h)%Q) in *.
  split; intros H; nra.
Qed.

Ltac rejected :=
  exists false; split; [reflexivity|];
  split; [split; [intros _ | reflexivity]
         | intros M HM; split; [intros _ | reflexivity]].

(** C2, as amended.  On integer coordinates and the shape [(h, w, c)] of an
    image with less than [2 ^ 53] rows and columns, [_validate_detection]
    returns a boolean and does not raise.  It returns false exactly when
    the box is rejected by the rule of [rejects]: a coordinate outside the
    image, [x1 >= x2], [y1 >= y2], an area below [min_area], or a width
    over height above [max_aspect_ratio], where the ratio is the one the
    division computes, the double nearest to the exact ratio.  When
    [max_aspect_ratio] is a whole number this is the rule on the exact
    ratio.  The box (50, 50, 350, 100) in an image of 200 rows and 300
    columns is rejected when [max_aspect_ratio] is 5. *)
Theorem validate_detection_spec :
  forall (self : RoadSignInferencePipeline) (x1 y1 x2 y2 h w c : Z),
    h < 2 ^ 53 -> w < 2 ^ 53 ->
    (exists b : bool,
        _validate_detection self (Int x1) (Int y1) (Int x2) (Int y2)
          [h; w; c] = Return b
        /\ (b = false <->
            rejects x1 y1 x2 y2 h w
              (min_area (roi (pipeline_config self)))
              (flt (Finite (max_aspect_ratio (roi (pipeline_config self))))
                   (computed_ratio (x2 - x1) (y2 - y1)) = true))
        /\ (forall M : Z,
              (max_aspect_ratio (roi (pipeline_config self)) == inject_Z M)%Q ->
              (b = false <->
               rejects x1 y1 x2 y2 h w
                 (min_area (roi (pipeline_config self)))
                 (max_aspect_ratio (roi (pipeline_config self))
                  < exact_ratio (x2 - x1) (y2 - y1))%Q)))
    /\ (forall padding min_a,
          _validate_detection
            (with_roi self {| padding_ratio := padding; min_area := min_a;
                              max_aspect_ratio := 5 |})
            (Int 50) (Int 50) (Int 350) (Int 100) [200; 300; c]
          = Return false).
Proof.
  intros self x1 y1 x2 y2 h w c Hh53 Hw53. split.
  2:{ intros. reflexivity. }
  unfold _validate_detection, rejects.
  change (slice [h; w; c] 0 2) with [h; w].
  set (ma := min_area _). set (mr := max_aspect_ratio _).
  unfold num_lt, num_gt, num_ge, num_le, num_lt. cbn [exact flt fle].
  destruct (Qlt_bool (inject_Z x1) (inject_Z 0)) eqn:E1.
  { apply Qlt_bool_true in E1. rewrite <- Zlt_Qlt in E1. rejected; lia. }
  destruct (Qlt_bool (inject_Z y1) (inject_Z 0)) eqn:E2.
  { apply Qlt_bool_true in E2. rewrite <- Zlt_Qlt in E2. rejected; lia. }
  destruct (Qlt_bool (inject_Z w) (inject_Z x2)) eqn:E3.
  { apply Qlt_bool_true in E3. rewrite <- Zlt_Qlt in E3. rejected; lia. }
  destruct (Qlt_bool (inject_Z h) (inject_Z y2)) eqn:E4.
  { apply Qlt_bool_true in E4. rewrite <- Zlt_Qlt in E4. rejected; lia. }
  destruct (Qle_bool (inject_Z x2) (inject_Z x1)) eqn:E5.
  { apply Qle_bool_iff in E5. rewrite <- Zle_Qle in E5. rejected; lia. }
  destruct (Qle_bool (inject_Z y2) (inject_Z y1)) eqn:E6.
  { apply Qle_bool_iff in E6. rewrite <- Zle_Qle in E6. rejected; lia. }
  apply Qlt_bool_false in E1, E2, E3, E4.
  rewrite <- Zle_Qle in E1, E2, E3, E4.
  apply Qle_bool_false in E5, E6. rewrite <- Zlt_Qlt in E5, E6.
  cbn [orb num_sub num_mul bind]. cbn [exact flt].
  destruct (Qlt_bool (inject_Z ((x2 - x1) * (y2 - y1))) ma) eqn:E7.
  { apply Qlt_bool_true in E7. rejected; tauto. }
  apply Qlt_bool_false in E7.
  assert (Hh : Qlt_bool (inject_Z 0) (inject_Z (y2 - y1)) = true).
  { apply Qlt_bool_true. rewrite <- Zlt_Qlt. lia. }
  rewrite Hh. unfold num_truediv.
  destruct (Z.eqb_spec (y2 - y1) 0) as [Z0|_]; [lia|].
  fold (exact_ratio (x2 - x1) (y2 - y1)).
  fold (computed_ratio (x2 - x1) (y2 - y1)).
  assert (Hr : forall M : Z,
    exists r, computed_ratio (x2 - x1) (y2 - y1) = Finite r
              /\ ((inject_Z M < r)%Q <-> M * (y2 - y1) < x2 - x1)).
  { intros M. apply ratio_exceeds; lia. }
  destruct (Hr 0) as [r [Er _]]. rewrite Er. cbn [bind exact flt].
  destruct (Qlt_bool mr r) eqn:E8.
  - exists false. split; [reflexivity|]. apply Qlt_bool_true in E8. split.
    + split; [intros _ | reflexivity]. do 4 right. right. reflexivity.
    + intros M HM. split; [intros _ | reflexivity].
      destruct (Hr M) as [r' [Er' Hrr]]. rewrite Er in Er'.
      injection Er' as <-.
      do 4 right. right. rewrite HM.
      apply (proj2 (ratio_above_iff (x2 - x1) (y2 - y1) M ltac:(lia))).
      apply (proj1 Hrr). rewrite <- HM. exact E8.
  - exists true. split; [reflexivity|]. apply Qlt_bool_false in E8. split.
    + split; [discriminate|].
      intros [H|[H|[H|[H|[H|H]]]]]; try lia; try discriminate.
      exfalso. exact (Qlt_not_le _ _ H E7).
    + intros M HM. split; [discriminate|].
      intros [H|[H|[H|[H|[H|H]]]]]; try lia.
      * exfalso. exact (Qlt_not_le _ _ H E7).
      * destruct (Hr M) as [r' [Er' Hrr]]. rewrite Er in Er'.
        injection Er' as <-. rewrite HM in H.
        apply (proj1 (ratio_above_iff (x2 - x1) (y2 - y1) M ltac:(lia)))
          in H.
        apply (proj2 Hrr) in H.
        rewrite <- HM in H. exfalso. exact (Qlt_not_le _ _ H E8).
Qed.

Lemma validate_detection_spec_witness :
  (exists b : bool,
      _validate_detection mock_pipeline (Int 50) (Int 50) (Int 150) (Int 100)
        [200; 300; 3] = Return b
      /\ (b = false <->
          rejects 50 50 150 100 200 300
            (min_area (roi (pipeline_config mock_pipeline)))
            (flt (Finite (max_aspect_ratio
                            (roi (pipeline_config mock_pipeline))))
                 (computed_ratio (150 - 50) (100 - 50)) = true))
      /\ (forall M : Z,
            (max_aspect_ratio (roi (pipeline_config mock_pipeline))
             == inject_Z M)%Q ->
            (b = false <->
             rejects 50 50 150 100 200 300
               (min_area (roi (pipeline_config mock_pipeline)))
               (max_aspect_ratio (roi (pipeline_config mock_pipeline))
                < exact_ratio (150 - 50) (100 - 50))%Q)))
  /\ (forall padding min_a,
        _validate_detection
          (with_roi mock_pipeline
             {| padding_ratio := padding; min_area := min_a;
                max_aspect_ratio := 5 |})
          (Int 50) (Int 50) (Int 350) (Int 100) [200; 300; 3]
        = Return false).
Proof.
  apply (validate_detection_spec mock_pipeline 50 50 150 100 200 300 3).
  - reflexivity.
  - reflexivity.
Defined.

(** C2, as stated, fails.  The division of two ints raises when its result
    is beyond the doubles: the box of width [2 ^ 1024] and height 1, in an
    image that holds it, makes the validator raise.  And the division
    rounds: the box of width [5 * 2 ^ 60 + 1] and height [2 ^ 60] has a
    ratio above 5, which the rule rejects, and the validator accepts it,
    its computed ratio being 5. *)
Lemma validate_detection_beyond_doubles :
  _validate_detection mock_pipeline (Int 0) (Int 0) (Int (2 ^ 1024)) (Int 1)
    [1; 2 ^ 1024; 3]
  = Raise (OverflowError "integer division result too large for a float")
  /\ _validate_detection mock_pipeline (Int 0) (Int 0) (Int (5 * 2 ^ 60 + 1))
       (Int (2 ^ 60)) [2 ^ 60; 5 * 2 ^ 60 + 1; 3]
     = Return true
  /\ rejects 0 0 (5 * 2 ^ 60 + 1) (2 ^ 60) (2 ^ 60) (5 * 2 ^ 60 + 1)
       (min_area (roi (pipeline_config mock_pipeline)))
       (max_aspect_ratio (roi (pipeline_config mock_pipeline))
        < exact_ratio (5 * 2 ^ 60 + 1 - 0) (2 ^ 60 - 0))%Q.
Proof.
  split; [vm_compute; reflexivity|]. split; [vm_compute; reflexivity|].
  unfold rejects. do 4 right. right. vm_compute. reflexivity.
Qed.

(** The cases of the test suite, on an image of 200 rows and 300 columns
    with [min_area = 100] and [max_aspect_ratio = 5]. *)
Example validate_detection_valid :
  _validate_detection mock_pipeline (Int 50) (Int 50) (Int 150) (Int 100)
    [200; 300; 3] = Return true.
Proof. vm_compute. reflexivity. Qed.

Example validate_detection_invalid_coordinates :
  _validate_detection mock_pipeline (Int (-10)) (Int 50) (Int 150) (Int 100)
    [200; 300; 3] = Return false
  /\ _validate_detection mock_pipeline (Int 150) (Int 50) (Int 50) (Int 100)
       [200; 300; 3] = Return false
  /\ _validate_detection mock_pipeline (Int 50) (Int 100) (Int 150) (Int 50)
       [200; 300; 3] = Return false.
Proof. repeat split. Qed.

Example validate_detection_too_small :
  _validate_detection mock_pipeline (Int 50) (Int 50) (Int 55) (Int 55)
    [200; 300; 3] = Return false.
Proof. reflexivity. Qed.

(** In an image wide enough to hold it, the box of width 300 and height 50
    is rejected by the aspect rule alone: it passes when the maximum is 6. *)
Example validate_detection_wrong_aspect_ratio :
  _validate_detection mock_pipeline (Int 50) (Int 50) (Int 350) (Int 100)
    [200; 400; 3] = Return false
  /\ _validate_detection
       (with_roi mock_pipeline
          {| padding_ratio := Float (round64 (1 # 10)); min_area := 100;
             max_aspect_ratio := 6 |})
       (Int 50) (Int 50) (Int 350) (Int 100) [200; 400; 3] = Return true.
Proof. split; vm_compute; reflexivity. Qed.

(** *** Slices *)

Lemma len_nonneg {A} (l : list A) : 0 <= len l.
Proof. unfold len. lia. Qed.

Lemma slice_in_bounds {A} (l : list A) (a b : Z) :
  0 <= a -> a <= b -> b <= len l ->
  slice l a b = firstn (Z.to_nat (b - a)) (skipn (Z.to_nat a) l).
Proof.
  intros Ha Hab Hb. unfold slice, slice_index.
  destruct (Z.ltb_spec a 0); [lia|].
  destruct (Z.ltb_spec b 0); [lia|].
  rewrite !Z.min_l by lia. reflexivity.
Qed.

Lemma len_slice {A} (l : list A) (a b : Z) :
  0 <= a -> a <= b -> b <= len l -> len (slice l a b) = b - a.
Proof.
  intros Ha Hab Hb. rewrite slice_in_bounds by assumption.
  unfold len in *. rewrite length_firstn, length_skipn. lia.
Qed.

Lemma Forall_firstn {A} (P : A -> Prop) (n : nat) :
  forall l, Forall P l -> Forall P (firstn n l).
Proof.
  induction n as [|n IH]; intros l H; simpl; [constructor|].
  destruct H; constructor; auto.
Qed.

Lemma Forall_skipn {A} (P : A -> Prop) (n : nat) :
  forall l, Forall P l -> Forall P (skipn n l).
Proof.
  induction n as [|n IH]; intros l H; simpl; [assumption|].
  destruct H; [constructor | auto].
Qed.

Lemma Forall_slice {A} (P : A -> Prop) (l : list A) (a b : Z) :
  Forall P l -> Forall P (slice l a b).
Proof.
  intros H. unfold slice. apply Forall_firstn, Forall_skipn, H.
Qed.

Lemma rows_of_spec {A} (rows : list (list A)) (h w : Z) :
  rows_of h w rows = true
  <-> len rows = h /\ Forall (fun r => len r = w) rows.
Proof.
  unfold rows_of. rewrite andb_true_iff, Z.eqb_eq, forallb_forall,
    Forall_forall.
  split; intros [Hh Hw]; (split; [assumption|]); intros r Hr;
    apply Z.eqb_eq; auto.
Qed.

Lemma rows_of_slice_rows {A} (rows : list (list A)) (h w y1 y2 x1 x2 : Z) :
  rows_of h w rows = true ->
  0 <= y1 -> y1 <= y2 -> y2 <= h ->
  0 <= x1 -> x1 <= x2 -> x2 <= w ->
  rows_of (y2 - y1) (x2 - x1) (slice_rows rows y1 y2 x1 x2) = true.
Proof.
  rewrite !rows_of_spec.
  intros [Hh Hw] ? ? ? ? ? ?. unfold slice_rows. split.
  - unfold len. rewrite length_map. apply len_slice; lia.
  - apply Forall_map. apply Forall_slice with (a := y1) (b := y2) in Hw.
    eapply Forall_impl; [|exact Hw].
    intros r Hr. cbv beta in *. apply len_slice; lia.
Qed.

Lemma width_of_rows {A} (rows : list (list A)) (h w : Z) :
  rows_of h w rows = true -> 0 < h -> width_of rows = w.
Proof.
  rewrite rows_of_spec. intros [Hh Hw] Hpos. destruct rows as [|r rows].
  - unfold len in Hh. simpl in Hh. lia.
  - simpl. inversion Hw; assumption.
Qed.

Lemma shape_rectangular (a : ndarray) (h w : Z) :
  rectangular a h w = true -> 0 < h ->
  nth 0 (shape a) 0 = h /\ nth 1 (shape a) 0 = w.
Proof.
  intros R Hh. destruct a as [rows|rows]; simpl in *;
    (split; [apply rows_of_spec in R; apply R
            | eapply width_of_rows; eauto]).
Qed.

Lemma rectangular_slice2d (a : ndarray) (h w y1 y2 x1 x2 : Z) :
  rectangular a h w = true ->
  0 <= y1 -> y1 <= y2 -> y2 <= h ->
  0 <= x1 -> x1 <= x2 -> x2 <= w ->
  rectangular (slice2d a y1 y2 x1 x2) (y2 - y1) (x2 - x1) = true.
Proof.
  intros R ? ? ? ? ? ?.
  destruct a as [rows|rows]; simpl in *;
    apply rows_of_slice_rows with h w; auto.
Qed.

Lemma area_slice2d (a : ndarray) (h w y1 y2 x1 x2 : Z) :
  rectangular a h w = true ->
  0 <= y1 -> y1 < y2 -> y2 <= h ->
  0 <= x1 -> x1 <= x2 -> x2 <= w ->
  nth 0 (shape (slice2d a y1 y2 x1 x2)) 0 = y2 - y1
  /\ nth 1 (shape (slice2d a y1 y2 x1 x2)) 0 = x2 - x1.
Proof.
  intros. apply shape_rectangular; [|lia].
  apply rectangular_slice2d with h w; auto; lia.
Qed.

(** *** Padding *)

Lemma int_nonneg_floor (q : Q) : (0 <= q)%Q -> int q = Qfloor q.
Proof.
  intros H. destruct q as [n d]. unfold int, Qfloor. simpl.
  unfold Qle in H. simpl in H.
  apply Z.quot_div_nonneg; lia.
Qed.

Lemma int_monotone (p q : Q) : (0 <= p)%Q -> (p <= q)%Q -> int p <= int q.
Proof.
  intros Hp Hpq.
  rewrite !int_nonneg_floor; [|eapply Qle_trans; eassumption|assumption].
  apply Qfloor_resp_le; assumption.
Qed.

Lemma int_nonneg (q : Q) : (0 <= q)%Q -> 0 <= int q.
Proof.
  intros H. rewrite int_nonneg_floor by assumption.
  change 0 with (Qfloor 0). apply Qfloor_resp_le; assumption.
Qed.

Lemma side_times_ratio (n : Z) (r : Q) :
  0 < n -> n < 2 ^ 53 -> (0 < r)%Q -> (r < 2 ^ 970)%Q ->
  (0 < nearest (inject_Z n) * r)%Q
  /\ (nearest (inject_Z n) * r < 2 ^ 1023)%Q.
Proof.
  intros Hn H Hr Hr'.
  assert (E : (nearest (inject_Z n) == inject_Z n)%Q)
    by (apply nearest_Z; assumption).
  pose proof (inject_Z_pos n Hn) as Pn.
  assert (Hn53 : (inject_Z n < 2 ^ 53)%Q).
  { rewrite pow2_Z by lia. rewrite <- Zlt_Qlt. assumption. }
  assert (Hp : (2 ^ 1023 == 2 ^ 53 * 2 ^ 970)%Q)
    by (rewrite <- pow2_plus; reflexivity).
  rewrite E, Hp.
  pose proof (pow2_pos 53). pose proof (pow2_pos 970).
  set (a := (2 ^ 53)%Q) in *. set (b := (2 ^ 970)%Q) in *.
  set (N := inject_Z n) in *.
  split; nra.
Qed.

(** The padding of a side below [2 ^ 53] at a float ratio below
    [2 ^ 970]: the computation returns, and what it returns is not
    negative. *)
Lemma pad_returns (n : Z) (r : Q) :
  0 < n -> n < 2 ^ 53 -> (r < 2 ^ 970)%Q ->
  num_gt (Float (Finite r)) (Int 0) = true ->
  (p <- num_mul (Int n) (Float (Finite r)) ;; to_int p)
  = Return (pad n (Float (Finite r)))
  /\ pad n (Float (Finite r)) = int (nearest (nearest (inject_Z n) * r))
  /\ 0 <= pad n (Float (Finite r)).
Proof.
  intros Hn H Hr' Hpos.
  assert (Hr : (0 < r)%Q) by (apply Qlt_bool_true; exact Hpos).
  destruct (to_float_exact n Hn H) as [Ef _].
  destruct (side_times_ratio n r Hn H Hr Hr') as [P0 P1].
  assert (E : (p <- num_mul (Int n) (Float (Finite r)) ;; to_int p)
              = Return (int (nearest (nearest (inject_Z n) * r)))).
  { unfold num_mul, as_float. rewrite Ef. cbn [fmul bind].
    rewrite round64_pos by assumption. reflexivity. }
  unfold pad. rewrite E. split; [reflexivity|]. split; [reflexivity|].
  apply int_nonneg. apply nearest_nonneg. assumption.
Qed.

Lemma pad_monotone (n : Z) (r1 r2 : Q) :
  0 < n -> n < 2 ^ 53 -> (0 < r1)%Q -> (r1 <= r2)%Q -> (r2 < 2 ^ 970)%Q ->
  pad n (Float (Finite r1)) <= pad n (Float (Finite r2)).
Proof.
  intros Hn H Hr1 Hr Hr2.
  assert (Hr1' : (r1 < 2 ^ 970)%Q) by lra.
  assert (Hr2' : (0 < r2)%Q) by lra.
  destruct (pad_returns n r1 Hn H Hr1') as [_ [-> _]];
    [apply Qlt_bool_true; exact Hr1|].
  destruct (pad_returns n r2 Hn H Hr2) as [_ [-> _]];
    [apply Qlt_bool_true; exact Hr2'|].
  destruct (side_times_ratio n r1 Hn H Hr1 Hr1') as [P0 _].
  assert (E : (nearest (inject_Z n) == inject_Z n)%Q)
    by (apply nearest_Z; assumption).
  pose proof (inject_Z_pos n Hn) as Pn.
  apply int_monotone.
  - apply nearest_nonneg. assumption.
  - apply nearest_mono; [assumption|]. rewrite E. nra.
Qed.

(** What [extract_roi] returns when its two paddings are known. *)
Lemma extract_roi_padded (self : RoadSignInferencePipeline) (image : ndarray)
    (h w x1 y1 x2 y2 pad_w pad_h : Z) :
  rectangular image h w = true -> 0 < h ->
  (if num_gt (padding_ratio (roi (pipeline_config self))) (Int 0)
   then (p <- num_mul (Int (x2 - x1))
                (padding_ratio (roi (pipeline_config self))) ;; to_int p)
        = Return pad_w
        /\ (p <- num_mul (Int (y2 - y1))
                   (padding_ratio (roi (pipeline_config self))) ;; to_int p)
           = Return pad_h
   else pad_w = 0 /\ pad_h = 0) ->
  0 <= x1 -> x2 <= w -> 0 <= y1 -> y2 <= h ->
  let '(a1, b1, a2, b2) := padded w h pad_w pad_h x1 y1 x2 y2 in
  extract_roi self image (x1, y1, x2, y2) = Return (slice2d image b1 b2 a1 a2).
Proof.
  intros R Hh Hp ? ? ? ?. unfold padded, extract_roi.
  destruct (shape_rectangular _ _ _ R Hh) as [Sh Sw].
  rewrite Sh, Sw.
  destruct (num_gt _ _).
  - destruct Hp as [Ew Eh]. rewrite Ew, Eh. reflexivity.
  - destruct Hp as [-> ->]. cbn [bind]. do 2 f_equal; lia.
Qed.

(** The region cut out for a box inside the image, for paddings that are
    not negative: its rows and columns. *)
Lemma shape_padded (image : ndarray) (h w x1 y1 x2 y2 pad_w pad_h : Z) :
  rectangular image h w = true ->
  0 <= x1 -> x1 < x2 -> x2 <= w -> 0 <= y1 -> y1 < y2 -> y2 <= h ->
  0 <= pad_w -> 0 <= pad_h ->
  let roi := slice2d image (Z.max 0 (y1 - pad_h)) (Z.min h (y2 + pad_h))
               (Z.max 0 (x1 - pad_w)) (Z.min w (x2 + pad_w)) in
  nth 0 (shape roi) 0 = Z.min h (y2 + pad_h) - Z.max 0 (y1 - pad_h)
  /\ nth 1 (shape roi) 0 = Z.min w (x2 + pad_w) - Z.max 0 (x1 - pad_w)
  /\ rectangular roi (Z.min h (y2 + pad_h) - Z.max 0 (y1 - pad_h))
       (Z.min w (x2 + pad_w) - Z.max 0 (x1 - pad_w)) = true.
Proof.
  intros R ? ? ? ? ? ? ? ?. cbv zeta.
  destruct (area_slice2d image h w
              (Z.max 0 (y1 - pad_h)) (Z.min h (y2 + pad_h))
              (Z.max 0 (x1 - pad_w)) (Z.min w (x2 + pad_w)) R)
    as [E0 E1]; try lia.
  split; [exact E0|]. split; [exact E1|].
  apply rectangular_slice2d with h w; auto; lia.
Qed.

(** The region at a float ratio below [2 ^ 970]. *)
Lemma extract_roi_at (self : RoadSignInferencePipeline) (image : ndarray)
    (h w x1 y1 x2 y2 : Z) (r : Q) :
  rectangular image h w = true -> h < 2 ^ 53 -> w < 2 ^ 53 ->
  0 <= x1 -> x1 < x2 -> x2 <= w -> 0 <= y1 -> y1 < y2 -> y2 <= h ->
  (r < 2 ^ 970)%Q ->
  exists pad_w pad_h : Z,
    extract_roi (with_padding_ratio self (Float (Finite r))) image
      (x1, y1, x2, y2)
    = Return (slice2d image (Z.max 0 (y1 - pad_h)) (Z.min h (y2 + pad_h))
                (Z.max 0 (x1 - pad_w)) (Z.min w (x2 + pad_w)))
    /\ 0 <= pad_w /\ 0 <= pad_h
    /\ (if Qlt_bool 0 r
        then pad_w = pad (x2 - x1) (Float (Finite r))
             /\ pad_h = pad (y2 - y1) (Float (Finite r))
        else pad_w = 0 /\ pad_h = 0).
Proof.
  intros R Hh Hw ? ? ? ? ? ? Hr.
  destruct (Qlt_bool 0 r) eqn:E.
  - destruct (pad_returns (x2 - x1) r ltac:(lia) ltac:(lia) Hr E)
      as [Ew [_ Pw]].
    destruct (pad_returns (y2 - y1) r ltac:(lia) ltac:(lia) Hr E)
      as [Eh [_ Ph]].
    exists (pad (x2 - x1) (Float (Finite r))),
           (pad (y2 - y1) (Float (Finite r))).
    split; [|repeat split; assumption].
    apply (extract_roi_padded (with_padding_ratio self (Float (Finite r)))
             image h w x1 y1 x2 y2); try lia; try assumption.
    cbn [with_padding_ratio with_roi pipeline_config self_config pipeline
         roi padding_ratio].
    change (num_gt (Float (Finite r)) (Int 0)) with (Qlt_bool 0 r).
    rewrite E. split; assumption.
  - exists 0, 0. split; [|repeat split; lia].
    apply (extract_roi_padded (with_padding_ratio self (Float (Finite r)))
             image h w x1 y1 x2 y2); try lia; try assumption.
    cbn [with_padding_ratio with_roi pipeline_config self_config pipeline
         roi padding_ratio].
    change (num_gt (Float (Finite r)) (Int 0)) with (Qlt_bool 0 r).
    rewrite E. split; reflexivity.
Qed.

(** C8, as amended.  For an image of [h] rows and [w] columns, both below
    [2 ^ 53], a box inside it, and float padding ratios
    [0 <= r1 < r2 < 2 ^ 970], the extraction returns at both ratios and the
    area of the region at [r2] is at least the area at [r1], and at most
    that of the image.  With a ratio of 0 the region is the crop
    [image[y1:y2, x1:x2]], of [y2 - y1] rows and [x2 - x1] columns. *)
Theorem extract_roi_padding_monotone :
  forall (self : RoadSignInferencePipeline) (image : ndarray)
         (h w x1 y1 x2 y2 : Z) (r1 r2 : Q),
    rectangular image h w = true ->
    h < 2 ^ 53 -> w < 2 ^ 53 ->
    0 <= x1 -> x1 < x2 -> x2 <= w ->
    0 <= y1 -> y1 < y2 -> y2 <= h ->
    (0 <= r1)%Q -> (r1 < r2)%Q -> (r2 < 2 ^ 970)%Q ->
    (exists roi1 roi2 : ndarray,
        extract_roi (with_padding_ratio self (Float (Finite r1))) image
          (x1, y1, x2, y2) = Return roi1
        /\ extract_roi (with_padding_ratio self (Float (Finite r2))) image
             (x1, y1, x2, y2) = Return roi2
        /\ area roi1 <= area roi2
        /\ area roi2 <= h * w)
    /\ extract_roi (with_padding_ratio self (Float (Finite 0))) image
         (x1, y1, x2, y2)
       = Return (slice2d image y1 y2 x1 x2)
    /\ extract_roi (with_padding_ratio self (Int 0)) image (x1, y1, x2, y2)
       = Return (slice2d image y1 y2 x1 x2)
    /\ shape (slice2d image y1 y2 x1 x2)
       = (y2 - y1) :: (x2 - x1) :: skipn 2 (shape image).
Proof.
  intros self image h w x1 y1 x2 y2 r1 r2 R Hh Hw Hx1 Hx Hx2 Hy1 Hy Hy2
    Hr1 Hr Hr2.
  assert (Hr1' : (r1 < 2 ^ 970)%Q) by lra.
  split; [|split; [|split]].
  - destruct (extract_roi_at self image h w x1 y1 x2 y2 r1 R)
      as [pw1 [ph1 [E1 [Pw1 [Ph1 V1]]]]]; try assumption.
    destruct (extract_roi_at self image h w x1 y1 x2 y2 r2 R)
      as [pw2 [ph2 [E2 [Pw2 [Ph2 V2]]]]]; try assumption.
    do 2 eexists. split; [exact E1|]. split; [exact E2|].
    destruct (shape_padded image h w x1 y1 x2 y2 pw1 ph1 R)
      as [A0 [A1 _]]; try assumption.
    destruct (shape_padded image h w x1 y1 x2 y2 pw2 ph2 R)
      as [B0 [B1 _]]; try assumption.
    unfold area. rewrite A0, A1, B0, B1.
    assert (Hle : pw1 <= pw2 /\ ph1 <= ph2).
    { assert (E : Qlt_bool 0 r2 = true) by (apply Qlt_bool_true; lra).
      rewrite E in V2. destruct V2 as [-> ->].
      destruct (Qlt_bool 0 r1) eqn:E'.
      - destruct V1 as [-> ->]. apply Qlt_bool_true in E'.
        split; apply pad_monotone; try lia; try assumption; lra.
      - destruct V1 as [-> ->]. split; assumption. }
    destruct Hle. split; apply Z.mul_le_mono_nonneg; lia.
  - pose proof (extract_roi_padded (with_padding_ratio self (Float (Finite 0)))
                  image h w x1 y1 x2 y2 0 0 R) as E.
    unfold padded in E.
    replace (Z.max 0 (x1 - 0)) with x1 in E by lia.
    replace (Z.max 0 (y1 - 0)) with y1 in E by lia.
    replace (Z.min w (x2 + 0)) with x2 in E by lia.
    replace (Z.min h (y2 + 0)) with y2 in E by lia.
    apply E; try lia. split; reflexivity.
  - pose proof (extract_roi_padded (with_padding_ratio self (Int 0))
                  image h w x1 y1 x2 y2 0 0 R) as E.
    unfold padded in E.
    replace (Z.max 0 (x1 - 0)) with x1 in E by lia.
    replace (Z.max 0 (y1 - 0)) with y1 in E by lia.
    replace (Z.min w (x2 + 0)) with x2 in E by lia.
    replace (Z.min h (y2 + 0)) with y2 in E by lia.
    apply E; try lia. split; reflexivity.
  - destruct (area_slice2d image h w y1 y2 x1 x2 R) as [E0 E1]; try lia.
    destruct image as [rows|rows]; simpl in *; rewrite E0, E1; reflexivity.
Qed.

Lemma extract_roi_padding_monotone_witness :
  (exists roi1 roi2 : ndarray,
      extract_roi (with_padding_ratio mock_pipeline (Float (Finite 0)))
        sample_image (1, 1, 2, 2) = Return roi1
      /\ extract_roi (with_padding_ratio mock_pipeline (Float (Finite 1)))
           sample_image (1, 1, 2, 2) = Return roi2
      /\ area roi1 <= area roi2
      /\ area roi2 <= 3 * 4)
  /\ extract_roi (with_padding_ratio mock_pipeline (Float (Finite 0)))
       sample_image (1, 1, 2, 2)
     = Return (slice2d sample_image 1 2 1 2)
  /\ extract_roi (with_padding_ratio mock_pipeline (Int 0)) sample_image
       (1, 1, 2, 2)
     = Return (slice2d sample_image 1 2 1 2)
  /\ shape (slice2d sample_image 1 2 1 2)
     = (2 - 1) :: (2 - 1) :: skipn 2 (shape sample_image).
Proof.
  apply (extract_roi_padding_monotone mock_pipeline sample_image
           3 4 1 1 2 2 0 1).
  - reflexivity.
  - reflexivity.
  - reflexivity.
  - lia.
  - lia.
  - lia.
  - lia.
  - lia.
  - lia.
  - unfold Qle. simpl. lia.
  - reflexivity.
  - vm_compute. reflexivity.
Defined.

(** C8, as stated, fails.  At the padding ratio 1e308 the product of a
    width of 2 pixels and the ratio is beyond the doubles: it is infinite,
    and its conversion to an int raises.  The ratio 0.7 on the same box
    pads by 1 pixel, the product 1.4 truncated. *)
Lemma extract_roi_overflows :
  (0 <= inject_Z (10 ^ 308))%Q
  /\ extract_roi
       (with_padding_ratio mock_pipeline
          (Float (round64 (inject_Z (10 ^ 308)))))
       sample_image (1, 1, 3, 2)
     = Raise (OverflowError "cannot convert float infinity to integer")
  /\ extract_roi
       (with_padding_ratio mock_pipeline (Float (round64 (7 # 10))))
       sample_image (1, 1, 3, 2)
     = Return (slice2d sample_image 1 2 0 4).
Proof.
  split; [vm_compute; discriminate|].
  split; vm_compute; reflexivity.
Qed.

(** *** Characters *)

Ltac each_ascii c :=
  destruct c as [[] [] [] [] [] [] [] []]; vm_compute; try reflexivity;
  try discriminate.

Lemma isspace_upper_char (c : ascii) : isspace (upper_char c) = isspace c.
Proof. each_ascii c. Qed.

Lemma upper_char_idem (c : ascii) : upper_char (upper_char c) = upper_char c.
Proof. each_ascii c. Qed.

Lemma ascii_eqb_eq (a b : ascii) : ascii_eqb a b = true <-> a = b.
Proof.
  unfold ascii_eqb, code. rewrite Z.eqb_eq. split; intro H.
  - apply N2Z.inj in H.
    rewrite <- (ascii_N_embedding a), <- (ascii_N_embedding b), H. reflexivity.
  - subst. reflexivity.
Qed.

Lemma ascii_eqb_refl (a : ascii) : ascii_eqb a a = true.
Proof. apply ascii_eqb_eq. reflexivity. Qed.

(** *** [upper] *)

Lemma upper_idem (s : str) : upper (upper s) = upper s.
Proof.
  unfold upper. rewrite map_map. apply map_ext. apply upper_char_idem.
Qed.

Lemma upper_app (s t : str) : upper (s ++ t) = upper s ++ upper t.
Proof. apply map_app. Qed.

Lemma upper_rev (s : str) : upper (rev s) = rev (upper s).
Proof. unfold upper. apply map_rev. Qed.

(** *** [split] and [join] *)

Lemma spaceless_rev (w : str) : spaceless w -> spaceless (rev w).
Proof.
  unfold spaceless. rewrite !forallb_forall. intros H c Hc.
  apply H. apply in_rev. assumption.
Qed.

Lemma split_acc_words (s : str) :
  forall w, spaceless w -> Forall word (split_acc w s).
Proof.
  induction s as [|c s IH]; intros w Hw; simpl.
  - destruct w as [|a w]; [constructor|].
    constructor; [|constructor]. split.
    + simpl. intro E. apply app_eq_nil in E. destruct E; discriminate.
    + apply spaceless_rev. assumption.
  - destruct (isspace c) eqn:Ec.
    + destruct w as [|a w]; [apply IH; reflexivity|].
      constructor; [|apply IH; reflexivity]. split.
      * simpl. intro E. apply app_eq_nil in E. destruct E; discriminate.
      * apply spaceless_rev. assumption.
    + apply IH. unfold spaceless in *. simpl. rewrite Ec. simpl. assumption.
Qed.

Lemma split_words (s : str) : Forall word (split s).
Proof. apply split_acc_words. reflexivity. Qed.

Lemma split_acc_spaceless (p : str) :
  forall w s, spaceless p -> split_acc w (p ++ s) = split_acc (rev p ++ w) s.
Proof.
  induction p as [|c p IH]; intros w s Hp; simpl; [reflexivity|].
  unfold spaceless in Hp. simpl in Hp. apply andb_true_iff in Hp.
  destruct Hp as [Hc Hp]. apply negb_true_iff in Hc. rewrite Hc.
  rewrite IH by assumption. rewrite <- app_assoc. reflexivity.
Qed.

Lemma split_join (ws : list str) :
  Forall word ws -> split (join (py " ") ws) = ws.
Proof.
  unfold split. induction 1 as [|p ws [Hne Hsp] Hws IH]; [reflexivity|].
  destruct ws as [|q ws].
  - simpl. rewrite <- (app_nil_r p) at 1.
    rewrite split_acc_spaceless by assumption. simpl. rewrite app_nil_r.
    destruct (rev p) eqn:E.
    + exfalso. apply Hne. rewrite <- (rev_involutive p), E. reflexivity.
    + rewrite <- E, rev_involutive. reflexivity.
  - change (join (py " ") (p :: q :: ws))
      with (p ++ py " " ++ join (py " ") (q :: ws)).
    rewrite split_acc_spaceless by assumption. rewrite app_nil_r.
    change (py " " ++ join (py " ") (q :: ws))
      with (" "%char :: join (py " ") (q :: ws)).
    simpl split_acc at 1.
    change (isspace " ") with true. cbv iota.
    destruct (rev p) eqn:E.
    + exfalso. apply Hne. rewrite <- (rev_involutive p), E. reflexivity.
    + rewrite <- E, rev_involutive. f_equal. exact IH.
Qed.

Lemma collapse_idem (s : str) : collapse (collapse s) = collapse s.
Proof.
  unfold collapse. rewrite split_join by apply split_words. reflexivity.
Qed.

Lemma split_acc_upper (s : str) :
  forall w, split_acc (upper w) (upper s) = map upper (split_acc w s).
Proof.
  induction s as [|c s IH]; intros w; simpl.
  - destruct w; simpl; [reflexivity|].
    rewrite upper_app, upper_rev. reflexivity.
  - rewrite isspace_upper_char. destruct (isspace c).
    + destruct w as [|a w]; simpl.
      * apply (IH []).
      * rewrite upper_app, upper_rev. simpl. f_equal. apply (IH []).
    + apply (IH (c :: w)).
Qed.

Lemma split_upper (s : str) : split (upper s) = map upper (split s).
Proof. apply (split_acc_upper s []). Qed.

Lemma join_upper (ws : list str) :
  upper (join (py " ") ws) = join (py " ") (map upper ws).
Proof.
  induction ws as [|p ws IH]; [reflexivity|].
  destruct ws as [|q ws]; [reflexivity|].
  change (join (py " ") (p :: q :: ws))
    with (p ++ py " " ++ join (py " ") (q :: ws)).
  rewrite !upper_app, IH. reflexivity.
Qed.

Lemma collapse_upper (s : str) : collapse (upper s) = upper (collapse s).
Proof.
  unfold collapse. rewrite split_upper, join_upper. reflexivity.
Qed.

(** *** [in] on strings *)

Lemma startswith_spec (s p : str) :
  startswith s p = true <-> exists b, s = p ++ b.
Proof.
  revert s. induction p as [|c p IH]; intros s; simpl.
  - split; [intros _; exists s; reflexivity|].
    intros _; destruct s; reflexivity.
  - destruct s as [|d s]; simpl.
    + split; [discriminate | intros [b Hb]; discriminate].
    + rewrite andb_true_iff, ascii_eqb_eq, IH. split.
      * intros [E [b Hb]]. subst. exists b. reflexivity.
      * intros [b Hb]. injection Hb as E Hb. split; [auto | exists b; auto].
Qed.

Lemma contains_nil (needle : str) :
  contains [] needle = (startswith [] needle || false)%bool.
Proof. reflexivity. Qed.

Lemma contains_cons (c : ascii) (hay needle : str) :
  contains (c :: hay) needle
  = (startswith (c :: hay) needle || contains hay needle)%bool.
Proof. reflexivity. Qed.

Lemma contains_spec (hay needle : str) :
  contains hay needle = true <-> exists a b, hay = a ++ needle ++ b.
Proof.
  induction hay as [|c hay IH].
  - rewrite contains_nil, orb_false_r, startswith_spec. split.
    + intros [b Hb]. exists [], b. assumption.
    + intros [a [b H]]. destruct a; [exists b; assumption | discriminate].
  - rewrite contains_cons, orb_true_iff, startswith_spec, IH. split.
    + intros [[b Hb] | [a [b H]]].
      * exists [], b. assumption.
      * exists (c :: a), b. simpl. rewrite H. reflexivity.
    + intros [a [b H]]. destruct a as [|d a].
      * left. exists b. assumption.
      * right. injection H as E H. exists a, b. assumption.
Qed.

Lemma contains_refl (s : str) : contains s s = true.
Proof.
  apply contains_spec. exists [], []. rewrite app_nil_r. reflexivity.
Qed.

Lemma contains_trans (s t u : str) :
  contains s t = true -> contains t u = true -> contains s u = true.
Proof.
  rewrite !contains_spec. intros [a [b H1]] [a' [b' H2]]. subst.
  exists (a ++ a'), (b' ++ b). rewrite <- !app_assoc. reflexivity.
Qed.

(** *** The text normaliser *)

(** What [_postprocess_text] computes when special characters are kept. *)
Lemma postprocess_text_plain (self : RoadSignInferencePipeline) (text : str) :
  strips self = false ->
  _postprocess_text self text
  = if negb (truthy text) then Return []
    else Return (match first_known_pattern (patterns_of self)
                         (upper (collapse text)) with
                 | Some pattern => pattern
                 | None => upper (collapse text)
                 end).
Proof.
  intros H. unfold _postprocess_text, strips in *. rewrite H.
  destruct (negb (truthy text)); [reflexivity|].
  cbn [bind]. fold (collapse text). unfold patterns_of.
  destruct (first_known_pattern _ _); reflexivity.
Qed.

Lemma first_known_pattern_upper (pats : list yaml) (x u : str) :
  first_known_pattern pats x = Some u -> upper u = u.
Proof.
  induction pats as [|[p|] pats IH]; simpl; intros H; try discriminate; auto.
  destruct (contains (upper x) (upper p)); auto.
  injection H as <-. apply upper_idem.
Qed.

Lemma first_known_pattern_occurs (pats : list yaml) (x u : str) :
  first_known_pattern pats x = Some u -> contains (upper x) u = true.
Proof.
  induction pats as [|[p|] pats IH]; simpl; intros H; try discriminate; auto.
  destruct (contains (upper x) (upper p)) eqn:E; auto.
  injection H as <-. assumption.
Qed.

(** The pattern chosen for a text is chosen again for itself. *)
Lemma first_known_pattern_stable (pats : list yaml) (x u : str) :
  first_known_pattern pats x = Some u -> first_known_pattern pats u = Some u.
Proof.
  induction pats as [|[p|] pats IH]; simpl; intros H; try discriminate; auto.
  destruct (contains (upper x) (upper p)) eqn:E.
  - injection H as <-. rewrite upper_idem, contains_refl. reflexivity.
  - pose proof (first_known_pattern_upper _ _ _ H) as Hu.
    pose proof (first_known_pattern_occurs _ _ _ H) as Ho.
    destruct (contains (upper u) (upper p)) eqn:E'; [|auto].
    rewrite Hu in E'.
    rewrite (contains_trans _ _ _ Ho E') in E. discriminate.
Qed.

Lemma str_eqb_eq (s t : str) : str_eqb s t = true <-> s = t.
Proof.
  revert t. induction s as [|a s IH]; intros [|b t]; simpl;
    try (split; [discriminate | congruence]); [tauto|].
  rewrite andb_true_iff, ascii_eqb_eq, IH.
  split; [intros [-> ->]; reflexivity | intros H; injection H; auto].
Qed.

Lemma first_known_pattern_normal (pats : list yaml) (x u : str) :
  forallb normal_pattern pats = true ->
  first_known_pattern pats x = Some u -> collapse u = u.
Proof.
  induction pats as [|[p|] pats IH]; simpl; intros Hn H;
    try discriminate; auto.
  apply andb_true_iff in Hn. destruct Hn as [Hp Hn].
  destruct (contains (upper x) (upper p)); auto.
  injection H as <-. apply str_eqb_eq in Hp.
  rewrite collapse_upper, Hp. reflexivity.
Qed.

Lemma normalised_fixed (s : str) :
  upper (collapse (upper (collapse s))) = upper (collapse s).
Proof.
  rewrite collapse_upper, collapse_idem, upper_idem. reflexivity.
Qed.

(** C6, as amended.  When special characters are kept and every known
    pattern is written with single spaces between its words and none around
    them, normalising a string returns a string that normalising leaves
    unchanged. *)
Theorem postprocess_text_idempotent :
  forall (self : RoadSignInferencePipeline) (s : str),
    strips self = false ->
    forallb normal_pattern (patterns_of self) = true ->
    exists t : str,
      _postprocess_text self s = Return t
      /\ _postprocess_text self t = Return t.
Proof.
  intros self s Hs Hn. rewrite !postprocess_text_plain by assumption.
  destruct s as [|c s]; simpl negb; cbv iota.
  { exists []. rewrite postprocess_text_plain by assumption. auto. }
  set (x := upper (collapse (c :: s))).
  destruct (first_known_pattern (patterns_of self) x) as [u|] eqn:E.
  - exists u. split; [reflexivity|].
    rewrite postprocess_text_plain by assumption.
    destruct u as [|d u]; [reflexivity|]. simpl negb. cbv iota.
    rewrite (first_known_pattern_normal _ _ _ Hn E).
    rewrite (first_known_pattern_upper _ _ _ E).
    rewrite (first_known_pattern_stable _ _ _ E). reflexivity.
  - exists x. split; [reflexivity|].
    rewrite postprocess_text_plain by assumption.
    assert (Hx : upper (collapse x) = x) by apply normalised_fixed.
    rewrite Hx, E. destruct x; reflexivity.
Qed.

Lemma postprocess_text_idempotent_witness :
  exists t : str,
    _postprocess_text plain_pipeline (py "stop sign") = Return t
    /\ _postprocess_text plain_pipeline t = Return t.
Proof.
  apply (postprocess_text_idempotent plain_pipeline (py "stop sign")).
  - reflexivity.
  - reflexivity.
Defined.

(** C6, as stated, fails: with the single known pattern [" STOP"], the text
    ["bus stop"] normalises to [" STOP"], which normalises to ["STOP"]. *)
Lemma postprocess_text_not_idempotent :
  _postprocess_text spaced_pipeline (py "bus stop") = Return (py " STOP")
  /\ _postprocess_text spaced_pipeline (py " STOP") = Return (py "STOP")
  /\ (t <- _postprocess_text spaced_pipeline (py "bus stop") ;;
      _postprocess_text spaced_pipeline t)
     <> _postprocess_text spaced_pipeline (py "bus stop").
Proof.
  split; [reflexivity|]. split; [reflexivity|].
  vm_compute. discriminate.
Qed.

(** The character set of [_postprocess_text] does not compile: its range
    would start at the class [\s]. *)
Lemma special_chars_pattern_rejected :
  re.compile (py "[^\w\s-/]") = Raise (re_error "bad character range").
Proof. reflexivity. Qed.

(** With the removal of special characters on, every text that is not
    empty makes [_postprocess_text] raise. *)
Lemma postprocess_text_strips (self : RoadSignInferencePipeline) (text : str) :
  strips self = true -> text <> [] ->
  _postprocess_text self text = Raise (re_error "bad character range").
Proof.
  intros H Ht. unfold _postprocess_text, strips in *. rewrite H.
  destruct text; [congruence|]. reflexivity.
Qed.

(** C7.  Under the test configuration, which removes special characters and
    knows the patterns STOP and YIELD, [_postprocess_text] raises [re.error]
    on ["stop sign"] and on ["ST0P!"] instead of returning ["STOP"] and
    ["ST0P"]; with the removal off, ["stop sign"] gives ["STOP"]: white space
    collapsed, upper case, first known pattern that occurs. *)
Theorem postprocess_text_strip_raises :
  _postprocess_text mock_pipeline (py "stop sign")
  = Raise (re_error "bad character range")
  /\ _postprocess_text mock_pipeline (py "ST0P!")
     = Raise (re_error "bad character range")
  /\ _postprocess_text plain_pipeline (py "stop sign") = Return (py "STOP")
  /\ _postprocess_text plain_pipeline (py "  no   entry ")
     = Return (py "NO ENTRY").
Proof. repeat split. Qed.

(** *** The recognition adapter *)

Lemma try_except_returns {A} (body : result A) (a : A) :
  exists r, try_except body (fun _ => Return a) = Return r.
Proof. destruct body; simpl; eauto. Qed.



(** C9.  [recognize_text] never raises, and an exception of the engine
    gives the empty result.  Under the test configuration, which removes
    special characters, the engine output of the test suite (the word STOP at
    confidence 95 between two blanks) also gives the empty result, because
    the exception of [_postprocess_text] is caught by the same handler; with
    the removal off it gives STOP at confidence 95/100. *)
Theorem recognize_text_loses_words :
  (forall (env : Env) (self : RoadSignInferencePipeline) (roi : ndarray),
      exists r : OcrResult, recognize_text env self roi = Return r)
  /\ (forall (env : Env) (self : RoadSignInferencePipeline) (roi : ndarray)
             (e : exn),
         recognize_text (with_engine env (fun _ _ => Raise e)) self roi
         = Return empty_result)
  /\ recognize_text (mock_env (fun _ _ => Return stop_data)) mock_pipeline
       sample_image
     = Return empty_result
  /\ recognize_text (mock_env (fun _ _ => Return stop_data)) plain_pipeline
       sample_image
     = Return {| text := py "STOP"; ocr_confidence := 95 # 100;
                 raw_text := py "STOP"; word_count := 1 |}.
Proof.
  split; [|split; [|split]].
  - intros env self roi. unfold recognize_text. apply try_except_returns.
  - intros env self roi e. reflexivity.
  - reflexivity.
  - reflexivity.
Qed.

(** *** The orchestrator *)

Lemma for_each_length {A B} (body : A -> result (list B)) (xs : list A) :
  (forall x ys, body x = Return ys -> length ys = 1%nat) ->
  forall rs, for_each xs body = Return rs -> length rs = length xs.
Proof.
  intros Hb. induction xs as [|x xs IH]; simpl; intros rs H.
  - injection H as <-. reflexivity.
  - destruct (body x) as [e|ys] eqn:Ex; [discriminate|]. simpl in H.
    destruct (for_each xs body) as [e|zs]; [discriminate|]. simpl in H.
    injection H as <-. rewrite length_app, (Hb _ _ Ex), (IH zs eq_refl).
    reflexivity.
Qed.

(** The tracker cannot make a prediction fail. *)
Lemma log_prediction_metrics_returns (env : Env) (r : FrameResult) :
  _log_prediction_metrics env r = Return tt.
Proof.
  unfold _log_prediction_metrics.
  match goal with
  | |- try_except ?b _ = _ => destruct b as [e|[]]; reflexivity
  end.
Qed.

Lemma predict_image_frame (env : Env) (self : RoadSignInferencePipeline)
    (image : image_input) (t0 t1 : Q) :
  predict_image env self image t0 t1
  = match frame env self image with
    | Return (shape, detections, results) =>
        Return (Success shape (len detections) results (t1 - t0) "1.0.0")
    | Raise e => Return (Error (str_exn e) 0 [] (t1 - t0))
    end.
Proof.
  unfold predict_image, frame.
  destruct (preprocess_image env image) as [e|img]; [reflexivity|].
  cbn [bind].
  destruct (detect_road_signs self img) as [e|detections];
    [reflexivity|].
  cbn [bind].
  destruct (for_each detections _) as [e|results]; [reflexivity|].
  cbn [bind]. rewrite log_prediction_metrics_returns. reflexivity.
Qed.

Lemma frame_results_length (env : Env) (self : RoadSignInferencePipeline)
    (image : image_input) shape detections results :
  frame env self image = Return (shape, detections, results) ->
  length results = length detections.
Proof.
  unfold frame.
  destruct (preprocess_image env image) as [e|img]; [discriminate|].
  cbn [bind].
  destruct (detect_road_signs self img) as [e|ds]; [discriminate|].
  cbn [bind].
  destruct (for_each ds _) as [e|rs] eqn:E; [discriminate|].
  cbn [bind]. intros H. injection H as <- <- <-.
  eapply for_each_length; [|exact E].
  intros x ys. cbv beta zeta.
  destruct (extract_roi _ _ _); [discriminate|]. cbn [bind].
  destruct (preprocess_roi_for_ocr _ _ _); [discriminate|]. cbn [bind].
  destruct (recognize_text _ _ _); [discriminate|]. cbn [bind].
  intros H. injection H as <-. reflexivity.
Qed.

(** C1.  For every image argument (path, PIL image or array), every
    pipeline object, whatever the collaborators do, [predict_image] returns
    and does not raise.  What it returns is either the success dictionary,
    with the version 1.0.0, the elapsed time and one record per detection
    counted, or the error dictionary, with a zero count, no records and the
    elapsed time. *)
Theorem predict_image_two_shapes :
  forall (env : Env) (self : RoadSignInferencePipeline) (image : image_input)
         (start_time end_time : Q),
    (exists image_shape detections_count results,
        predict_image env self image start_time end_time
        = Return (Success image_shape detections_count results
                    (end_time - start_time) "1.0.0")
        /\ detections_count = len results)
    \/ (exists error,
           predict_image env self image start_time end_time
           = Return (Error error 0 [] (end_time - start_time))).
Proof.
  intros env self image t0 t1. rewrite predict_image_frame.
  destruct (frame env self image) as [e|[[sh ds] rs]] eqn:E.
  - right. exists (str_exn e). reflexivity.
  - left. exists sh, (len ds), rs. split; [reflexivity|].
    unfold len. rewrite (frame_results_length _ _ _ _ _ _ E). reflexivity.
Qed.

(** *** Health and metrics *)

(** Both queries return in every state; they only read the clock. *)
Lemma health_check_returns (env : Main.Env) (st : Main.State) :
  exists h, Main.health_check env st = (Main.tick st, Return h)
            /\ Main.status h = match Main.pipeline st with
                               | Some _ => "healthy"%string
                               | None => "degraded"%string
                               end
            /\ Main.health_total_predictions h
               = Main.total_predictions (Main.app_stats st).
Proof. eexists. split; [reflexivity|]. split; reflexivity. Qed.

Lemma get_metrics_returns (env : Main.Env) (st : Main.State) :
  exists m, Main.get_metrics env st = (Main.tick st, Return m)
            /\ Main.pipeline_status m = match Main.pipeline st with
                                        | Some _ => "loaded"%string
                                        | None => "not_loaded"%string
                                        end
            /\ Main.metrics_total_predictions m
               = Main.total_predictions (Main.app_stats st)
            /\ Main.metrics_total_detections m
               = Main.total_detections (Main.app_stats st)
            /\ Main.average_processing_time m
               = if 0 <? Main.total_predictions (Main.app_stats st)
                 then (Main.total_processing_time (Main.app_stats st)
                       / inject_Z
                           (Main.total_predictions (Main.app_stats st)))%Q
                 else 0%Q.
Proof. eexists. split; [reflexivity|]. repeat split. Qed.

(** C5, as amended.  Whenever the service holds no pipeline object, the
    health query returns the status "degraded" and the metrics query the
    pipeline status "not_loaded", which is not "loaded"; both return without
    raising and leave the counters and the pipeline as they are. *)
Theorem degraded_without_pipeline :
  forall (env : Main.Env) (st : Main.State),
    Main.pipeline st = None ->
    exists (h : Main.HealthResponse) (m : Main.MetricsResponse),
      Main.health_check env st = (Main.tick st, Return h)
      /\ Main.status h = "degraded"%string
      /\ Main.pipeline_loaded h = false
      /\ Main.get_metrics env st = (Main.tick st, Return m)
      /\ Main.pipeline_status m = "not_loaded"%string
      /\ Main.pipeline_status m <> "loaded"%string.
Proof.
  intros env st H. do 2 eexists.
  split; [reflexivity|]. cbn. rewrite H.
  repeat split. discriminate.
Qed.

Lemma degraded_without_pipeline_witness :
  exists (h : Main.HealthResponse) (m : Main.MetricsResponse),
    Main.health_check mock_service (Main.initial 0)
    = (Main.tick (Main.initial 0), Return h)
    /\ Main.status h = "degraded"%string
    /\ Main.pipeline_loaded h = false
    /\ Main.get_metrics mock_service (Main.initial 0)
       = (Main.tick (Main.initial 0), Return m)
    /\ Main.pipeline_status m = "not_loaded"%string
    /\ Main.pipeline_status m <> "loaded"%string.
Proof.
  apply (degraded_without_pipeline mock_service (Main.initial 0)).
  reflexivity.
Defined.

(** C5, as stated, fails.  When the detector weights cannot be loaded,
    start-up still leaves a pipeline object, without a detector; the health
    query then answers "healthy" and the metrics query "loaded". *)
Lemma healthy_without_detector :
  option_map yolo_model (Main.pipeline started) = Some None
  /\ (exists h, snd (Main.health_check mock_service started) = Return h
                /\ Main.status h = "healthy"%string
                /\ Main.status h <> "degraded"%string)
  /\ (exists m, snd (Main.get_metrics mock_service started) = Return m
                /\ Main.pipeline_status m = "loaded"%string).
Proof.
  split; [reflexivity|]. split.
  - eexists. split; [reflexivity|]. split; [reflexivity|discriminate].
  - eexists. split; reflexivity.
Qed.

(** *** Single predictions *)

Lemma process_uploaded_file_accepts (env : Main.Env) (f : Main.UploadFile)
    (image : ndarray) (st : Main.State) :
  image_type f = true ->
  Main.decode env (Main.file f) = Return image ->
  Main.process_uploaded_file env f st = (st, Return image).
Proof.
  intros Ht Hd. unfold Main.process_uploaded_file.
  unfold image_type in Ht. rewrite Ht. cbn [negb].
  unfold Main.try_exceptM, Main.lift. rewrite Hd. reflexivity.
Qed.

(** An upload that is not read leaves the counters and the pipeline alone
    and raises a 400. *)
Lemma process_uploaded_file_cases (env : Main.Env) (f : Main.UploadFile)
    (st : Main.State) :
  (exists image,
      image_type f = true
      /\ Main.decode env (Main.file f) = Return image
      /\ Main.process_uploaded_file env f st = (st, Return image))
  \/ (exists st' detail,
         (image_type f = false
          \/ exists e, Main.decode env (Main.file f) = Raise e)
         /\ Main.process_uploaded_file env f st
            = (st', Raise (HTTPException 400 detail))
         /\ Main.app_stats st' = Main.app_stats st
         /\ Main.pipeline st' = Main.pipeline st
         /\ Main.ticks st' = Main.ticks st).
Proof.
  destruct (image_type f) eqn:Ht.
  - destruct (Main.decode env (Main.file f)) as [e|image] eqn:Hd.
    + right. unfold Main.process_uploaded_file.
      unfold image_type in Ht. rewrite Ht. cbn [negb].
      unfold Main.try_exceptM, Main.lift. rewrite Hd.
      do 2 eexists. split; [right; eauto|].
      split; [reflexivity|]. repeat split.
    + left. exists image. repeat split.
      apply process_uploaded_file_accepts; assumption.
  - right. unfold Main.process_uploaded_file.
    unfold image_type in Ht. rewrite Ht. cbn [negb].
    do 2 eexists. split; [left; reflexivity|].
    split; [reflexivity|]. repeat split.
Qed.

Lemma pipeline_predict_image_run (env : Main.Env)
    (p : RoadSignInferencePipeline) (image : ndarray) (st : Main.State) :
  Main.pipeline_predict_image env p image st
  = (Main.tick (Main.tick st),
     match frame (Main.pipeline_env env) p (Array image) with
     | Return (shape, detections, results) =>
         Return (Success shape (len detections) results
                   (Main.time_at env (S (Main.ticks st))
                    - Main.time_at env (Main.ticks st)) "1.0.0")
     | Raise e =>
         Return (Error (str_exn e) 0 []
                   (Main.time_at env (S (Main.ticks st))
                    - Main.time_at env (Main.ticks st)))
     end).
Proof.
  unfold Main.pipeline_predict_image, Main.bindM, Main.time_time, Main.lift.
  cbn [Main.tick Main.ticks]. rewrite predict_image_frame. reflexivity.
Qed.

(** The pipeline reports an error exactly when its [try] block raises. *)
Lemma reported_error (env : Env) (p : RoadSignInferencePipeline)
    (image : image_input) (t0 t1 : Q) (r : FrameResult) :
  predict_image env p image t0 t1 = Return r ->
  has_error r = true ->
  exists e, frame env p image = Raise e.
Proof.
  rewrite predict_image_frame.
  destruct (frame env p image) as [e|[[sh ds] rs]]; [eauto|].
  intros H. injection H as <-. discriminate.
Qed.

(** C4, as amended.  When the pipeline reports an error on an upload that was
    read, [POST /predict] raises an HTTP 500 and leaves the three counters,
    [total_predictions] included, as they were; the attempt is only written
    to the log. *)
Theorem predict_image_pipeline_error :
  forall (env : Main.Env) (st : Main.State) (p : RoadSignInferencePipeline)
         (f : Main.UploadFile) (image : ndarray) (t0 t1 : Q)
         (r : FrameResult),
    Main.pipeline st = Some p ->
    image_type f = true ->
    Main.decode env (Main.file f) = Return image ->
    predict_image (Main.pipeline_env env) p (Array image) t0 t1 = Return r ->
    has_error r = true ->
    exists (st' : Main.State) (detail : string),
      Main.predict_image env f st = (st', Raise (HTTPException 500 detail))
      /\ Main.app_stats st' = Main.app_stats st
      /\ Main.pipeline st' = Main.pipeline st
      /\ In (Main.INFO,
             ("Nouvelle prediction - ID: "
              ++ Main.uuid_at env (Main.ticks st))%string)
            (Main.log st').
Proof.
  intros env st p f image t0 t1 r Hp Ht Hd Hr He.
  destruct (reported_error _ _ _ _ _ _ Hr He) as [e Hf].
  unfold Main.predict_image. rewrite Hp.
  unfold Main.bindM at 1. unfold Main.uuid4 at 1.
  unfold Main.bindM at 1. unfold Main.time_time at 1.
  unfold Main.try_exceptM.
  unfold Main.bindM at 1. unfold Main.logger at 1.
  unfold Main.bindM at 1.
  rewrite (process_uploaded_file_accepts env f image _ Ht Hd).
  unfold Main.bindM at 1.
  rewrite pipeline_predict_image_run, Hf.
  unfold Main.raise.
  do 2 eexists. split; [reflexivity|].
  split; [reflexivity|]. split; [cbn; congruence|].
  cbn. apply in_or_app. right. left. reflexivity.
Qed.

Lemma predict_image_pipeline_error_witness :
  exists (st' : Main.State) (detail : string),
    Main.predict_image mock_service jpeg (serving (Some mock_pipeline))
    = (st', Raise (HTTPException 500 detail))
    /\ Main.app_stats st' = Main.app_stats (serving (Some mock_pipeline))
    /\ Main.pipeline st' = Main.pipeline (serving (Some mock_pipeline))
    /\ In (Main.INFO,
           ("Nouvelle prediction - ID: "
            ++ Main.uuid_at mock_service
                 (Main.ticks (serving (Some mock_pipeline))))%string)
          (Main.log st').
Proof.
  apply (predict_image_pipeline_error mock_service
           (serving (Some mock_pipeline)) mock_pipeline jpeg
           (Color (repeat (repeat (0, 0, 0) 12) 12)) 0 0
           (Error "Modele YOLO non charge" 0 [] (0 - 0))).
  - reflexivity.
  - reflexivity.
  - reflexivity.
  - reflexivity.
  - reflexivity.
Defined.

(** C4, as stated, fails.  A pipeline object without a detector reports an
    error on every image; the request is answered with an HTTP 500 and
    [total_predictions] stays at 0. *)
Lemma failed_prediction_not_counted :
  has_error_result
    (predict_image (Main.pipeline_env mock_service) mock_pipeline
       (Array (Color (repeat (repeat (0, 0, 0) 12) 12))) 2 3) = true
  /\ snd (Main.predict_image mock_service jpeg (serving (Some mock_pipeline)))
     = Raise (HTTPException 500
                "Erreur de prediction: Modele YOLO non charge")
  /\ Main.total_predictions
       (Main.app_stats
          (fst (Main.predict_image mock_service jpeg
                  (serving (Some mock_pipeline)))))
     = Main.total_predictions (Main.app_stats (serving (Some mock_pipeline)))
  /\ Main.total_predictions
       (Main.app_stats
          (fst (Main.predict_image mock_service jpeg
                  (serving (Some mock_pipeline)))))
     <> Main.total_predictions (Main.app_stats (serving (Some mock_pipeline)))
        + 1.
Proof.
  split; [reflexivity|]. split; [reflexivity|]. split; [reflexivity|].
  vm_compute. discriminate.
Qed.

(** *** Statistics *)

Lemma new_PredictionResponse_fields (s : bool) (sh : list Z) (d : Z)
    (rs : list Prediction) (t : Q) (v id : string)
    (r : Main.PredictionResponse) :
  Main.new_PredictionResponse s sh d rs t v id = Return r ->
  Main.success r = s /\ Main.detections_count r = d
  /\ Main.processing_time r = t /\ Main.request_id r = id.
Proof.
  unfold Main.new_PredictionResponse.
  destruct (for_each rs _) as [e|rs']; [discriminate|].
  cbn [bind]. intros H. injection H as <-. repeat split.
Qed.





(** *** Batches *)

Lemma validated_records (rs : list Prediction) :
  for_each rs (fun r => d <- Main.new_DetectionResult r ;; Return [d])
  = if forallb valid_confidence rs then Return rs
    else Raise (Exception "validation error for DetectionResult").
Proof.
  induction rs as [|r rs IH]; [reflexivity|].
  simpl. unfold Main.new_DetectionResult at 1.
  fold (valid_confidence r).
  destruct (valid_confidence r); [|reflexivity].
  cbn [bind andb]. rewrite IH.
  destruct (forallb valid_confidence rs); reflexivity.
Qed.

(** One turn of the loop of [predict_batch] always appends exactly one
    entry; the entry reports success exactly when the upload, taken alone,
    goes through. *)
Lemma predict_batch_item_entry (env : Main.Env)
    (p : RoadSignInferencePipeline) (rid : string) (i : nat)
    (f : Main.UploadFile) (st : Main.State) :
  exists (st' : Main.State) (e : Main.BatchEntry),
    Main.predict_batch_item env p rid i f st = (st', Return [e])
    /\ entry_success e = upload_ok env p f
    /\ entry_request_id e = item_id rid i.
Proof.
  unfold Main.predict_batch_item, upload_ok. fold (item_id rid i).
  unfold Main.try_exceptM. unfold Main.bindM at 1.
  destruct (process_uploaded_file_cases env f st)
    as [[image [Ht [Hd E]]] | [s' [detail [Hc [E _]]]]]; rewrite E; clear E.
  2:{ unfold Main.bindM, Main.logger, Main.ret. do 2 eexists.
      split; [reflexivity|]. split; [|reflexivity].
      destruct Hc as [Ht | [e Hd]].
      - rewrite Ht. reflexivity.
      - rewrite Hd. rewrite andb_false_r. reflexivity. }
  rewrite Ht, Hd. cbn [andb].
  unfold Main.bindM at 1. rewrite pipeline_predict_image_run.
  destruct (frame _ p (Array image)) as [e|[[sh ds] rs]].
  { unfold Main.bindM, Main.lift, Main.ret. cbn.
    do 2 eexists. split; [reflexivity|]. split; reflexivity. }
  unfold Main.bindM at 1. unfold Main.bindM at 1.
  unfold Main.update_stats at 1. unfold Main.lift at 1.
  unfold Main.new_PredictionResponse. rewrite validated_records.
  destruct (forallb valid_confidence rs).
  - cbn [bind]. unfold Main.ret. do 2 eexists.
    split; [reflexivity|]. split; reflexivity.
  - cbn [bind]. unfold Main.bindM, Main.logger, Main.ret. do 2 eexists.
    split; [reflexivity|]. split; reflexivity.
Qed.

Lemma predict_batch_loop (env : Main.Env) (p : RoadSignInferencePipeline)
    (rid : string) (files : list Main.UploadFile) :
  forall (k : nat) (st : Main.State),
  exists (st' : Main.State) (entries : list Main.BatchEntry),
    Main.for_eachM (combine (seq k (length files)) files)
      (fun ifile =>
         Main.predict_batch_item env p rid (fst ifile) (snd ifile)) st
    = (st', Return entries)
    /\ length entries = length files
    /\ forall (i : nat) (f : Main.UploadFile),
         nth_error files i = Some f ->
         exists e : Main.BatchEntry,
           nth_error entries i = Some e
           /\ entry_success e = upload_ok env p f
           /\ entry_request_id e = item_id rid (k + i).
Proof.
  induction files as [|f files IH]; intros k st.
  - exists st, []. split; [reflexivity|]. split; [reflexivity|].
    intros [|i] g H; discriminate.
  - simpl. unfold Main.bindM at 1. cbn [fst snd].
    destruct (predict_batch_item_entry env p rid k f st)
      as [st1 [e [E [Hs Hi]]]].
    rewrite E. unfold Main.bindM at 1.
    destruct (IH (S k) st1) as [st2 [entries [E2 [Hl Hn]]]].
    rewrite E2. unfold Main.ret.
    exists st2, (e :: entries). split; [reflexivity|].
    split; [simpl; congruence|].
    intros [|i] g H; simpl in H.
    + injection H as <-. exists e. rewrite Nat.add_0_r. repeat split; auto.
    + destruct (Hn i g H) as [e' [H1 [H2 H3]]]. exists e'.
      replace (k + S i)%nat with (S k + i)%nat by lia. repeat split; auto.
Qed.

(** When the service holds a pipeline object, a batch of more than 10
    uploads is refused with an HTTP 400 and nothing else happens (the
    state, log and clock included, is unchanged); a batch of at most 10
    returns one entry per upload, in the order of the uploads, the entry at
    index i carrying the identifier of index i and reporting success
    exactly when upload i, taken alone, goes through. *)
Lemma predict_batch_isolates :
  forall (env : Main.Env) (st : Main.State) (p : RoadSignInferencePipeline)
         (files : list Main.UploadFile),
    Main.pipeline st = Some p ->
    (10 < len files ->
     Main.predict_batch env files st
     = (st, Raise (HTTPException 400 "Maximum 10 images par batch")))
    /\ (len files <= 10 ->
        exists (st' : Main.State) (entries : list Main.BatchEntry),
          Main.predict_batch env files st = (st', Return entries)
          /\ length entries = length files
          /\ forall (i : nat) (f : Main.UploadFile),
               nth_error files i = Some f ->
               exists e : Main.BatchEntry,
                 nth_error entries i = Some e
                 /\ entry_success e = upload_ok env p f
                 /\ entry_request_id e
                    = item_id (Main.uuid_at env (Main.ticks st)) i).
Proof.
  intros env st p files Hp. unfold Main.predict_batch. rewrite Hp. split.
  - intros H. apply Z.ltb_lt in H. rewrite H. reflexivity.
  - intros H. apply Z.ltb_ge in H. rewrite H.
    unfold Main.bindM at 1. unfold Main.uuid4 at 1.
    unfold Main.bindM at 1. unfold Main.logger at 1.
    unfold Main.bindM at 1. unfold enumerate.
    match goal with
    | |- context [Main.for_eachM _ _ ?s] =>
        destruct (predict_batch_loop env p
                    (Main.uuid_at env (Main.ticks st)) files 0 s)
          as [st1 [entries [E [Hl Hn]]]]
    end.
    rewrite E. unfold Main.bindM, Main.logger, Main.ret.
    do 2 eexists. split; [reflexivity|]. split; [assumption|].
    exact Hn.
Qed.

Lemma predict_batch_isolates_witness :
  (10 < len [jpeg; corrupted; jpeg] ->
   Main.predict_batch mock_service [jpeg; corrupted; jpeg]
     (serving (Some loaded_pipeline))
   = (serving (Some loaded_pipeline),
      Raise (HTTPException 400 "Maximum 10 images par batch")))
  /\ (len [jpeg; corrupted; jpeg] <= 10 ->
      exists (st' : Main.State) (entries : list Main.BatchEntry),
        Main.predict_batch mock_service [jpeg; corrupted; jpeg]
          (serving (Some loaded_pipeline))
        = (st', Return entries)
        /\ length entries = length [jpeg; corrupted; jpeg]
        /\ forall (i : nat) (f : Main.UploadFile),
             nth_error [jpeg; corrupted; jpeg] i = Some f ->
             exists e : Main.BatchEntry,
               nth_error entries i = Some e
               /\ entry_success e = upload_ok mock_service loaded_pipeline f
               /\ entry_request_id e
                  = item_id (Main.uuid_at mock_service
                               (Main.ticks (serving (Some loaded_pipeline))))
                      i).
Proof.
  apply (predict_batch_isolates mock_service (serving (Some loaded_pipeline))
           loaded_pipeline [jpeg; corrupted; jpeg]).
  reflexivity.
Defined.

(** A corrupted upload between two good ones: one failure entry in the
    middle, two successes around it. *)
Example predict_batch_corrupted_middle :
  option_map (map entry_success)
    (match snd (Main.predict_batch mock_service [jpeg; corrupted; jpeg]
                  (serving (Some loaded_pipeline))) with
     | Return entries => Some entries
     | Raise _ => None
     end)
  = Some [true; false; true].
Proof. reflexivity. Qed.

(** C10.  The limit of 10 uploads is tested after the pipeline object:
    a service that holds none, as the module is when it has just been
    imported, answers every batch with an HTTP 503, the batches of more
    than 10 uploads included, where the claim and the test
    [test_predict_batch_endpoint_too_many_files] (15 uploads, no pipeline
    object installed) expect the HTTP 400 "Maximum 10 images par batch".
    Nothing else happens: the state is unchanged. *)
Theorem predict_batch_unavailable :
  forall (env : Main.Env) (now : Q) (files : list Main.UploadFile),
    Main.predict_batch env files (Main.initial now)
    = (Main.initial now,
       Raise (HTTPException 503
                "Pipeline ML non initialise - service indisponible"))
    /\ snd (Main.predict_batch env files (Main.initial now))
       <> Raise (HTTPException 400 "Maximum 10 images par batch")
    /\ 10 < len (repeat jpeg 15).
Proof.
  intros env now files.
  split; [reflexivity|]. split; [discriminate | reflexivity].
Qed.

(** * Further properties *)

(** *** Loading and construction *)

(** [load_models] asks for the weights at the given path when the path is
    not empty and exists, and for the default architecture otherwise.  When
    the detector is built the object holds it and the answer is true; when
    it is not, the object is left as it was and the answer is false. *)
Lemma load_models_outcome (env : Env) (self : RoadSignInferencePipeline)
    (yolo_model_path : option string) :
  load_models env self yolo_model_path
  = match new_YOLO env (weights env self yolo_model_path) with
    | Return m =>
        ({| self_config := self_config self; yolo_model := Some m |}, true)
    | Raise _ => (self, false)
    end.
Proof.
  unfold load_models, weights.
  destruct yolo_model_path as [p|];
    [destruct (negb (String.eqb p "") && path_exists env p)%bool|];
    destruct (new_YOLO env _); reflexivity.
Qed.

(** X1.  Constructing the pipeline object succeeds exactly when the
    configuration loads and the tracker accepts the experiment; whether the
    detector loads plays no part.  The object built holds the loaded
    configuration, and a detector exactly when the weights could be
    loaded. *)
Theorem init_outcome :
  forall (env : Env) (yolo_model_path : option string) (config_path : string),
    match safe_load env config_path,
          set_experiment (mlflow env) "RoadSign_E2E_Pipeline" with
    | Return cfg, Return _ =>
        exists self,
          __init__ env yolo_model_path config_path = Return self
          /\ self_config self = cfg
          /\ (yolo_model self = None <->
              exists e,
                new_YOLO env
                  (weights env {| self_config := cfg; yolo_model := None |}
                     yolo_model_path) = Raise e)
    | Raise e, _ => __init__ env yolo_model_path config_path = Raise e
    | Return _, Raise e => __init__ env yolo_model_path config_path = Raise e
    end.
Proof.
  intros env path config_path. unfold __init__.
  destruct (safe_load env config_path) as [e|cfg]; [reflexivity|].
  cbn [bind]. rewrite load_models_outcome.
  destruct (set_experiment (mlflow env) _) as [e|[]];
    destruct (new_YOLO env _) as [e'|m]; try reflexivity; cbn [bind];
    eexists; (split; [reflexivity|]); (split; [reflexivity|]);
    cbn [yolo_model]; split; eauto; try discriminate.
  intros [e H]. discriminate.
Qed.

(** *** Preprocessing and detection *)

Lemma size_height_width (a : ndarray) :
  size a <> 0 -> 0 < height a /\ 0 < width a.
Proof.
  unfold size, height, width.
  destruct a as [rows|rows]; simpl;
    pose proof (len_nonneg rows) as Hr;
    (assert (Hw : 0 <= width_of rows)
       by (destruct rows; simpl; [lia | apply len_nonneg]));
    intros Hs; split; nia.
Qed.

(** X2.  [preprocess_image] never returns an empty image: what it returns
    has at least one row and one column.  An array is returned as it is, a
    path gives what the image library read, a PIL image its converted
    array; an empty array is refused with a [ValueError]. *)
Theorem preprocess_image_not_empty :
  forall (env : Env) (image : image_input),
    match preprocess_image env image with
    | Return img =>
        0 < height img /\ 0 < width img
        /\ match image with
           | Path p => imread (cv2 env) p = Some img
           | PILImage a => cvtColor_RGB2BGR (cv2 env) a = Return img
           | Array a => a = img
           end
    | Raise e =>
        match image with
        | Array a => size a = 0 /\ e = ValueError "Image invalide ou vide"
        | Path p =>
            imread (cv2 env) p = None
            \/ e = ValueError "Image invalide ou vide"
        | PILImage a =>
            cvtColor_RGB2BGR (cv2 env) a = Raise e
            \/ e = ValueError "Image invalide ou vide"
        end
    end.
Proof.
  intros env image. unfold preprocess_image.
  destruct image as [p|a|a].
  - destruct (imread (cv2 env) p) as [img|]; cbn [bind]; [|auto].
    destruct (Z.eqb_spec (size img) 0) as [E|E]; [auto|].
    destruct (size_height_width img E). auto.
  - destruct (cvtColor_RGB2BGR (cv2 env) a) as [e|img]; cbn [bind]; [auto|].
    destruct (Z.eqb_spec (size img) 0) as [E|E]; [auto|].
    destruct (size_height_width img E). auto.
  - cbn [bind]. destruct (Z.eqb_spec (size a) 0) as [E|E]; [auto|].
    destruct (size_height_width a E). auto.
Qed.

(** On floats and the shape of an array the validator always answers. *)
Lemma validate_detection_on_shape (self : RoadSignInferencePipeline)
    (x1 y1 x2 y2 : Q) (image : ndarray) :
  exists ok,
    _validate_detection self (Float (Finite x1)) (Float (Finite y1))
      (Float (Finite x2)) (Float (Finite y2)) (shape image) = Return ok.
Proof.
  unfold _validate_detection.
  assert (E : slice (shape image) 0 2 = [height image; width image])
    by (destruct image; reflexivity).
  rewrite E.
  destruct (_ || _)%bool; [eauto|].
  cbn [num_sub num_mul as_float bind].
  set (dx := fsub (Finite x2) (Finite x1)).
  set (dy := fsub (Finite y2) (Finite y1)).
  destruct (num_lt _ _); [eauto|].
  destruct (num_gt (Float dy) (Int 0)) eqn:G.
  - unfold num_truediv. cbn [as_float].
    destruct (is_zero dy) eqn:Z.
    + exfalso. destruct dy as [q| | |]; try discriminate.
      unfold num_gt, num_lt in G. cbn [exact flt] in G.
      apply Qlt_bool_true in G. cbn [is_zero] in Z.
      apply Qeq_bool_iff in Z. rewrite Z in G. discriminate.
    + clear G. cbn [bind]. destruct (num_gt _ _); eauto.
  - clear G. cbn [bind]. destruct (num_gt _ _); eauto.
Qed.

Lemma for_each_cons {A B} (body : A -> result (list B)) (x : A)
    (xs : list A) :
  for_each (x :: xs) body
  = (ys <- body x ;; zs <- for_each xs body ;; Return (ys ++ zs)).
Proof. reflexivity. Qed.

Lemma for_each_app {A B} (body : A -> result (list B)) (xs ys : list A)
    (us vs : list B) :
  for_each xs body = Return us -> for_each ys body = Return vs ->
  for_each (xs ++ ys) body = Return (us ++ vs).
Proof.
  revert us. induction xs as [|x xs IH]; simpl; intros us Hx Hy.
  - injection Hx as <-. assumption.
  - destruct (body x) as [e|u]; [discriminate|]. cbn [bind] in *.
    destruct (for_each xs body) as [e|us']; [discriminate|].
    cbn [bind] in *. injection Hx as <-.
    rewrite (IH us' eq_refl Hy). cbn [bind]. rewrite app_assoc. reflexivity.
Qed.

Lemma detect_boxes (self : RoadSignInferencePipeline) (m : YOLO)
    (image : ndarray) (boxes : list Box) :
  for_each boxes (fun box =>
    let '(x1, y1, x2, y2) := xyxy box in
    let confidence := conf box in
    let class_id := int (cls box) in
    ok <- _validate_detection self (Float (Finite x1)) (Float (Finite y1))
            (Float (Finite x2)) (Float (Finite y2)) (shape image) ;;
    if ok : bool then
      Return [{| bbox := (int x1, int y1, int x2, int y2);
                 confidence := confidence;
                 class_id := class_id;
                 class_name :=
                   get (names m class_id)
                       ("class_" ++ str_int class_id)%string |}]
    else Return [])
  = Return (map (detection_of m) (filter (accepted self (shape image)) boxes)).
Proof.
  induction boxes as [|box boxes IH]; [reflexivity|].
  rewrite for_each_cons, IH. clear IH.
  destruct (xyxy box) as [[[x1 y1] x2] y2] eqn:Ex.
  destruct (validate_detection_on_shape self x1 y1 x2 y2 image) as [ok E].
  assert (Ha : accepted self (shape image) box = ok)
    by (unfold accepted; rewrite Ex, E; reflexivity).
  assert (Hd : detection_of m box
               = {| bbox := (int x1, int y1, int x2, int y2);
                    confidence := conf box;
                    class_id := int (cls box);
                    class_name :=
                      get (names m (int (cls box)))
                          ("class_" ++ str_int (int (cls box)))%string |})
    by (unfold detection_of; rewrite Ex; reflexivity).
  simpl filter. rewrite Ha, E. cbn [bind].
  destruct ok; [|reflexivity]. cbn [map app]. rewrite Hd. reflexivity.
Qed.

Lemma detect_road_signs_boxes (self : RoadSignInferencePipeline) (m : YOLO)
    (image : ndarray) (results : list (option (list Box))) :
  yolo_model self = Some m ->
  call m image
    (detection_min (confidence_thresholds (pipeline_config self)))
    (detection_nms (confidence_thresholds (pipeline_config self)))
  = Return results ->
  detect_road_signs self image
  = Return (map (detection_of m)
              (filter (accepted self (shape image)) (all_boxes results))).
Proof.
  intros Hm Hc.
  unfold detect_road_signs. rewrite Hm, Hc. cbn [bind]. clear Hc.
  induction results as [|boxes results IH]; [reflexivity|].
  rewrite for_each_cons, IH.
  destruct boxes as [boxes|]; cbn [all_boxes flat_map].
  - rewrite detect_boxes. cbn [bind].
    rewrite filter_app, map_app. reflexivity.
  - reflexivity.
Qed.

(** X3.  When a detector is loaded and answers, [detect_road_signs] returns
    the boxes the validator accepts, each turned into a detection, in the
    order the detector gave them; the rejected ones are dropped without an
    error.  In particular there are never more detections than boxes. *)
Theorem detect_road_signs_filters :
  forall (self : RoadSignInferencePipeline) (m : YOLO) (image : ndarray)
         (results : list (option (list Box))),
    yolo_model self = Some m ->
    call m image
      (detection_min (confidence_thresholds (pipeline_config self)))
      (detection_nms (confidence_thresholds (pipeline_config self)))
    = Return results ->
    exists detections : list Detection,
      detect_road_signs self image = Return detections
      /\ detections
         = map (detection_of m)
             (filter (accepted self (shape image)) (all_boxes results))
      /\ len detections <= len (all_boxes results).
Proof.
  intros self m image results Hm Hc. eexists.
  split; [apply (detect_road_signs_boxes self m image results Hm Hc)|].
  split; [reflexivity|].
  unfold len. rewrite length_map. apply inj_le, filter_length_le.
Qed.

Lemma detect_road_signs_filters_witness :
  exists detections : list Detection,
    detect_road_signs loaded_pipeline black_image = Return detections
    /\ detections
       = map (detection_of mock_yolo)
           (filter (accepted loaded_pipeline (shape black_image))
              (all_boxes sign_boxes))
    /\ len detections <= len (all_boxes sign_boxes).
Proof.
  apply (detect_road_signs_filters loaded_pipeline mock_yolo black_image
           sign_boxes).
  - reflexivity.
  - reflexivity.
Defined.

Lemma int_le_bound (q : Q) (n : Z) :
  (0 <= q)%Q -> (q <= inject_Z n)%Q -> int q <= n.
Proof.
  intros H0 H. rewrite int_nonneg_floor by assumption.
  rewrite <- (Qfloor_Z n). apply Qfloor_resp_le. assumption.
Qed.

Lemma accepted_inside (self : RoadSignInferencePipeline) (m : YOLO)
    (image : ndarray) (box : Box) :
  accepted self (shape image) box = true ->
  inside (height image) (width image) (bbox (detection_of m box)) = true.
Proof.
  unfold accepted, detection_of, _validate_detection.
  assert (E : slice (shape image) 0 2 = [height image; width image])
    by (destruct image; reflexivity).
  rewrite E. clear E.
  destruct (xyxy box) as [[[x1 y1] x2] y2]. cbn [bbox inside].
  unfold num_gt, num_ge, num_le, num_lt. cbn [exact flt fle].
  change (inject_Z 0) with 0%Q.
  destruct (Qlt_bool x1 0) eqn:E1; [discriminate|].
  destruct (Qlt_bool y1 0) eqn:E2; [discriminate|].
  destruct (Qlt_bool (inject_Z (width image)) x2) eqn:E3; [discriminate|].
  destruct (Qlt_bool (inject_Z (height image)) y2) eqn:E4; [discriminate|].
  destruct (Qle_bool x2 x1) eqn:E5; [discriminate|].
  destruct (Qle_bool y2 y1) eqn:E6; [discriminate|].
  intros _.
  apply Qlt_bool_false in E1, E2, E3, E4. apply Qle_bool_false in E5, E6.
  apply Qlt_le_weak in E5, E6.
  pose proof (int_nonneg x1 E1). pose proof (int_nonneg y1 E2).
  pose proof (int_monotone x1 x2 E1 E5).
  pose proof (int_monotone y1 y2 E2 E6).
  pose proof (int_le_bound x2 (width image) (Qle_trans _ _ _ E1 E5) E3).
  pose proof (int_le_bound y2 (height image) (Qle_trans _ _ _ E2 E6) E4).
  rewrite !andb_true_iff, !Z.leb_le. lia.
Qed.

(** X4.  Every detection [detect_road_signs] returns has its box inside
    the image, corners in order: [0 <= x1 <= x2 <= width] and
    [0 <= y1 <= y2 <= height], whatever the detector answered.  (The two
    corners may coincide: the integer box is the truncation of an accepted
    one.) *)
Theorem detections_inside_image :
  forall (self : RoadSignInferencePipeline) (image : ndarray)
         (detections : list Detection),
    detect_road_signs self image = Return detections ->
    forallb (fun d => inside (height image) (width image) (bbox d))
            detections = true.
Proof.
  intros self image ds H.
  destruct (yolo_model self) as [m|] eqn:Hm;
    [|unfold detect_road_signs in H; rewrite Hm in H; discriminate].
  destruct (call m image
              (detection_min (confidence_thresholds (pipeline_config self)))
              (detection_nms (confidence_thresholds (pipeline_config self))))
    as [e|results] eqn:Hc;
    [unfold detect_road_signs in H; rewrite Hm, Hc in H; discriminate|].
  rewrite (detect_road_signs_boxes self m image results Hm Hc) in H. injection H as <-.
  apply forallb_forall. intros d Hd.
  apply in_map_iff in Hd. destruct Hd as [box [<- Hb]].
  apply filter_In in Hb. destruct Hb as [_ Hb].
  exact (accepted_inside self m image box Hb).
Qed.

Lemma detections_inside_image_witness :
  forallb (fun d => inside (height black_image) (width black_image) (bbox d))
          (map (detection_of mock_yolo)
             (filter (accepted loaded_pipeline (shape black_image))
                (all_boxes sign_boxes))) = true.
Proof.
  apply (detections_inside_image loaded_pipeline black_image).
  reflexivity.
Defined.

(** X5.  Without a detector every image that can be preprocessed is
    answered with the error dictionary "Modele YOLO non charge": the call
    returns, count 0 and no records. *)
Theorem predict_image_without_detector :
  forall (env : Env) (self : RoadSignInferencePipeline) (image : image_input)
         (img : ndarray) (start_time end_time : Q),
    yolo_model self = None ->
    preprocess_image env image = Return img ->
    predict_image env self image start_time end_time
    = Return (Error "Modele YOLO non charge" 0 [] (end_time - start_time)).
Proof.
  intros env self image img t0 t1 Hm Hp.
  unfold predict_image, detect_road_signs. rewrite Hp, Hm. reflexivity.
Qed.

Lemma predict_image_without_detector_witness :
  predict_image (mock_env (fun _ _ => Return stop_data)) mock_pipeline
    (Array black_image) 0 1
  = Return (Error "Modele YOLO non charge" 0 [] (1 - 0)).
Proof.
  apply (predict_image_without_detector
           (mock_env (fun _ _ => Return stop_data)) mock_pipeline
           (Array black_image) black_image 0 1).
  - reflexivity.
  - reflexivity.
Defined.

(** *** Region extraction *)

Lemma pad_of_moderate (n : Z) (ratio : number) :
  0 < n -> n < 2 ^ 53 -> moderate ratio = true ->
  num_gt ratio (Int 0) = true ->
  exists p : Z,
    (p <- num_mul (Int n) ratio ;; to_int p) = Return p /\ 0 <= p.
Proof.
  intros Hn H Hm Hpos. destruct ratio as [k|[q| | |]]; try discriminate.
  - exists (n * k). split; [reflexivity|].
    unfold num_gt, num_lt in Hpos. cbn [exact flt] in Hpos.
    apply Qlt_bool_true in Hpos. rewrite <- Zlt_Qlt in Hpos. nia.
  - cbn [moderate] in Hm. apply Qlt_bool_true in Hm.
    destruct (pad_returns n q Hn H Hm Hpos) as [E [_ P]]. eauto.
Qed.

(** X6.  For an image of fewer than [2 ^ 53] rows and columns, a box inside
    it, and a padding ratio that is an int or a float below [2 ^ 970], the
    extraction returns, and the region is never smaller than the box and
    never larger than the image, in rows and in columns, and it is again a
    full rectangle of pixels. *)
Theorem extract_roi_keeps_box :
  forall (self : RoadSignInferencePipeline) (image : ndarray)
         (h w x1 y1 x2 y2 : Z),
    rectangular image h w = true ->
    h < 2 ^ 53 -> w < 2 ^ 53 ->
    0 <= x1 -> x1 < x2 -> x2 <= w ->
    0 <= y1 -> y1 < y2 -> y2 <= h ->
    moderate (padding_ratio (roi (pipeline_config self))) = true ->
    exists roi : ndarray,
      extract_roi self image (x1, y1, x2, y2) = Return roi
      /\ y2 - y1 <= height roi <= h
      /\ x2 - x1 <= width roi <= w
      /\ rectangular roi (height roi) (width roi) = true.
Proof.
  intros self image h w x1 y1 x2 y2 R Hh Hw Hx1 Hx Hx2 Hy1 Hy Hy2 Hm.
  assert (Hp : exists pad_w pad_h : Z,
    0 <= pad_w /\ 0 <= pad_h
    /\ extract_roi self image (x1, y1, x2, y2)
       = Return (slice2d image (Z.max 0 (y1 - pad_h)) (Z.min h (y2 + pad_h))
                   (Z.max 0 (x1 - pad_w)) (Z.min w (x2 + pad_w)))).
  { destruct (num_gt (padding_ratio (roi (pipeline_config self))) (Int 0))
      eqn:G.
    - destruct (pad_of_moderate (x2 - x1) _ ltac:(lia) ltac:(lia) Hm G)
        as [pw [Ew Pw]].
      destruct (pad_of_moderate (y2 - y1) _ ltac:(lia) ltac:(lia) Hm G)
        as [ph [Eh Ph]].
      exists pw, ph. split; [assumption|]. split; [assumption|].
      apply (extract_roi_padded self image h w x1 y1 x2 y2 pw ph);
        try lia; try assumption.
      rewrite G. split; assumption.
    - exists 0, 0. split; [lia|]. split; [lia|].
      apply (extract_roi_padded self image h w x1 y1 x2 y2 0 0);
        try lia; try assumption.
      rewrite G. split; reflexivity. }
  destruct Hp as [pw [ph [Pw [Ph E]]]].
  eexists. split; [exact E|].
  destruct (shape_padded image h w x1 y1 x2 y2 pw ph R) as [E0 [E1 R']];
    try assumption.
  unfold height, width. rewrite E0, E1.
  split; [lia|]. split; [lia|]. exact R'.
Qed.

Lemma extract_roi_keeps_box_witness :
  exists roi : ndarray,
    extract_roi mock_pipeline sample_image (1, 1, 3, 2) = Return roi
    /\ 2 - 1 <= height roi <= 3
    /\ 3 - 1 <= width roi <= 4
    /\ rectangular roi (height roi) (width roi) = true.
Proof.
  apply (extract_roi_keeps_box mock_pipeline sample_image 3 4 1 1 3 2).
  - reflexivity.
  - reflexivity.
  - reflexivity.
  - lia.
  - lia.
  - lia.
  - lia.
  - lia.
  - lia.
  - vm_compute. reflexivity.
Defined.

(** The product is rounded before it is truncated: 10 pixels at the ratio
    0.7, a double just below 7/10, are padded by 7 pixels. *)
Example pad_rounds_product :
  pad 10 (Float (round64 (7 # 10))) = 7
  /\ int (inject_Z 10 * nearest (7 # 10)) = 6.
Proof. split; vm_compute; reflexivity. Qed.

(** *** Recognition *)


Lemma Qsum_inject_Z (cs : list Z) :
  forall (a : Q) (z : Z),
    (a == inject_Z z)%Q ->
    (fold_left Qplus (map inject_Z cs) a
     == inject_Z (fold_left Z.add cs z))%Q.
Proof.
  induction cs as [|c cs IH]; intros a z H; simpl; [assumption|].
  apply IH. rewrite H, inject_Z_plus. reflexivity.
Qed.

Lemma Zsum_bounds (cs : list Z) :
  Forall (fun c => 0 < c <= 100) cs ->
  forall z, z <= fold_left Z.add cs z <= z + 100 * len cs.
Proof.
  unfold len. induction 1 as [|c cs Hc Hcs IH]; intros z; simpl length.
  - simpl. lia.
  - simpl fold_left. specialize (IH (z + c)). lia.
Qed.

(** The mean of confidences between 1 and 100, divided by 100, is between
    0 and 1. *)
Lemma scaled_mean_range (cs : list Z) :
  Forall (fun c => 0 < c <= 100) cs ->
  (0 <= match np_mean (map inject_Z cs) with
        | Some mean => mean / 100
        | None => 0
        end <= 1)%Q.
Proof.
  intros H. destruct cs as [|c cs].
  { simpl. split; [apply Qle_refl | discriminate]. }
  remember (c :: cs) as l eqn:El.
  assert (Hn : 0 < len l) by (subst l; unfold len; simpl length; lia).
  unfold np_mean.
  destruct (map inject_Z l) as [|q qs] eqn:Em; [subst l; discriminate|].
  rewrite <- Em. unfold Qsum.
  assert (Hl : len (map inject_Z l) = len l)
    by (unfold len; rewrite length_map; reflexivity).
  rewrite Hl.
  rewrite (Qsum_inject_Z l 0 0) by reflexivity.
  pose proof (Zsum_bounds l H 0) as B.
  set (s := fold_left Z.add l 0) in *.
  assert (Hq : (0 < inject_Z (len l))%Q)
    by (change 0%Q with (inject_Z 0); rewrite <- Zlt_Qlt; assumption).
  split.
  - apply Qle_shift_div_l; [reflexivity|]. rewrite Qmult_0_l.
    apply Qle_shift_div_l; [assumption|]. rewrite Qmult_0_l.
    change 0%Q with (inject_Z 0). rewrite <- Zle_Qle. lia.
  - apply Qle_shift_div_r; [reflexivity|]. rewrite Qmult_1_l.
    apply Qle_shift_div_r; [assumption|].
    change 100%Q with (inject_Z 100). rewrite <- inject_Z_mult, <- Zle_Qle.
    lia.
Qed.

(** What the loop of [recognize_text] keeps: words that are not empty, with
    a confidence above zero taken from the confidence column. *)
Lemma kept_from_column (column : list Z) (items : list (nat * str)) :
  forall kept : list (str * Z),
    for_each items
      (fun iw : nat * str =>
         let '(i, word) := iw in
         if truthy (strip word) then
           match nth_error column i with
           | None => Raise (IndexError "list index out of range")
           | Some conf =>
               if 0 <? conf then Return [(strip word, conf)] else Return []
           end
         else Return [])
    = Return kept ->
    Forall (fun wc => fst wc <> [] /\ 0 < snd wc /\ In (snd wc) column) kept.
Proof.
  induction items as [|[i w] items IH]; intros kept H.
  - injection H as <-. constructor.
  - rewrite for_each_cons in H.
    destruct (truthy (strip w)) eqn:Ew.
    + destruct (nth_error column i) as [c|] eqn:Ec; [|discriminate].
      destruct (Z.ltb_spec 0 c) as [Hc|Hc]; cbn [bind] in H.
      * destruct (for_each items _) as [e|rest]; [discriminate|].
        cbn [bind] in H. injection H as <-.
        constructor; [|apply IH; reflexivity].
        cbn [fst snd]. split; [|split; [assumption|]].
        -- destruct (strip w); [discriminate | discriminate].
        -- eapply nth_error_In. eassumption.
      * destruct (for_each items _) as [e|rest]; [discriminate|].
        cbn [bind] in H. injection H as <-. apply IH. reflexivity.
    + cbn [bind] in H.
      destruct (for_each items _) as [e|rest]; [discriminate|].
      cbn [bind] in H. injection H as <-. apply IH. reflexivity.
Qed.

Lemma join_nonempty (ws : list str) :
  Forall (fun w => w <> []) ws -> ws <> [] -> join (py " ") ws <> [].
Proof.
  intros H Hn. destruct ws as [|w ws]; [congruence|].
  inversion H as [|? ? Hw _]; subst.
  destruct w as [|c w]; [congruence|].
  destruct ws; simpl; discriminate.
Qed.

(** X8.  When the engine gives no confidence above 100, [recognize_text]
    returns a confidence between 0 and 1 and a word count that is not
    negative, for every configuration and whether or not the engine or the
    normaliser fails.  The raw text is empty exactly when no word was
    counted, and then the text is empty and the confidence zero. *)
Theorem recognize_text_confidence_range :
  forall (env : Env) (self : RoadSignInferencePipeline) (roi : ndarray),
    match image_to_data (pytesseract env) roi
            (config (tesseract (ocr_config self))) with
    | Return data => forallb (fun c => c <=? 100) (data_conf data) = true
    | Raise _ => True
    end ->
    exists r : OcrResult,
      recognize_text env self roi = Return r
      /\ (0 <= ocr_confidence r <= 1)%Q
      /\ 0 <= word_count r
      /\ (word_count r = 0 <-> raw_text r = [])
      /\ (raw_text r = [] -> text r = [] /\ (ocr_confidence r == 0)%Q).
Proof.
  intros env self roi Hdata.
  assert (Hempty :
    (0 <= ocr_confidence empty_result <= 1)%Q
    /\ 0 <= word_count empty_result
    /\ (word_count empty_result = 0 <-> raw_text empty_result = [])
    /\ (raw_text empty_result = [] ->
        text empty_result = [] /\ (ocr_confidence empty_result == 0)%Q)).
  { simpl. split; [split; [apply Qle_refl | discriminate]|].
    split; [lia|]. split; [tauto|]. intros _. split; reflexivity. }
  unfold recognize_text.
  destruct (image_to_data _ _ _) as [e|data]; [exists empty_result; auto|].
  cbn [bind].
  destruct (for_each (enumerate (data_text data)) _) as [e|kept] eqn:Ek;
    [exists empty_result; auto|].
  cbn [bind].
  pose proof (kept_from_column _ _ _ Ek) as Hk.
  set (text_parts := map fst kept).
  set (raw := if truthy text_parts then join (py " ") text_parts else []).
  destruct (_postprocess_text self raw) as [e|t] eqn:Ep;
    [exists empty_result; auto|].
  cbn [bind try_except]. eexists. split; [reflexivity|].
  cbn [ocr_confidence word_count raw_text text].
  assert (Hc : Forall (fun c => 0 < c <= 100) (map snd kept)).
  { apply Forall_map. eapply Forall_impl; [|exact Hk].
    intros [w c] [_ [Hpos Hin]]. cbn [snd] in *. split; [assumption|].
    rewrite forallb_forall in Hdata. apply Z.leb_le. auto. }
  assert (Hw : Forall (fun w => w <> []) text_parts).
  { apply Forall_map. eapply Forall_impl; [|exact Hk]. intros wc H. apply H. }
  split; [apply scaled_mean_range; assumption|].
  split; [apply len_nonneg|].
  assert (Hraw : raw = [] <-> kept = []).
  { unfold raw, text_parts in *. destruct kept as [|wc kept].
    - simpl. tauto.
    - split; [|discriminate]. intros H. exfalso.
      refine (join_nonempty (map fst (wc :: kept)) Hw _ H). discriminate. }
  split.
  - rewrite Hraw. unfold len, text_parts. rewrite length_map.
    destruct kept; simpl length; split; intros H;
      try reflexivity; try discriminate; lia.
  - intros H. apply Hraw in H. subst kept.
    unfold raw, text_parts in Ep. simpl in Ep. injection Ep as <-.
    split; reflexivity.
Qed.

Lemma recognize_text_confidence_range_witness :
  exists r : OcrResult,
    recognize_text (mock_env (fun _ _ => Return (table stop_ahead)))
      mock_pipeline sample_image = Return r
    /\ (0 <= ocr_confidence r <= 1)%Q
    /\ 0 <= word_count r
    /\ (word_count r = 0 <-> raw_text r = [])
    /\ (raw_text r = [] -> text r = [] /\ (ocr_confidence r == 0)%Q).
Proof.
  apply (recognize_text_confidence_range
           (mock_env (fun _ _ => Return (table stop_ahead))) mock_pipeline
           sample_image).
  reflexivity.
Defined.

(** *** Normalised text *)

Lemma first_known_pattern_listed (pats : list yaml) (x u : str) :
  first_known_pattern pats x = Some u ->
  exists p, In (YStr p) pats /\ u = upper p.
Proof.
  induction pats as [|[p|] pats IH]; simpl; intros H; try discriminate.
  - destruct (contains (upper x) (upper p)).
    + injection H as <-. eauto.
    + destruct (IH H) as [q [Hq ->]]. eauto.
  - destruct (IH H) as [q [Hq ->]]. eauto.
Qed.

(** X9.  Whatever the configuration, a text [_postprocess_text] returns is
    in upper case, and it is either one of the known patterns in upper case
    or a text whose words are separated by single spaces with none around
    them. *)
Theorem postprocess_text_shape :
  forall (self : RoadSignInferencePipeline) (s t : str),
    _postprocess_text self s = Return t ->
    upper t = t
    /\ (collapse t = t
        \/ exists p, In (YStr p) (patterns_of self) /\ t = upper p).
Proof.
  intros self s t. unfold _postprocess_text.
  destruct (negb (truthy s)).
  { intros H. injection H as <-. split; [reflexivity | left; reflexivity]. }
  fold (patterns_of self).
  destruct (if get (remove_special_chars (postprocessing (ocr_config self)))
                   false
            then re.sub (py "[^\w\s-/]") [] s else Return s)
    as [e|processed]; [discriminate|].
  cbn [bind]. fold (collapse processed).
  destruct (first_known_pattern (patterns_of self)
              (upper (collapse processed))) as [u|] eqn:E;
    intros H; injection H as <-.
  - split; [exact (first_known_pattern_upper _ _ _ E)|].
    right. exact (first_known_pattern_listed _ _ _ E).
  - split; [apply upper_idem|]. left.
    rewrite collapse_upper, collapse_idem. reflexivity.
Qed.

Lemma postprocess_text_shape_witness :
  upper (py "STOP") = py "STOP"
  /\ (collapse (py "STOP") = py "STOP"
      \/ exists p, In (YStr p) (patterns_of plain_pipeline)
                   /\ py "STOP" = upper p).
Proof.
  apply (postprocess_text_shape plain_pipeline (py "stop sign") (py "STOP")).
  reflexivity.
Defined.

(** *** The orchestrator, continued *)

(** X10.  The experiment tracker has no influence on a prediction:
    replacing it, by one that fails or by any other, leaves the result of
    [predict_image] the same. *)
Theorem predict_image_ignores_tracker :
  forall (env : Env) (tracker : mlflow_lib) (self : RoadSignInferencePipeline)
         (image : image_input) (start_time end_time : Q),
    predict_image (with_mlflow env tracker) self image start_time end_time
    = predict_image env self image start_time end_time.
Proof.
  intros env tracker self image t0 t1.
  rewrite !predict_image_frame. reflexivity.
Qed.

Lemma for_each_singletons {A B C} (f : A -> result C) (g : A -> C -> B)
    (xs : list A) :
  forall rs,
    for_each xs (fun x => c <- f x ;; Return [g x c]) = Return rs ->
    exists cs, length cs = length xs /\ rs = map (fun xc => g (fst xc) (snd xc))
                                               (combine xs cs).
Proof.
  induction xs as [|x xs IH]; intros rs H.
  - injection H as <-. exists []. split; reflexivity.
  - rewrite for_each_cons in H.
    destruct (f x) as [e|c]; [discriminate|]. cbn [bind] in H.
    destruct (for_each xs _) as [e|rest] eqn:E; [discriminate|].
    cbn [bind] in H. injection H as <-.
    destruct (IH rest eq_refl) as [cs [Hl ->]].
    exists (c :: cs). split; [simpl; congruence | reflexivity].
Qed.

(** X11.  In a successful result of [predict_image] the records are the
    detections of [detect_road_signs] on the preprocessed image, one record
    per detection and in the same order; the count is their number, and
    [has_text] of a record tells whether its recognised text is not
    empty. *)
Theorem predict_image_records :
  forall (env : Env) (self : RoadSignInferencePipeline) (image : image_input)
         (start_time end_time : Q) (image_shape : list Z)
         (detections_count : Z) (results : list Prediction)
         (processing_time : Q) (pipeline_version : string),
    predict_image env self image start_time end_time
    = Return (Success image_shape detections_count results processing_time
                pipeline_version) ->
    exists img,
      preprocess_image env image = Return img
      /\ image_shape = shape img
      /\ detect_road_signs self img = Return (map detection results)
      /\ detections_count = len results
      /\ forallb (fun r => Bool.eqb (has_text r) (truthy (text (ocr_ r))))
                 results = true.
Proof.
  intros env self image t0 t1 sh n rs t v. rewrite predict_image_frame.
  unfold frame.
  destruct (preprocess_image env image) as [e|img]; [discriminate|].
  cbn [bind].
  destruct (detect_road_signs self img) as [e|ds] eqn:Ed; [discriminate|].
  cbn [bind].
  destruct (for_each ds _) as [e|rs'] eqn:E; [discriminate|].
  cbn [bind]. intros H. injection H as <- <- <- <- <-.
  exists img. split; [reflexivity|]. split; [reflexivity|].
  assert (Hrs : map detection rs' = ds
                /\ forallb (fun r => Bool.eqb (has_text r)
                                       (truthy (text (ocr_ r)))) rs' = true).
  { clear -E. revert rs' E.
    induction ds as [|d ds IH]; intros rs E.
    - injection E as <-. split; reflexivity.
    - rewrite for_each_cons in E.
      destruct (extract_roi self img (bbox d)) as [e|region];
        [discriminate|].
      cbn [bind] in E.
      destruct (preprocess_roi_for_ocr env self _) as [e|roi];
        [discriminate|].
      cbn [bind] in E.
      destruct (recognize_text env self roi) as [e|o]; [discriminate|].
      cbn [bind] in E.
      destruct (for_each ds _) as [e|rest]; [discriminate|].
      cbn [bind] in E. injection E as <-.
      destruct (IH rest eq_refl) as [H1 H2].
      split; [simpl; rewrite H1; reflexivity|].
      simpl. rewrite H2, andb_true_r. unfold len.
      destruct (text o); reflexivity. }
  destruct Hrs as [H1 H2]. rewrite H1.
  split; [assumption|]. split; [|assumption].
  unfold len. rewrite <- H1, length_map. reflexivity.
Qed.

Lemma predict_image_records_witness :
  exists img,
    preprocess_image (mock_env (fun _ _ => Return (table stop_ahead)))
      (Array black_image) = Return img
    /\ [12; 12; 3] = shape img
    /\ detect_road_signs loaded_pipeline img
       = Return (map detection
                   [{| detection := detection_of mock_yolo
                                      {| xyxy := (1, 1, 11, 11)%Q;
                                         conf := 9 # 10; cls := 14 |};
                       ocr_ := empty_result;
                       has_text := false |}])
    /\ 1 = len [{| detection := detection_of mock_yolo
                                  {| xyxy := (1, 1, 11, 11)%Q;
                                     conf := 9 # 10; cls := 14 |};
                   ocr_ := empty_result;
                   has_text := false |}]
    /\ forallb (fun r => Bool.eqb (has_text r) (truthy (text (ocr_ r))))
               [{| detection := detection_of mock_yolo
                                  {| xyxy := (1, 1, 11, 11)%Q;
                                     conf := 9 # 10; cls := 14 |};
                   ocr_ := empty_result;
                   has_text := false |}] = true.
Proof.
  apply (predict_image_records
           (mock_env (fun _ _ => Return (table stop_ahead))) loaded_pipeline
           (Array black_image) 0 1 [12; 12; 3] 1
           [{| detection := detection_of mock_yolo
                              {| xyxy := (1, 1, 11, 11)%Q;
                                 conf := 9 # 10; cls := 14 |};
               ocr_ := empty_result;
               has_text := false |}]
           (1 - 0) "1.0.0").
  reflexivity.
Defined.

Lemma predict_image_returns (env : Env) (self : RoadSignInferencePipeline)
    (image : image_input) (t0 t1 : Q) :
  exists r,
    predict_image env self image t0 t1 = Return r
    /\ (has_error r = true <-> exists e, frame env self image = Raise e).
Proof.
  rewrite predict_image_frame.
  destruct (frame env self image) as [e|[[sh ds] rs]]; eexists;
    (split; [reflexivity|]); simpl; split; eauto; try discriminate.
  intros [e H]. discriminate.
Qed.

Lemma pipeline_predict_batch_loop (env : Env)
    (self : RoadSignInferencePipeline) (clock : nat -> Q)
    (images : list image_input) :
  forall k : nat,
  exists results : list FrameResult,
    for_each (combine (seq k (length images)) images)
      (fun iimage : nat * image_input =>
         let '(i, image) := iimage in
         result_ <- predict_image env self image (clock (2 * i)%nat)
                      (clock (2 * i + 1)%nat) ;;
         Return [result_])
    = Return results
    /\ length results = length images
    /\ forall (i : nat) (image : image_input),
         nth_error images i = Some image ->
         exists r,
           nth_error results i = Some r
           /\ predict_image env self image (clock (2 * (k + i))%nat)
                (clock (2 * (k + i) + 1)%nat) = Return r
           /\ (has_error r = true <->
               exists e, frame env self image = Raise e).
Proof.
  induction images as [|image images IH]; intros k.
  - exists []. split; [reflexivity|]. split; [reflexivity|].
    intros [|i] im H; discriminate.
  - simpl length. simpl seq. simpl combine. rewrite for_each_cons.
    destruct (IH (S k)) as [rest [E [Hl Hn]]]. rewrite E.
    destruct (predict_image_returns env self image (clock (2 * k)%nat)
                (clock (2 * k + 1)%nat)) as [r [Er Hr]].
    rewrite Er. cbn [bind app].
    exists (r :: rest). split; [reflexivity|].
    split; [simpl; congruence|].
    intros [|i] im H; simpl in H.
    + injection H as <-. exists r. rewrite Nat.add_0_r. auto.
    + destruct (Hn i im H) as [r' [H1 [H2 H3]]]. exists r'.
      replace (k + S i)%nat with (S k + i)%nat by lia. auto.
Qed.

(** X12.  [predict_batch] of the pipeline never raises and returns one
    result per image, in the order of the images: the result at index [i] is
    what [predict_image] gives for image [i], and it is the error dictionary
    exactly when the processing of that image raised. *)
Theorem pipeline_predict_batch_total :
  forall (env : Env) (self : RoadSignInferencePipeline)
         (images : list image_input) (clock : nat -> Q),
    exists results : list FrameResult,
      predict_batch env self images clock = Return results
      /\ length results = length images
      /\ forall (i : nat) (image : image_input),
           nth_error images i = Some image ->
           exists r,
             nth_error results i = Some r
             /\ predict_image env self image (clock (2 * i)%nat)
                  (clock (2 * i + 1)%nat) = Return r
             /\ (has_error r = true <->
                 exists e, frame env self image = Raise e).
Proof.
  intros env self images clock.
  exact (pipeline_predict_batch_loop env self clock images 0).
Qed.

(** *** Uploads *)

(** X13.  [process_uploaded_file] raises nothing but an HTTP 400.  An upload
    that is not declared as an image is refused without being read: the
    state is untouched.  One that does not decode is refused after an error
    record; the counters and the pipeline stay.  Otherwise the decoded image
    is returned and the state is untouched. *)
Theorem process_uploaded_file_outcome :
  forall (env : Main.Env) (f : Main.UploadFile) (st : Main.State),
    match Main.process_uploaded_file env f st with
    | (st', Return image) =>
        st' = st /\ image_type f = true
        /\ Main.decode env (Main.file f) = Return image
    | (st', Raise e) =>
        (exists detail, e = HTTPException 400 detail)
        /\ Main.app_stats st' = Main.app_stats st
        /\ Main.pipeline st' = Main.pipeline st
        /\ (if image_type f
            then exists e' record,
                Main.decode env (Main.file f) = Raise e'
                /\ Main.log st' = Main.log st ++ [(Main.ERROR, record)]
            else st' = st)
    end.
Proof.
  intros env f st. unfold Main.process_uploaded_file.
  change (match Main.content_type f with
          | Some ct =>
              (negb (String.eqb ct "") && String.prefix "image/" ct)%bool
          | None => false
          end) with (image_type f).
  destruct (image_type f); cbn [negb].
  - unfold Main.try_exceptM, Main.lift.
    destruct (Main.decode env (Main.file f)) as [e|image].
    + unfold Main.bindM, Main.logger, Main.raise. cbn.
      split; [eauto|]. split; [reflexivity|]. split; [reflexivity|]. eauto.
    + auto.
  - unfold Main.raise. split; [eauto|]. auto.
Qed.

Lemma readable_cases (env : Main.Env) (f : Main.UploadFile)
    (st : Main.State) :
  (readable env f = true
   /\ exists image,
        Main.decode env (Main.file f) = Return image
        /\ Main.process_uploaded_file env f st = (st, Return image))
  \/ (readable env f = false
      /\ exists st' detail,
           Main.process_uploaded_file env f st
           = (st', Raise (HTTPException 400 detail))
           /\ Main.app_stats st' = Main.app_stats st
           /\ Main.pipeline st' = Main.pipeline st).
Proof.
  unfold readable.
  destruct (process_uploaded_file_cases env f st)
    as [[image [Ht [Hd E]]] | [s' [detail [Hc [E [Hs [Hp _]]]]]]].
  - left. rewrite Ht, Hd. split; [reflexivity|]. eauto.
  - right. split; [|eauto 6].
    destruct Hc as [Ht | [e Hd]]; [rewrite Ht; reflexivity|].
    rewrite Hd. apply andb_false_r.
Qed.

(** *** The prediction endpoint *)

(** X14.  [POST /predict] raises nothing but an [HTTPException], with
    status 400, 500 or 503.  It is 503 exactly when the service holds no
    pipeline object, and then the state is untouched; it is 400 exactly when
    there is a pipeline object and the upload cannot be read.  A response,
    when there is one, reports success and carries the identifier drawn for
    the request. *)
Theorem predict_image_statuses :
  forall (env : Main.Env) (f : Main.UploadFile) (st : Main.State),
    match Main.predict_image env f st with
    | (st', Return r) =>
        Main.success r = true
        /\ Main.request_id r = Main.uuid_at env (Main.ticks st)
        /\ Main.pipeline st <> None
        /\ readable env f = true
    | (st', Raise e) =>
        exists code detail,
          e = HTTPException code detail
          /\ (code = 400 \/ code = 500 \/ code = 503)
          /\ (code = 503 <-> Main.pipeline st = None)
          /\ (code = 503 -> st' = st)
          /\ (code = 400 <->
              Main.pipeline st <> None /\ readable env f = false)
    end.
Proof.
  intros env f st. unfold Main.predict_image.
  destruct (Main.pipeline st) as [p|] eqn:Hp.
  2:{ unfold Main.raise. do 2 eexists. split; [reflexivity|].
      split; [auto|]. split; [tauto|]. split; [reflexivity|].
      split; [discriminate | intros [H _]; congruence]. }
  unfold Main.bindM at 1. unfold Main.uuid4 at 1.
  unfold Main.bindM at 1. unfold Main.time_time at 1.
  unfold Main.try_exceptM.
  unfold Main.bindM at 1. unfold Main.logger at 1.
  unfold Main.bindM at 1.
  match goal with
  | |- context [Main.process_uploaded_file env f ?s] =>
      destruct (readable_cases env f s)
        as [[Hr [image [_ E]]] | [Hr [s' [detail [E _]]]]];
      rewrite E; clear E
  end.
  2:{ unfold Main.raise. do 2 eexists. split; [reflexivity|].
      split; [auto|]. split; [split; [lia | discriminate]|].
      split; [lia|]. split; [intros _; split; [discriminate | assumption]
                            | reflexivity]. }
  unfold Main.bindM at 1. rewrite pipeline_predict_image_run.
  assert (Hcode : forall (s : Main.State) (d : string),
    exists code detail,
      HTTPException 500 d = HTTPException code detail
      /\ (code = 400 \/ code = 500 \/ code = 503)
      /\ (code = 503 <-> Some p = None)
      /\ (code = 503 -> s = st)
      /\ (code = 400 <-> Some p <> None /\ readable env f = false)).
  { intros s d. exists 500, d. split; [reflexivity|]. split; [auto|].
    split; [split; [lia | discriminate]|]. split; [lia|].
    split; [lia | intros [_ H]; congruence]. }
  destruct (frame _ p (Array image)) as [e|[[sh ds] rs]].
  { unfold Main.raise. apply Hcode. }
  unfold Main.bindM at 1. unfold Main.update_stats at 1.
  unfold Main.bindM at 1. unfold Main.lift at 1.
  destruct (Main.new_PredictionResponse _ _ _ _ _ _ _) as [e|resp] eqn:En.
  { assert (He : e = Exception "validation error for DetectionResult").
    { unfold Main.new_PredictionResponse in En.
      rewrite validated_records in En.
      destruct (forallb valid_confidence rs); cbn [bind] in En;
        [discriminate | congruence]. }
    subst e. unfold Main.raise, Main.bindM, Main.logger. apply Hcode. }
  unfold Main.bindM, Main.logger, Main.ret.
  destruct (new_PredictionResponse_fields _ _ _ _ _ _ _ _ En)
    as [Hs [_ [_ Hid]]].
  split; [assumption|]. split; [assumption|].
  split; [discriminate | assumption].
Qed.

(** *** What requests do to the state *)

Lemma grows_refl (st : Main.State) : grows st st.
Proof.
  unfold grows. repeat split; try lia.
  exists []. rewrite app_nil_r. reflexivity.
Qed.

Lemma grows_trans (s1 s2 s3 : Main.State) :
  grows s1 s2 -> grows s2 s3 -> grows s1 s3.
Proof.
  unfold grows.
  intros [A1 [A2 [A3 [A4 [[l1 A5] A6]]]]] [B1 [B2 [B3 [B4 [[l2 B5] B6]]]]].
  repeat split; try congruence; try lia.
  exists (l1 ++ l2). rewrite B5, A5, app_assoc. reflexivity.
Qed.

Lemma grows_tick (st : Main.State) : grows st (Main.tick st).
Proof.
  unfold grows, Main.tick. cbn. repeat split; try lia.
  exists []. rewrite app_nil_r. reflexivity.
Qed.

Lemma sound_ret {A} (P : A -> Prop) (a : A) : P a -> sound P (Main.ret a).
Proof.
  intros H st. split; [apply grows_refl|].
  intros b E. injection E as <-. assumption.
Qed.

Lemma sound_raise {A} (P : A -> Prop) (e : exn) : sound P (Main.raise e).
Proof. intros st. split; [apply grows_refl | discriminate]. Qed.

Lemma sound_lift {A} (P : A -> Prop) (r : result A) :
  (forall a, r = Return a -> P a) -> sound P (Main.lift r).
Proof. intros H st. split; [apply grows_refl | exact H]. Qed.

Lemma sound_logger (P : unit -> Prop) (l : Main.level) (msg : string) :
  P tt -> sound P (Main.logger l msg).
Proof.
  intros H st. split.
  - unfold grows, Main.logger. cbn. repeat split; try lia. eauto.
  - intros []. auto.
Qed.

Lemma sound_time_time (env : Main.Env) : sound (fun _ => True) (Main.time_time env).
Proof. intros st. split; [apply grows_tick | auto]. Qed.

Lemma sound_uuid4 (env : Main.Env) : sound (fun _ => True) (Main.uuid4 env).
Proof. intros st. split; [apply grows_tick | auto]. Qed.

Lemma sound_update_stats (P : unit -> Prop) (d : Z) (t : Q) :
  0 <= d -> P tt -> sound P (Main.update_stats d t).
Proof.
  intros Hd H st. split.
  - unfold grows, Main.update_stats. cbn. repeat split; try lia.
    exists []. rewrite app_nil_r. reflexivity.
  - intros []. auto.
Qed.

Lemma sound_bind {A B} (P : A -> Prop) (Q : B -> Prop) (m : Main.M A)
    (k : A -> Main.M B) :
  sound P m -> (forall a, P a -> sound Q (k a)) -> sound Q (Main.bindM m k).
Proof.
  intros Hm Hk st. unfold Main.bindM.
  destruct (Hm st) as [G HP]. destruct (m st) as [st1 [e|a]]; cbn in *.
  - split; [assumption | discriminate].
  - destruct (Hk a (HP a eq_refl) st1) as [G' HQ].
    split; [eapply grows_trans; eassumption | assumption].
Qed.

Lemma sound_try {A} (P : A -> Prop) (body : Main.M A)
    (handler : exn -> Main.M A) :
  sound P body -> (forall e, sound P (handler e)) ->
  sound P (Main.try_exceptM body handler).
Proof.
  intros Hb Hh st. unfold Main.try_exceptM.
  destruct (Hb st) as [G HP]. destruct (body st) as [st1 [e|a]]; cbn in *.
  - destruct (Hh e st1) as [G' HQ].
    split; [eapply grows_trans; eassumption | assumption].
  - split; assumption.
Qed.

Lemma sound_weaken {A} (P Q : A -> Prop) (m : Main.M A) :
  sound P m -> (forall a, P a -> Q a) -> sound Q m.
Proof.
  intros H HPQ st. destruct (H st) as [G HP]. split; [assumption|]. auto.
Qed.

Lemma sound_for_eachM {A B} (xs : list A) (body : A -> Main.M (list B)) :
  (forall x, sound (fun _ => True) (body x)) ->
  sound (fun _ => True) (Main.for_eachM xs body).
Proof.
  intros Hb. induction xs as [|x xs IH]; simpl.
  - apply sound_ret. exact I.
  - eapply sound_bind; [apply Hb|]. intros ys _.
    eapply sound_bind; [apply IH|]. intros zs _.
    apply sound_ret. exact I.
Qed.

Ltac at_state st :=
  match goal with
  | |- grows st (fst (?m st)) /\ _ =>
      cut (sound (fun _ => True) m); [intros Hs; exact (Hs st) | clear st]
  end.

Lemma sound_process_uploaded_file (env : Main.Env) (f : Main.UploadFile) :
  sound (fun _ => True) (Main.process_uploaded_file env f).
Proof.
  unfold Main.process_uploaded_file.
  destruct (negb _); [apply sound_raise|].
  apply sound_try; [apply sound_lift; auto|].
  intros e. apply sound_bind with (P := fun _ => True); [apply sound_logger; exact I|].
  intros _ _. apply sound_raise.
Qed.

Lemma sound_pipeline_predict_image (env : Main.Env)
    (p : RoadSignInferencePipeline) (image : ndarray) :
  sound (fun r => 0 <= detections_count_of r)
        (Main.pipeline_predict_image env p image).
Proof.
  unfold Main.pipeline_predict_image.
  eapply sound_bind; [apply sound_time_time|]. intros t0 _.
  eapply sound_bind; [apply sound_time_time|]. intros t1 _.
  apply sound_lift. intros r. rewrite predict_image_frame.
  destruct (frame _ p (Array image)) as [e|[[sh ds] rs]];
    intros H; injection H as <-; simpl; [lia | apply len_nonneg].
Qed.

Lemma sound_predict_image (env : Main.Env) (f : Main.UploadFile) :
  sound (fun _ => True) (Main.predict_image env f).
Proof.
  intros st. unfold Main.predict_image.
  destruct (Main.pipeline st) as [p|]; [|apply sound_raise].
  at_state st.
  eapply sound_bind; [apply sound_uuid4|]. intros rid _.
  eapply sound_bind; [apply sound_time_time|]. intros t _.
  apply sound_try.
  - apply sound_bind with (P := fun _ => True); [apply sound_logger; exact I|]. intros _ _.
    eapply sound_bind; [apply sound_process_uploaded_file|]. intros image _.
    eapply sound_bind; [apply sound_pipeline_predict_image|].
    intros [sh d rs pt v | err d rs pt] Hd; simpl in Hd.
    + apply sound_bind with (P := fun _ => True);
        [apply sound_update_stats; [assumption | exact I]|].
      intros _ _.
      apply sound_bind with (P := fun _ => True);
        [apply sound_lift; intros; exact I|]. intros r _.
      apply sound_bind with (P := fun _ => True); [apply sound_logger; exact I|]. intros _ _.
      apply sound_ret. exact I.
    + apply sound_raise.
  - intros e. destruct e; try apply sound_raise;
      (apply sound_bind with (P := fun _ => True); [apply sound_logger; exact I|]; intros _ _;
       apply sound_raise).
Qed.

Lemma sound_predict_batch_item (env : Main.Env)
    (p : RoadSignInferencePipeline) (rid : string) (i : nat)
    (f : Main.UploadFile) :
  sound (fun _ => True) (Main.predict_batch_item env p rid i f).
Proof.
  unfold Main.predict_batch_item. apply sound_try.
  - eapply sound_bind; [apply sound_process_uploaded_file|]. intros image _.
    eapply sound_bind; [apply sound_pipeline_predict_image|].
    intros [sh d rs pt v | err d rs pt] Hd; simpl in Hd.
    + eapply sound_bind with (P := fun _ => True).
      * apply sound_bind with (P := fun _ => True);
          [apply sound_update_stats; [assumption | exact I]|].
        intros _ _. apply sound_lift. intros; exact I.
      * intros r _. apply sound_ret. exact I.
    + eapply sound_bind with (P := fun _ => True).
      * apply sound_lift. intros; exact I.
      * intros r _. apply sound_ret. exact I.
  - intros e. apply sound_bind with (P := fun _ => True); [apply sound_logger; exact I|].
    intros _ _. apply sound_ret. exact I.
Qed.

Lemma sound_predict_batch (env : Main.Env) (files : list Main.UploadFile) :
  sound (fun _ => True) (Main.predict_batch env files).
Proof.
  intros st. unfold Main.predict_batch.
  destruct (Main.pipeline st) as [p|]; [|apply sound_raise].
  destruct (10 <? len files); [apply sound_raise|].
  at_state st.
  eapply sound_bind; [apply sound_uuid4|]. intros rid _.
  apply sound_bind with (P := fun _ => True); [apply sound_logger; exact I|]. intros _ _.
  eapply sound_bind.
  - apply sound_for_eachM. intros [i f].
    apply sound_predict_batch_item.
  - intros es _. apply sound_bind with (P := fun _ => True); [apply sound_logger; exact I|].
    intros _ _. apply sound_ret. exact I.
Qed.

Lemma grows_answer (env : Main.Env) (r : request) (st : Main.State) :
  grows st (answer env r st).
Proof.
  destruct r as [| |f|files]; unfold answer.
  - destruct (health_check_returns env st) as [h [E _]]. rewrite E.
    apply grows_tick.
  - destruct (get_metrics_returns env st) as [m [E _]]. rewrite E.
    apply grows_tick.
  - apply sound_predict_image.
  - apply sound_predict_batch.
Qed.

(** X15.  Whatever requests the service answers, in whatever order and
    with whatever outcome, the counters [total_predictions] and
    [total_detections] never decrease, the start time and the pipeline
    object stay what they were, and the log only gets longer. *)
Theorem serve_grows :
  forall (env : Main.Env) (requests : list request) (st : Main.State),
    grows st (serve env requests st).
Proof.
  intros env requests. unfold serve.
  induction requests as [|r requests IH]; intros st; simpl.
  - apply grows_refl.
  - eapply grows_trans; [apply grows_answer | apply IH].
Qed.

(** *** What a batch counts *)

(** One turn of the loop of [predict_batch] counts the upload exactly when
    the pipeline returned a result without error for it, whether or not the
    response could then be built. *)
Lemma predict_batch_item_counts (env : Main.Env)
    (p : RoadSignInferencePipeline) (rid : string) (i : nat)
    (f : Main.UploadFile) (st : Main.State) :
  Main.total_predictions
    (Main.app_stats (fst (Main.predict_batch_item env p rid i f st)))
  = Main.total_predictions (Main.app_stats st)
    + (if pipeline_ok env p f then 1 else 0).
Proof.
  unfold Main.predict_batch_item, pipeline_ok.
  unfold Main.try_exceptM. unfold Main.bindM at 1.
  destruct (process_uploaded_file_cases env f st)
    as [[image [Ht [Hd E]]] | [s' [detail [Hc [E [Hs _]]]]]]; rewrite E; clear E.
  2:{ unfold Main.bindM, Main.logger, Main.ret. cbn. rewrite Hs.
      destruct Hc as [Ht | [e Hd]].
      - rewrite Ht. cbn. lia.
      - rewrite Hd, andb_false_r. lia. }
  rewrite Ht, Hd. cbn [andb].
  unfold Main.bindM at 1. rewrite pipeline_predict_image_run.
  destruct (frame _ p (Array image)) as [e|[[sh ds] rs]].
  { unfold Main.bindM, Main.lift, Main.ret. cbn. lia. }
  unfold Main.bindM at 1. unfold Main.bindM at 1.
  unfold Main.update_stats at 1. unfold Main.lift at 1.
  unfold Main.new_PredictionResponse. rewrite validated_records.
  destruct (forallb valid_confidence rs); cbn; reflexivity.
Qed.

Lemma predict_batch_loop_counts (env : Main.Env)
    (p : RoadSignInferencePipeline) (rid : string)
    (files : list Main.UploadFile) :
  forall (k : nat) (st : Main.State),
    Main.total_predictions
      (Main.app_stats
         (fst (Main.for_eachM (combine (seq k (length files)) files)
                 (fun ifile =>
                    Main.predict_batch_item env p rid (fst ifile)
                      (snd ifile)) st)))
    = Main.total_predictions (Main.app_stats st)
      + len (filter (pipeline_ok env p) files).
Proof.
  induction files as [|f files IH]; intros k st.
  - cbn. lia.
  - simpl combine. simpl Main.for_eachM. unfold Main.bindM at 1.
    cbn [fst snd].
    pose proof (predict_batch_item_counts env p rid k f st) as Hc.
    destruct (predict_batch_item_entry env p rid k f st)
      as [st1 [e [E _]]].
    rewrite E in Hc |- *. cbn [fst] in Hc. unfold Main.bindM at 1.
    specialize (IH (S k) st1).
    destruct (predict_batch_loop env p rid files (S k) st1)
      as [st2 [entries [E2 _]]].
    rewrite E2 in IH |- *. cbn [fst] in IH |- *. unfold Main.ret. cbn [fst].
    rewrite IH, Hc. simpl filter.
    destruct (pipeline_ok env p f); unfold len; simpl length; lia.
Qed.

(** X16.  A batch of at most 10 uploads sent to a service that holds a
    pipeline object raises [total_predictions] by the number of uploads for
    which the pipeline returned a result without error: uploads that are no
    images, that do not decode or on which the pipeline reports an error are
    not counted. *)
Theorem predict_batch_counts :
  forall (env : Main.Env) (st : Main.State) (p : RoadSignInferencePipeline)
         (files : list Main.UploadFile),
    Main.pipeline st = Some p ->
    len files <= 10 ->
    Main.total_predictions
      (Main.app_stats (fst (Main.predict_batch env files st)))
    = Main.total_predictions (Main.app_stats st)
      + len (filter (pipeline_ok env p) files).
Proof.
  intros env st p files Hp H. unfold Main.predict_batch. rewrite Hp.
  apply Z.ltb_ge in H. rewrite H.
  unfold Main.bindM at 1. unfold Main.uuid4 at 1.
  unfold Main.bindM at 1. unfold Main.logger at 1.
  unfold Main.bindM at 1. unfold enumerate.
  match goal with
  | |- context [Main.for_eachM _ _ ?s] =>
      pose proof (predict_batch_loop_counts env p
                    (Main.uuid_at env (Main.ticks st)) files 0 s) as Hc;
      destruct (predict_batch_loop env p
                  (Main.uuid_at env (Main.ticks st)) files 0 s)
        as [st1 [entries [E _]]]
  end.
  rewrite E in Hc |- *. cbn [fst] in Hc.
  unfold Main.bindM, Main.logger, Main.ret. cbn. exact Hc.
Qed.

Lemma predict_batch_counts_witness :
  Main.total_predictions
    (Main.app_stats
       (fst (Main.predict_batch mock_service [jpeg; corrupted; jpeg]
               (serving (Some loaded_pipeline)))))
  = Main.total_predictions (Main.app_stats (serving (Some loaded_pipeline)))
    + len (filter (pipeline_ok mock_service loaded_pipeline)
             [jpeg; corrupted; jpeg]).
Proof.
  apply (predict_batch_counts mock_service (serving (Some loaded_pipeline))
           loaded_pipeline [jpeg; corrupted; jpeg]).
  - reflexivity.
  - unfold len. simpl. lia.
Defined.

(** *** Start-up *)

(** X17.  [initialize_pipeline] never raises and leaves the counters, the
    start time and the clock alone.  It returns [True] and installs the
    pipeline object exactly when the constructor of the pipeline returns
    one; when the constructor raises, it returns [False], keeps the pipeline
    global as it was and writes the exception to the log as an error. *)
Theorem initialize_pipeline_outcome :
  forall (env : Main.Env) (st : Main.State),
    exists (st' : Main.State) (ok : bool),
      Main.initialize_pipeline env st = (st', Return ok)
      /\ Main.app_stats st' = Main.app_stats st
      /\ Main.ticks st' = Main.ticks st
      /\ match __init__ (Main.pipeline_env env) None
                 "conf/base/model_config.yml" with
         | Return p => ok = true /\ Main.pipeline st' = Some p
         | Raise e =>
             ok = false
             /\ Main.pipeline st' = Main.pipeline st
             /\ In (Main.ERROR,
                    ("Erreur initialisation pipeline: " ++ str_exn e)%string)
                   (Main.log st')
         end.
Proof.
  intros env st. unfold Main.initialize_pipeline, Main.try_exceptM.
  unfold Main.bindM at 1. unfold Main.logger at 1.
  unfold Main.bindM at 1. unfold Main.lift at 1.
  destruct (__init__ (Main.pipeline_env env) None _) as [e|p].
  - unfold Main.bindM, Main.logger, Main.ret. cbn.
    do 2 eexists. split; [reflexivity|]. cbn.
    repeat split. apply in_or_app. right. left. reflexivity.
  - unfold Main.bindM, Main.set_pipeline, Main.logger, Main.ret. cbn.
    do 2 eexists. split; [reflexivity|]. cbn. repeat split.
Qed.

Lemma init_returns (env : Env) (yolo_model_path : option string)
    (config_path : string) :
  (exists self, __init__ env yolo_model_path config_path = Return self)
  <-> (exists cfg, safe_load env config_path = Return cfg)
      /\ (exists u,
             set_experiment (mlflow env) "RoadSign_E2E_Pipeline" = Return u).
Proof.
  unfold __init__.
  destruct (safe_load env config_path) as [e|cfg].
  - split; [intros [self H]; discriminate | intros [[cfg H] _]; discriminate].
  - cbn [bind]. rewrite load_models_outcome.
    destruct (set_experiment (mlflow env) _) as [e|[]];
      destruct (new_YOLO env _) as [e'|m]; cbn [bind];
      (split; [intros [self H]; try discriminate; eauto
              | intros [_ [u H]]; try discriminate; eauto]).
Qed.

(** X18.  After [initialize_pipeline] has run on a service without pipeline
    object, the health query answers "healthy" exactly when the
    configuration file could be loaded and the tracker accepted the
    experiment: a detector that could not be loaded does not show. *)
Theorem health_after_initialize :
  forall (env : Main.Env) (st : Main.State),
    Main.pipeline st = None ->
    exists h : Main.HealthResponse,
      snd (Main.health_check env (fst (Main.initialize_pipeline env st)))
      = Return h
      /\ (Main.status h = "healthy"%string <->
          (exists cfg,
              safe_load (Main.pipeline_env env) "conf/base/model_config.yml"
              = Return cfg)
          /\ (exists u,
                 set_experiment (mlflow (Main.pipeline_env env))
                   "RoadSign_E2E_Pipeline" = Return u)).
Proof.
  intros env st Hn.
  destruct (health_check_returns env
              (fst (Main.initialize_pipeline env st))) as [h [Eh [Hs _]]].
  exists h. rewrite Eh. split; [reflexivity|]. rewrite Hs. clear Eh Hs.
  rewrite <- (init_returns (Main.pipeline_env env) None
                "conf/base/model_config.yml").
  unfold Main.initialize_pipeline, Main.try_exceptM.
  unfold Main.bindM at 1. unfold Main.logger at 1.
  unfold Main.bindM at 1. unfold Main.lift at 1.
  destruct (__init__ (Main.pipeline_env env) None _) as [e|p].
  - unfold Main.bindM, Main.logger, Main.ret. cbn. rewrite Hn.
    split; [discriminate|]. intros [self H]. discriminate.
  - unfold Main.bindM, Main.set_pipeline, Main.logger, Main.ret. cbn.
    split; eauto.
Qed.

Lemma health_after_initialize_witness :
  exists h : Main.HealthResponse,
    snd (Main.health_check mock_service
           (fst (Main.initialize_pipeline mock_service (serving None))))
    = Return h
    /\ (Main.status h = "healthy"%string <->
        (exists cfg,
            safe_load (Main.pipeline_env mock_service)
              "conf/base/model_config.yml" = Return cfg)
        /\ (exists u,
               set_experiment (mlflow (Main.pipeline_env mock_service))
                 "RoadSign_E2E_Pipeline" = Return u)).
Proof.
  apply (health_after_initialize mock_service (serving None)).
  reflexivity.
Defined.
